(** * The Ouroboros Lab autopilot (OUROBOROS_LAB_AUTOPILOT.py)

    A shallow embedding of the adaptive calibration runner: the result
    extractor ([_parse_float] over the label patterns), the classifier
    ([classify]), the cost proxy, the stagnation detector, the
    minimum-cost selection, the main loop of [OuroborosLab.run] and the
    argument passing and summary of [main], followed by the properties
    of the specification that concern them and by further properties of
    the code.

    Python values are modelled as follows.
    - [int] is [Z].
    - [float] is an IEEE 754 binary64 value: [spec_float] with the
      operations of [SpecFloat] at precision 53 and maximal exponent 1024,
      rounding to nearest, ties to even.
    - [str] is [string]; a character is an 8-bit code point.
    - [Optional[T]] is [option T]; a raised exception is the [Raise] case
      of [outcome], a call that never comes back its [Hang] case.
    - the operating system (child processes, the clock, the report file)
      is the explicit [World] threaded through [_run_once] and [run]. *)

From Stdlib Require Import ZArith List String Ascii Bool Lia DecimalString.
From Stdlib Require Import Floats.SpecFloat.
Import ListNotations.

Local Open Scope string_scope.
Local Open Scope list_scope.
Local Open Scope Z_scope.

(** ** Python floats *)

Module PyFloat.

Definition float := spec_float.

Definition prec := 53.
Definition emax := 1024.

Definition nan : float := S754_nan.
Definition zero : float := S754_zero false.

Definition add : float -> float -> float := SFadd prec emax.
Definition sub : float -> float -> float := SFsub prec emax.
Definition mul : float -> float -> float := SFmul prec emax.
(** Python raises [ZeroDivisionError] on a zero divisor; every division
    of the runner is guarded or has a constant divisor, and [div] is
    only used at those places. *)
Definition div : float -> float -> float := SFdiv prec emax.

Definition ltb : float -> float -> bool := SFltb.
Definition leb : float -> float -> bool := SFleb.
Definition eqb : float -> float -> bool := SFeqb.
(** [x >= y] is [y <= x], also on NaN (both false). *)
Definition geb (x y : float) : bool := SFleb y x.
Definition gtb (x y : float) : bool := SFltb y x.

Definition is_nan (x : float) : bool :=
  match x with S754_nan => true | _ => false end.

(** Conversion of an [int] operand of a mixed [int / float] or
    [int + float] operation: correctly rounded, [None] standing for the
    [OverflowError] of an integer beyond the range of a float. *)
Definition of_int (z : Z) : option float :=
  match binary_normalize prec emax z 0 false with
  | S754_infinity _ => None
  | f => Some f
  end.

(** The value [(-1)^neg * m * 10^e10], correctly rounded: what both a
    float literal of the source and [float(str)] denote. *)
Definition of_decimal (neg : bool) (m : Z) (e10 : Z) : float :=
  match m with
  | Zpos p =>
      if 0 <=? e10
      then binary_normalize prec emax
             (if neg then - (m * 10 ^ e10) else m * 10 ^ e10) 0 false
      else div (S754_finite neg p 0)
               (S754_finite false (Z.to_pos (10 ^ (- e10))) 0)
  | _ => S754_zero neg
  end.

(** *** float(str), on the strings over digits, [.], [E], [e], [+], [-]. *)

Definition is_digit (c : ascii) : bool :=
  let n := nat_of_ascii c in (48 <=? n)%nat && (n <=? 57)%nat.

Definition digit_val (c : ascii) : Z := Z.of_nat (nat_of_ascii c) - 48.

(** Reads a run of digits: the accumulated value, the number of digits
    read and the rest of the string. *)
Fixpoint digits (s : string) (acc : Z) (n : Z) : Z * Z * string :=
  match s with
  | String c s' =>
      if is_digit c then digits s' (10 * acc + digit_val c) (n + 1)
      else (acc, n, s)
  | EmptyString => (acc, n, s)
  end.

Definition sign (s : string) : bool * string :=
  match s with
  | String "-" s' => (true, s')
  | String "+" s' => (false, s')
  | _ => (false, s)
  end.

Definition is_exp_mark (c : ascii) : bool :=
  (Ascii.eqb c "e" || Ascii.eqb c "E")%bool.

(** [None] is the [ValueError] of a string that is not a number. *)
Definition of_string (s : string) : option float :=
  let '(neg, s1) := sign s in
  let '(ip, ni, s2) := digits s1 0 0 in
  let '(m, nf, s3) :=
    match s2 with
    | String "." s2' => digits s2' ip 0
    | _ => (ip, 0, s2)
    end in
  if ni + nf =? 0 then None
  else
    match s3 with
    | EmptyString => Some (of_decimal neg m (- nf))
    | String c s4 =>
        if is_exp_mark c then
          let '(eneg, s5) := sign s4 in
          let '(ev, ne, s6) := digits s5 0 0 in
          if ne =? 0 then None
          else
            match s6 with
            | EmptyString =>
                Some (of_decimal neg m ((if eneg then - ev else ev) - nf))
            | _ => None
            end
        else None
    end.

(** A float literal of the source text. *)
Definition literal (s : string) : float :=
  match of_string s with Some f => f | None => nan end.

End PyFloat.

Import PyFloat.

(** ** Python strings *)

Module PyStr.

(** [str.isspace] of one character, which is also the class [\s] of
    [re] on a [str] pattern: the code points 9-13, 28-32, 133 and 160
    of the 8-bit range. *)
Definition is_space (c : ascii) : bool :=
  let n := nat_of_ascii c in
  ((9 <=? n) && (n <=? 13) || (28 <=? n) && (n <=? 32)
   || (n =? 133) || (n =? 160))%nat.

Fixpoint lstrip (s : string) : string :=
  match s with
  | String c s' => if is_space c then lstrip s' else s
  | EmptyString => s
  end.

Fixpoint rstrip (s : string) : string :=
  match s with
  | String c s' =>
      match rstrip s' with
      | EmptyString => if is_space c then EmptyString else String c EmptyString
      | r => String c r
      end
  | EmptyString => EmptyString
  end.

(** [s.strip()] *)
Definition strip (s : string) : string := rstrip (lstrip s).

(** [s.split()]: the maximal runs of non-space characters. [cur] is the
    word being read, reversed. *)
Fixpoint split_aux (s : string) (cur : list ascii) : list string :=
  let flush (rest : list string) :=
    match cur with
    | [] => rest
    | _ => string_of_list_ascii (rev cur) :: rest
    end in
  match s with
  | String c s' =>
      if is_space c then flush (split_aux s' []) else split_aux s' (c :: cur)
  | EmptyString => flush []
  end.

Definition split (s : string) : list string := split_aux s [].

(** [str(n)] for an [int] that [str] accepts (one of at most 4300 decimal
    digits, see [str_accepts] below). *)
Definition of_int (z : Z) : string :=
  NilZero.string_of_int (Z.to_int z).

(** [s[:n]], the slice up to index [n]; a negative [n] counts from the
    end. *)
Definition slice_to (s : string) (n : Z) : string :=
  let len := Z.of_nat (String.length s) in
  let stop := if n <? 0 then Z.max 0 (len + n) else Z.min n len in
  substring 0 (Z.to_nat stop) s.

End PyStr.

(** [l[i:]] on a list, the slice from index [i]; a negative [i] counts
    from the end, and [l[-0:]] is the whole list. *)
Definition slice_from {A : Type} (l : list A) (i : Z) : list A :=
  let len := Z.of_nat (List.length l) in
  let start := if i <? 0 then Z.max 0 (len + i) else Z.min i len in
  skipn (Z.to_nat start) l.

(** ** The patterns of the result extractor

    The six patterns of the source are sequences of a literal text, a
    greedy star over a character class and one capturing group, a greedy
    plus over a character class.  [match_here] is the backtracking
    matcher of [re] on such sequences: a repetition first takes every
    character it can and gives them back one at a time while the rest of
    the pattern fails. *)

Module PyRe.

Inductive item :=
| Lit (c : ascii)                  (* one literal character *)
| Star (cls : ascii -> bool)       (* cls*, greedy *)
| Group (cls : ascii -> bool).     (* (cls+), greedy, captured *)

Definition pattern := list item.

Fixpoint lits (s : string) : pattern :=
  match s with
  | String c s' => Lit c :: lits s'
  | EmptyString => []
  end.

Section Repeat.
Variable cls : ascii -> bool.
Variable k : string -> option string.

(** [cls*] followed by the continuation [k]. *)
Fixpoint star (s : string) : option string :=
  match s with
  | String c s' =>
      if cls c
      then match star s' with
           | Some g => Some g
           | None => k s
           end
      else k s
  | EmptyString => k s
  end.
End Repeat.

Section Capture.
Variable cls : ascii -> bool.
Variable k : string -> option string.

(** The characters of [(cls+)] after its first one, followed by the
    continuation [k]; [acc] is the text captured so far, reversed. *)
Fixpoint group_more (acc : list ascii) (t : string) : option string :=
  let stop :=
    match k t with
    | Some _ => Some (string_of_list_ascii (rev acc))
    | None => None
    end in
  match t with
  | String d t' =>
      if cls d
      then match group_more (d :: acc) t' with
           | Some g => Some g
           | None => stop
           end
      else stop
  | EmptyString => stop
  end.
End Capture.

(** The match of a pattern at the start of [s]: the text of the group. *)
Fixpoint match_here (p : pattern) (s : string) : option string :=
  match p with
  | [] => Some EmptyString
  | Lit c :: p' =>
      match s with
      | String d s' => if Ascii.eqb c d then match_here p' s' else None
      | EmptyString => None
      end
  | Star cls :: p' => star cls (match_here p') s
  | Group cls :: p' =>
      match s with
      | String c s' =>
          if cls c then group_more cls (match_here p') [c] s' else None
      | EmptyString => None
      end
  end.

(** [regex.search(text)]: the match at the leftmost position that has
    one; the result is the text of group 1. *)
Fixpoint search (p : pattern) (text : string) : option string :=
  match match_here p text with
  | Some g => Some g
  | None =>
      match text with
      | String _ text' => search p text'
      | EmptyString => None
      end
  end.

(** The character classes of the source patterns. *)
Definition space : ascii -> bool := PyStr.is_space.
(** [.] matches everything but a newline. *)
Definition dot (c : ascii) : bool := negb (Ascii.eqb c "010").
(** [[0-9\.Ee+\-]] *)
Definition numchar (c : ascii) : bool :=
  (PyFloat.is_digit c || Ascii.eqb c "." || Ascii.eqb c "E"
   || Ascii.eqb c "e" || Ascii.eqb c "+" || Ascii.eqb c "-")%bool.

End PyRe.

Import PyRe.

Definition nl : string := String "010" EmptyString.

(** ** Parsing *)

Definition label (name : string) (gap : ascii -> bool) : pattern :=
  lits name ++ [Star gap; Lit "="; Star space; Group numchar].

Definition RE_RELERR : pattern := label "rel_err" space.
Definition RE_ABSERR : pattern := label "abs_err" space.
Definition RE_QGEO   : pattern := label "Q_geo" dot.
Definition RE_LP     : pattern := label "L'(1)" dot.
Definition RE_OMEGA  : pattern := label "Omega_total" dot.
Definition RE_REG    : pattern := label "Regulator R" dot.

(** ** Semaphore *)

Definition PASS_STRICT : float := Eval vm_compute in literal "1e-12".
Definition PASS_GUERR  : float := Eval vm_compute in literal "1e-9".
Definition WARN_TOL    : float := Eval vm_compute in literal "1e-7".

(** The messages are those of the source, its accented letters in UTF-8. *)
Definition classify (rel_err : option float) : string * string :=
  match rel_err with
  | None =>
      ("FAIL", "No se pudo parsear rel_err: posible cambio de formato o crash.")
  | Some e =>
      if ltb e PASS_STRICT then
        ("PASS_STRICT", "Cierre de expediente: convergencia fuerte.")
      else if ltb e PASS_GUERR then
        ("PASS_GUERRILLA", "Puente operativo: pipeline sano, falta francotirador.")
      else if ltb e WARN_TOL then
        ("WARN", "Subcalibrado: suele requerir más dps/terms o suma más estable.")
      else
        ("FAIL", "Error alto: o falta calibración extrema o hay bug/modelo incorrecto.")
  end.

(** ** Exceptions and results *)

Inductive exn :=
| OSError               (* the child process could not be started, or the
                           report file could not be opened *)
| UnicodeDecodeError    (* the output of the child is not text *)
| OverflowError         (* int too large to convert to float *)
| ValueError.           (* int too long to convert to str *)

(** How a call ends: it returns, it raises, or it never comes back
    ([subprocess.run] waits for its child without a timeout). *)
Inductive outcome (A : Type) :=
| Return (a : A)
| Raise (e : exn)
| Hang.
Arguments Return {A} a.
Arguments Raise {A} e.
Arguments Hang {A}.

(** [time_s * (1.0 + dps / 80.0) * (1.0 + terms / 20000.0)] *)
Definition cost_proxy (time_s : float) (dps terms : Z) : outcome float :=
  match PyFloat.of_int dps with
  | None => Raise OverflowError
  | Some d =>
      let a := mul time_s (add (literal "1.0") (div d (literal "80.0"))) in
      match PyFloat.of_int terms with
      | None => Raise OverflowError
      | Some t => Return (mul a (add (literal "1.0") (div t (literal "20000.0"))))
      end
  end.

(** ** Records *)

Record RunConfig := {
  dps : Z;
  terms : Z;
  extra_args : list string
}.

Record RunResult := {
  config : RunConfig;
  time_s : float;
  rel_err : option float;
  abs_err : option float;
  status : string;
  meaning : string;
  Q_geo : option float;
  Lprime1 : option float;
  Omega_total : option float;
  Regulator_R : option float;
  cost : float;
  stdout_trunc : string;
  returncode : Z
}.

(** The report; [asdict] of a run is the run itself. *)
Record LabReport := {
  policy : list (string * float);
  env : list (string * string);
  report_experiment_cmd : string;
  experiment_script_hash : option string;
  runs : list RunResult;
  best : option RunResult;
  best_guerrilla : option RunResult
}.

(** The attributes of an [OuroborosLab] object. *)
Record OuroborosLab := {
  experiment_cmd : string;
  script_hash : option string;
  out_json : string;
  max_stdout_chars : Z;
  stagnation_window : Z;
  stagnation_improve_min : float;
  cola_ratio_threshold : float;
  precision_bump : Z;
  terms_growth : Z;
  _runs : list RunResult
}.

Definition set_runs (self : OuroborosLab) (rs : list RunResult) : OuroborosLab :=
  {| experiment_cmd := experiment_cmd self;
     script_hash := script_hash self;
     out_json := out_json self;
     max_stdout_chars := max_stdout_chars self;
     stagnation_window := stagnation_window self;
     stagnation_improve_min := stagnation_improve_min self;
     cola_ratio_threshold := cola_ratio_threshold self;
     precision_bump := precision_bump self;
     terms_growth := terms_growth self;
     _runs := rs |}.

(** [OuroborosLab(experiment_cmd, out_json=...)] with the defaults of
    [__init__]; [hash] is the digest of the script when one was asked
    for and the file exists. *)
Definition new_lab (cmd : string) (hash : option string) (out : string)
  : OuroborosLab :=
  {| experiment_cmd := PyStr.strip cmd;
     script_hash := hash;
     out_json := out;
     max_stdout_chars := 4000;
     stagnation_window := 3;
     stagnation_improve_min := literal "0.10";
     cola_ratio_threshold := literal "1.8";
     precision_bump := 40;
     terms_growth := 2;
     _runs := [] |}.

(** ** The operating system *)

Record CompletedProcess := {
  stdout : string;
  stderr : string;
  p_returncode : Z
}.

(** What becomes of a child process: [subprocess.run] raises (the
    command cannot be started, the output is not text), the child exits
    and its output and exit code are collected, or the child never exits. *)
Inductive child :=
| Fails (e : exn)
| Exits (p : CompletedProcess)
| Never_exits.

(** What the runner can observe of its host and what it leaves there.
    The behaviour of the child processes and of the clock is a function
    of the number of calls made so far. *)
Record World := {
  w_proc : nat -> list string -> child;
      (* what the k-th [subprocess.run] does with its command *)
  w_clock : nat -> float;          (* what the k-th [time.time()] returns *)
  w_writable : string -> bool;     (* whether [open(path, "w")] succeeds *)
  w_env : list (string * string);  (* python version, platform, cwd *)
  w_launched : list (list string); (* the commands run so far, latest first *)
  w_ticks : nat;                   (* the number of clock readings so far *)
  w_files : list (string * LabReport)  (* the reports written, latest first *)
}.

Fixpoint read_file (files : list (string * LabReport)) (path : string)
  : option LabReport :=
  match files with
  | [] => None
  | (p, r) :: files' => if String.eqb p path then Some r else read_file files' path
  end.

(** Computations of the methods: they act on the object and on the
    world, and return, raise or hang; the state beside [Hang] is the one
    in which the call is stuck. *)
Definition M (A : Type) : Type :=
  OuroborosLab * World -> outcome A * (OuroborosLab * World).

Definition ret {A} (a : A) : M A := fun st => (Return a, st).
Definition throw {A} (e : exn) : M A := fun st => (Raise e, st).
Definition bind {A B} (m : M A) (k : A -> M B) : M B :=
  fun st =>
    match m st with
    | (Return a, st') => k a st'
    | (Raise e, st') => (Raise e, st')
    | (Hang, st') => (Hang, st')
    end.

Notation "x <- m ;; k" := (bind m (fun x => k))
  (at level 61, m at next level, right associativity).
Notation "m ;;; k" := (bind m (fun _ => k))
  (at level 61, right associativity).

Definition get_self : M OuroborosLab := fun st => (Return (fst st), st).

Definition lift {A} (o : outcome A) : M A := fun st => (o, st).

Definition time_time : M float :=
  fun '(self, w) =>
    (Return (w_clock w (w_ticks w)),
     (self, {| w_proc := w_proc w; w_clock := w_clock w;
               w_writable := w_writable w; w_env := w_env w;
               w_launched := w_launched w; w_ticks := S (w_ticks w);
               w_files := w_files w |})).

(** [subprocess.run(cmd, stdout=PIPE, stderr=PIPE, text=True)]: there is
    no timeout, so the call waits for as long as the child runs. *)
Definition subprocess_run (cmd : list string) : M CompletedProcess :=
  fun '(self, w) =>
    let w' := {| w_proc := w_proc w; w_clock := w_clock w;
                 w_writable := w_writable w; w_env := w_env w;
                 w_launched := cmd :: w_launched w; w_ticks := w_ticks w;
                 w_files := w_files w |} in
    match w_proc w (List.length (w_launched w)) cmd with
    | Fails e => (Raise e, (self, w'))
    | Exits p => (Return p, (self, w'))
    | Never_exits => (Hang, (self, w'))
    end.

(** [with open(path, "w") as f: json.dump(asdict(report), f)]: the
    [open] may fail; a file that was opened is taken to be written whole
    (a write that breaks off half way is not part of this model). *)
Definition json_dump (report : LabReport) (path : string) : M unit :=
  fun '(self, w) =>
    if w_writable w path
    then (Return tt,
          (self, {| w_proc := w_proc w; w_clock := w_clock w;
                    w_writable := w_writable w; w_env := w_env w;
                    w_launched := w_launched w; w_ticks := w_ticks w;
                    w_files := (path, report) :: w_files w |}))
    else (Raise OSError, (self, w)).

(** [self._runs.append(rr)] *)
Definition append_run (rr : RunResult) : M unit :=
  fun '(self, w) => (Return tt, (set_runs self (_runs self ++ [rr]), w)).

(** ** Methods of OuroborosLab *)

(** [str(n)] is refused, with ValueError, for an [int] of more than 4300
    decimal digits (the default of [sys.set_int_max_str_digits]). *)
Definition str_limit : Z := Eval vm_compute in 10 ^ 4300.

Definition str_accepts (z : Z) : bool := Z.abs z <? str_limit.

(** The list that [_build_cmd] returns, for integers that [str]
    accepts. *)
Definition _build_cmd (self : OuroborosLab) (cfg : RunConfig) : list string :=
  let base := extra_args cfg in
  let cmd := PyStr.split (experiment_cmd self) in
  let cmd := cmd ++ ["--dps"; PyStr.of_int (dps cfg);
                     "--terms"; PyStr.of_int (terms cfg)] in
  cmd ++ base.

(** The call [self._build_cmd(cfg)]: it raises when [str(cfg.dps)] or
    [str(cfg.terms)] does. *)
Definition call_build_cmd (self : OuroborosLab) (cfg : RunConfig)
  : outcome (list string) :=
  if str_accepts (dps cfg) && str_accepts (terms cfg)
  then Return (_build_cmd self cfg)
  else Raise ValueError.

(** [regex.search], then [float] of group 1; a failing conversion is
    caught and gives [None]. *)
Definition _parse_float (regex : pattern) (text : string) : option float :=
  match search regex text with
  | None => None
  | Some g => PyFloat.of_string g
  end.

(** [(p.stdout or "") + "\n" + (p.stderr or "")] *)
Definition output (p : CompletedProcess) : string :=
  (stdout p ++ nl ++ stderr p)%string.

Definition _run_once (cfg : RunConfig) : M RunResult :=
  self <- get_self ;;
  cmd <- lift (call_build_cmd self cfg) ;;
  t0 <- time_time ;;
  p <- subprocess_run cmd ;;
  t1 <- time_time ;;
  let dt := sub t1 t0 in
  let out := output p in
  let out_trunc := PyStr.slice_to out (max_stdout_chars self) in
  let rel := _parse_float RE_RELERR out in
  let ab  := _parse_float RE_ABSERR out in
  let qg  := _parse_float RE_QGEO out in
  let lp  := _parse_float RE_LP out in
  let om  := _parse_float RE_OMEGA out in
  let rg  := _parse_float RE_REG out in
  let status := fst (classify rel) in
  let meaning := snd (classify rel) in
  cost <- lift (cost_proxy dt (dps cfg) (terms cfg)) ;;
  let rr := {| config := cfg; time_s := dt; rel_err := rel; abs_err := ab;
               status := status; meaning := meaning; Q_geo := qg;
               Lprime1 := lp; Omega_total := om; Regulator_R := rg;
               cost := cost; stdout_trunc := out_trunc;
               returncode := p_returncode p |} in
  append_run rr ;;;
  ret rr.

(** [min(cands, key=lambda r: r.cost)] after its first element: a later
    candidate replaces the current one when its cost is smaller. *)
Fixpoint min_by_cost (cur : RunResult) (cands : list RunResult) : RunResult :=
  match cands with
  | [] => cur
  | r :: cands' => min_by_cost (if ltb (cost r) (cost cur) then r else cur) cands'
  end.

Definition _best_by (self : OuroborosLab) (predicate : RunResult -> bool)
  : option RunResult :=
  match filter predicate (_runs self) with
  | [] => None
  | r :: cands => Some (min_by_cost r cands)
  end.

Definition _improvement_ratio (old new : option float) : option float :=
  match old, new with
  | Some o, Some n => if leb n zero then None else Some (div o n)
  | _, _ => None
  end.

Definition parsed_runs (self : OuroborosLab) : list RunResult :=
  filter (fun r => match rel_err r with Some _ => true | None => false end)
         (_runs self).

(** The loop of [_stagnating] over the pairs of consecutive runs: the
    ratios, or [None] when the loop returns [False] early. *)
Fixpoint ratios_from (prev : RunResult) (rest : list RunResult)
  : option (list float) :=
  match rest with
  | [] => Some []
  | cur :: rest' =>
      match rel_err prev, rel_err cur with
      | Some p, Some c =>
          if leb c zero then None
          else match ratios_from cur rest' with
               | Some rs => Some (div p c :: rs)
               | None => None
               end
      | _, _ => None
      end
  end.

Definition _stagnating (self : OuroborosLab) : bool :=
  let parsed := parsed_runs self in
  if Z.of_nat (List.length parsed) <? stagnation_window self + 1 then false
  else
    let last := slice_from parsed (- (stagnation_window self + 1)) in
    match last with
    | [] => true
    | r :: rest =>
        match ratios_from r rest with
        | None => false
        | Some ratios =>
            forallb (fun r => ltb r (add (literal "1.0")
                                         (stagnation_improve_min self)))
                    ratios
        end
    end.

(** ** The main loop *)

(** How the loop was left.  The source keeps no such value: [STOPPED_PASS]
    is the [break] after a trial that meets the stop condition,
    [STOPPED_CANNOT_GROW] the [break] of the stagnation branch, and
    [STOPPED_BUDGET] the exhaustion of [range(max_steps)]. *)
Inductive Stopped := STOPPED_PASS | STOPPED_BUDGET | STOPPED_CANNOT_GROW.

(** The end of one pass through the loop body: [break], or the next
    pass with the new [dps] and [terms]. *)
Inductive flow :=
| Break (s : Stopped)
| Next (dps terms : Z).

(** [(stop_on == "PASS_STRICT" and status == "PASS_STRICT") or
     (stop_on == "PASS_GUERRILLA" and status in ("PASS_STRICT", "PASS_GUERRILLA"))] *)
Definition stop_check (stop_on status : string) : bool :=
  ((stop_on =? "PASS_STRICT")%string && (status =? "PASS_STRICT")%string)
  || ((stop_on =? "PASS_GUERRILLA")%string
      && ((status =? "PASS_STRICT")%string || (status =? "PASS_GUERRILLA")%string)).

(** [min(max_dps, dps + self.precision_bump)] *)
Definition bump_dps (self : OuroborosLab) (max_dps dps : Z) : Z :=
  Z.min max_dps (dps + precision_bump self).

(** [min(max_terms, terms * self.terms_growth)] *)
Definition grow_terms (self : OuroborosLab) (max_terms terms : Z) : Z :=
  Z.min max_terms (terms * terms_growth self).

(** "Decide next action: cola vs precision": the [dps] and [terms] after
    the two probes [r1] and [r2], the second one at [t2] terms. *)
Definition cola_vs_precision (self : OuroborosLab) (max_dps : Z)
    (r1 r2 : RunResult) (dps t2 : Z) : Z * Z :=
  let ratio := _improvement_ratio (rel_err r1) (rel_err r2) in
  match ratio with
  | Some q =>
      if geb q (cola_ratio_threshold self) then (dps, t2)
      else ((if dps <? max_dps then bump_dps self max_dps dps else dps), t2)
  | None => ((if dps <? max_dps then bump_dps self max_dps dps else dps), t2)
  end.

(** "Estancamiento": the lever switch at the end of the loop body. *)
Definition stagnation_switch (self : OuroborosLab) (max_dps max_terms : Z)
    (dps terms : Z) : flow :=
  if _stagnating self then
    if dps <? max_dps then Next (bump_dps self max_dps dps) terms
    else if terms <? max_terms then Next dps (grow_terms self max_terms terms)
    else Break STOPPED_CANNOT_GROW
  else Next dps terms.

Section Loop.
Variables (max_dps max_terms : Z) (stop_on : string) (extra : list string).

(** The body of [for step in range(max_steps)]. *)
Definition iteration (dps terms : Z) : M flow :=
  r1 <- _run_once (Build_RunConfig dps terms extra) ;;
  if stop_check stop_on (status r1) then ret (Break STOPPED_PASS)
  else
    self <- get_self ;;
    if match rel_err r1 with None => true | Some _ => false end
       || negb (returncode r1 =? 0)
    then ret (Next (bump_dps self max_dps dps) terms)
    else
      let t2 := grow_terms self max_terms terms in
      if t2 =? terms then ret (Next (bump_dps self max_dps dps) terms)
      else
        r2 <- _run_once (Build_RunConfig dps t2 extra) ;;
        if stop_check stop_on (status r2) then ret (Break STOPPED_PASS)
        else
          self <- get_self ;;
          let next := cola_vs_precision self max_dps r1 r2 dps t2 in
          ret (stagnation_switch self max_dps max_terms (fst next) (snd next)).

(** [steps] passes through the body, unless one of them breaks. *)
Fixpoint loop (steps : nat) (dps terms : Z) : M Stopped :=
  match steps with
  | O => ret STOPPED_BUDGET
  | S steps' =>
      f <- iteration dps terms ;;
      match f with
      | Break s => ret s
      | Next dps' terms' => loop steps' dps' terms'
      end
  end.
End Loop.

(** The ways through the loop body, with the runs each of them appends
    to the log: the first trial raises, passes, or has to be retried at a
    higher precision (no relative error, or a failed child); the terms
    cannot grow; the second probe raises, passes, or leads to the
    decision and the stagnation check; the first trial or the second
    probe hangs. *)
Inductive iteration_outcome (max_dps max_terms : Z) (stop_on : string)
    (extra : list string) (dps terms : Z) (st : OuroborosLab * World)
  : outcome flow -> OuroborosLab * World -> list RunResult -> Prop :=
| IT_raise1 e st1 :
    _run_once (Build_RunConfig dps terms extra) st = (Raise e, st1) ->
    iteration_outcome max_dps max_terms stop_on extra dps terms st
      (Raise e) st1 []
| IT_pass1 r1 st1 :
    _run_once (Build_RunConfig dps terms extra) st = (Return r1, st1) ->
    stop_check stop_on (status r1) = true ->
    iteration_outcome max_dps max_terms stop_on extra dps terms st
      (Return (Break STOPPED_PASS)) st1 [r1]
| IT_retry r1 st1 :
    _run_once (Build_RunConfig dps terms extra) st = (Return r1, st1) ->
    stop_check stop_on (status r1) = false ->
    rel_err r1 = None \/ returncode r1 <> 0 ->
    iteration_outcome max_dps max_terms stop_on extra dps terms st
      (Return (Next (bump_dps (fst st1) max_dps dps) terms)) st1 [r1]
| IT_ceiling r1 st1 e1 :
    _run_once (Build_RunConfig dps terms extra) st = (Return r1, st1) ->
    stop_check stop_on (status r1) = false ->
    rel_err r1 = Some e1 -> returncode r1 = 0 ->
    grow_terms (fst st1) max_terms terms = terms ->
    iteration_outcome max_dps max_terms stop_on extra dps terms st
      (Return (Next (bump_dps (fst st1) max_dps dps) terms)) st1 [r1]
| IT_raise2 r1 st1 e1 e st2 :
    _run_once (Build_RunConfig dps terms extra) st = (Return r1, st1) ->
    stop_check stop_on (status r1) = false ->
    rel_err r1 = Some e1 -> returncode r1 = 0 ->
    grow_terms (fst st1) max_terms terms <> terms ->
    _run_once (Build_RunConfig dps (grow_terms (fst st1) max_terms terms) extra)
              st1 = (Raise e, st2) ->
    iteration_outcome max_dps max_terms stop_on extra dps terms st
      (Raise e) st2 [r1]
| IT_pass2 r1 st1 e1 r2 st2 :
    _run_once (Build_RunConfig dps terms extra) st = (Return r1, st1) ->
    stop_check stop_on (status r1) = false ->
    rel_err r1 = Some e1 -> returncode r1 = 0 ->
    grow_terms (fst st1) max_terms terms <> terms ->
    _run_once (Build_RunConfig dps (grow_terms (fst st1) max_terms terms) extra)
              st1 = (Return r2, st2) ->
    stop_check stop_on (status r2) = true ->
    iteration_outcome max_dps max_terms stop_on extra dps terms st
      (Return (Break STOPPED_PASS)) st2 [r1; r2]
| IT_decide r1 st1 e1 r2 st2 :
    _run_once (Build_RunConfig dps terms extra) st = (Return r1, st1) ->
    stop_check stop_on (status r1) = false ->
    rel_err r1 = Some e1 -> returncode r1 = 0 ->
    grow_terms (fst st1) max_terms terms <> terms ->
    _run_once (Build_RunConfig dps (grow_terms (fst st1) max_terms terms) extra)
              st1 = (Return r2, st2) ->
    stop_check stop_on (status r2) = false ->
    iteration_outcome max_dps max_terms stop_on extra dps terms st
      (Return (stagnation_switch (fst st2) max_dps max_terms
                 (fst (cola_vs_precision (fst st2) max_dps r1 r2 dps
                         (grow_terms (fst st1) max_terms terms)))
                 (snd (cola_vs_precision (fst st2) max_dps r1 r2 dps
                         (grow_terms (fst st1) max_terms terms)))))
      st2 [r1; r2]
| IT_hang1 st1 :
    _run_once (Build_RunConfig dps terms extra) st = (Hang, st1) ->
    iteration_outcome max_dps max_terms stop_on extra dps terms st
      Hang st1 []
| IT_hang2 r1 st1 e1 st2 :
    _run_once (Build_RunConfig dps terms extra) st = (Return r1, st1) ->
    stop_check stop_on (status r1) = false ->
    rel_err r1 = Some e1 -> returncode r1 = 0 ->
    grow_terms (fst st1) max_terms terms <> terms ->
    _run_once (Build_RunConfig dps (grow_terms (fst st1) max_terms terms) extra)
              st1 = (Hang, st2) ->
    iteration_outcome max_dps max_terms stop_on extra dps terms st
      Hang st2 [r1].

(** The arguments of [run]. *)
Record RunArgs := {
  start_dps : Z;
  start_terms : Z;
  max_dps : Z;
  max_terms : Z;
  tol_label : string;
  stop_on : string;
  max_steps : Z;
  run_extra_args : option (list string)
}.

(** [run()] called without arguments. *)
Definition default_args : RunArgs :=
  {| start_dps := 80; start_terms := 5000; max_dps := 220;
     max_terms := 100000; tol_label := "1e-18"; stop_on := "PASS_STRICT";
     max_steps := 30; run_extra_args := None |}.

Definition with_max_steps (a : RunArgs) (n : Z) : RunArgs :=
  {| start_dps := start_dps a; start_terms := start_terms a;
     max_dps := max_dps a; max_terms := max_terms a;
     tol_label := tol_label a; stop_on := stop_on a;
     max_steps := n; run_extra_args := run_extra_args a |}.

Definition with_stop_on (a : RunArgs) (s : string) : RunArgs :=
  {| start_dps := start_dps a; start_terms := start_terms a;
     max_dps := max_dps a; max_terms := max_terms a;
     tol_label := tol_label a; stop_on := s;
     max_steps := max_steps a; run_extra_args := run_extra_args a |}.

(** [extra_args or ["--tol", tol_label]] *)
Definition forwarded_args (a : RunArgs) : list string :=
  match run_extra_args a with
  | Some (x :: l) => x :: l
  | _ => ["--tol"; tol_label a]
  end.

Definition is_strict (r : RunResult) : bool := (status r =? "PASS_STRICT")%string.
Definition is_pass (r : RunResult) : bool :=
  ((status r =? "PASS_STRICT")%string || (status r =? "PASS_GUERRILLA")%string).

(** The report built after the loop. *)
Definition build_report (self : OuroborosLab) (w : World) : LabReport :=
  let best_strict := _best_by self is_strict in
  let best_guerr := _best_by self is_pass in
  {| policy := [("PASS_STRICT", PASS_STRICT); ("PASS_GUERRILLA", PASS_GUERR);
                ("WARN", WARN_TOL)];
     env := w_env w;
     report_experiment_cmd := experiment_cmd self;
     experiment_script_hash := script_hash self;
     runs := _runs self;
     best := best_strict;
     best_guerrilla := best_guerr |}.

(** The loop of [run], with the way it was left. *)
Definition run_loop (a : RunArgs) : M Stopped :=
  loop (max_dps a) (max_terms a) (stop_on a) (forwarded_args a)
       (Z.to_nat (max_steps a)) (start_dps a) (start_terms a).

Definition run (a : RunArgs) : M LabReport :=
  run_loop a ;;;
  report <- (fun st => (Return (build_report (fst st) (snd st)), st)) ;;
  self <- get_self ;;
  json_dump report (out_json self) ;;;
  ret report.

(** ** Notions used by the statements *)

(** The order of the tiers, best first. *)
Definition tier_rank (status : string) : nat :=
  if (status =? "PASS_STRICT")%string then 0
  else if (status =? "PASS_GUERRILLA")%string then 1
  else if (status =? "WARN")%string then 2
  else 3.

Definition tiers : list string := ["PASS_STRICT"; "PASS_GUERRILLA"; "WARN"; "FAIL"].

(** The relative errors of the runs that have one, in the order of the
    log. *)
Definition parsed_errors (self : OuroborosLab) : list float :=
  flat_map (fun r => match rel_err r with Some e => [e] | None => [] end)
           (_runs self).

(** The last [n] elements of a list (all of them when it is shorter). *)
Definition lastn {A : Type} (n : nat) (l : list A) : list A :=
  skipn (List.length l - n) l.

(** Every two consecutive errors of [es]: the current one is positive and
    the quotient previous / current is below [thr]. *)
Definition slow_pairs_spec (thr : float) (es : list float) : Prop :=
  forall i p c,
    nth_error es i = Some p -> nth_error es (S i) = Some c ->
    gtb c zero = true /\ ltb (div p c) thr = true.

Fixpoint slow_pairs (thr : float) (es : list float) : bool :=
  match es with
  | p :: (c :: _) as tl => gtb c zero && ltb (div p c) thr && slow_pairs thr tl
  | _ => true
  end.

(** The part of [_stagnating] after the slice. *)
Definition stag_check (thr : float) (rs : list RunResult) : bool :=
  match rs with
  | [] => true
  | r :: rest =>
      match ratios_from r rest with
      | None => false
      | Some ratios => forallb (fun q => ltb q thr) ratios
      end
  end.

(** A recorded run with relative error [e] and cost [c], classified as
    [_run_once] does. *)
Definition trial (e : option float) (c : float) : RunResult :=
  {| config := Build_RunConfig 80 5000 []; time_s := c; rel_err := e;
     abs_err := None; status := fst (classify e); meaning := snd (classify e);
     Q_geo := None; Lprime1 := None; Omega_total := None; Regulator_R := None;
     cost := c; stdout_trunc := ""; returncode := 0 |}.

(** A lab with the defaults of [__init__] whose log holds one run for
    each of the given relative errors. *)
Definition lab_with_errors (es : list string) : OuroborosLab :=
  set_runs (new_lab "exp" None "report.json")
           (map (fun s => trial (Some (literal s)) (literal "1.0")) es).

(** Four errors, each 5% below the one before. *)
Definition four_fives : list string :=
  ["1e-5"; "9.5e-6"; "9.025e-6"; "8.57375e-6"].

(** An improvement by 50%, then three improvements by 5%. *)
Definition fifty_then_three_fives : list string :=
  ["2e-5"; "1e-5"; "9.5e-6"; "9.025e-6"; "8.57375e-6"].

(** An improvement by 50%, then two improvements by 5%. *)
Definition fifty_then_two_fives : list string :=
  ["2e-5"; "1e-5"; "9.5e-6"; "9.025e-6"].

(** What the report promises of a selection [sel] among the runs of
    [log] that satisfy [qual]: it is absent when no run qualifies;
    otherwise it is a qualifying run of the log, no qualifying run costs
    less, and no qualifying run before it in the log has the same cost. *)
Definition cheapest_first (qual : RunResult -> bool) (log : list RunResult)
    (sel : option RunResult) : Prop :=
  match sel with
  | None => forall r, In r log -> qual r = false
  | Some r =>
      exists before after,
        log = before ++ r :: after
        /\ qual r = true
        /\ (forall r', In r' log -> qual r' = true ->
              ltb (cost r') (cost r) = false
              /\ (is_nan (cost r) = false -> is_nan (cost r') = false ->
                  leb (cost r) (cost r') = true))
        /\ (forall r', In r' before -> qual r' = true ->
              eqb (cost r') (cost r) = false)
  end.

(** The text after its first [n] characters. *)
Fixpoint string_drop (n : nat) (s : string) : string :=
  match n, s with
  | O, _ => s
  | S n', String _ s' => string_drop n' s'
  | S _, EmptyString => EmptyString
  end.

Fixpoint all_chars (f : ascii -> bool) (s : string) : bool :=
  match s with
  | String c s' => f c && all_chars f s'
  | EmptyString => true
  end.

(** The first character of [s], if any, is not in the class [f]. *)
Definition stops (f : ascii -> bool) (s : string) : bool :=
  match s with
  | String c _ => negb (f c)
  | EmptyString => true
  end.

(** The pattern matches at position [i] of the text, with group [g]. *)
Definition matches_at (p : pattern) (text : string) (i : nat) (g : string) : Prop :=
  (i <= String.length text)%nat /\ match_here p (string_drop i text) = Some g.

(** [g] is the group of the leftmost match of the pattern in the text. *)
Definition first_match (p : pattern) (text : string) (g : string) : Prop :=
  exists i, matches_at p text i g
            /\ forall j g', (j < i)%nat -> ~ matches_at p text j g'.

(** [g] is the group of the rightmost match of the pattern in the text. *)
Definition last_match (p : pattern) (text : string) (g : string) : Prop :=
  exists i, matches_at p text i g
            /\ forall j g', (i < j)%nat -> ~ matches_at p text j g'.

(** No position after [i] has a match. *)
Definition no_match_after (p : pattern) (text : string) (i : nat) : bool :=
  forallb (fun j => match match_here p (string_drop j text) with
                    | Some _ => false
                    | None => true
                    end)
          (seq (S i) (String.length text - i)).

(** An output with an intermediate and a final value under one label. *)
Definition two_reports : string :=
  "rel_err = 1e-3" ++ nl ++ "rel_err = 1e-13".

(** The host behaves in [w'] as in [w], and holds the same files. *)
Definition same_host (w w' : World) : Prop :=
  w_proc w' = w_proc w /\ w_clock w' = w_clock w
  /\ w_writable w' = w_writable w /\ w_env w' = w_env w
  /\ w_files w' = w_files w.

(** A host whose child always prints [out], exits with [code] and takes
    one second on a clock that starts at 0. *)
Definition mock_world (out : string) (code : Z) : World :=
  {| w_proc := fun _ _ => Exits {| stdout := out; stderr := ""; p_returncode := code |};
     w_clock := fun k => match PyFloat.of_int (Z.of_nat k) with
                         | Some t => t
                         | None => zero
                         end;
     w_writable := fun _ => true;
     w_env := [];
     w_launched := [];
     w_ticks := 0;
     w_files := [] |}.

(** A fresh lab for the experiment command of the module docstring. *)
Definition fresh_lab : OuroborosLab :=
  new_lab "python3 OUROBOROS_BSD_37A1_EXPERIMENT.py" None "ouroboros_report.json".

(** The precision after a raise by the fixed step where there is
    headroom below the ceiling. *)
Definition raised_dps (self : OuroborosLab) (max_dps dps : Z) : Z :=
  if dps <? max_dps then Z.min max_dps (dps + precision_bump self) else dps.

(** An integer that converts to a float without rounding. *)
Definition float_exact (z : Z) : Prop := - 2 ^ 53 < z < 2 ^ 53.

(** Arguments and settings that keep every [dps] and [terms] of a run
    within the integers a float holds exactly: steps that do not shrink,
    and start values and ceilings in that range, with terms that are not
    negative. *)
Definition well_formed (self : OuroborosLab) (a : RunArgs) : Prop :=
  0 <= precision_bump self /\ 0 <= terms_growth self
  /\ float_exact (start_dps a) /\ float_exact (max_dps a)
  /\ 0 <= start_terms a < 2 ^ 53 /\ 0 <= max_terms a < 2 ^ 53.

(** Every child process runs to completion: it can be started, its
    output is decoded, and it exits. *)
Definition always_completes (w : World) : Prop :=
  forall k cmd, exists p, w_proc w k cmd = Exits p.

(** The run [x] records a child of the host [w]: its relative error is
    the one parsed from the output, its status the class of that error. *)
Definition from_child (w : World) (x : RunResult) : Prop :=
  status x = fst (classify (rel_err x))
  /\ exists k cmd p,
       w_proc w k cmd = Exits p
       /\ rel_err x = _parse_float RE_RELERR (output p)
       /\ returncode x = p_returncode p.

(** The run does not meet the stop condition. *)
Definition no_stop (stop_on : string) (x : RunResult) : Prop :=
  stop_check stop_on (status x) = false.

(** The pass through the loop body ended with the [break] of a passing
    trial. *)
Definition passes (o : outcome flow) : bool :=
  match o with
  | Return (Break STOPPED_PASS) => true
  | _ => false
  end.

(** The world after the report was written to [path]. *)
Definition with_file (w : World) (path : string) (report : LabReport) : World :=
  {| w_proc := w_proc w; w_clock := w_clock w; w_writable := w_writable w;
     w_env := w_env w; w_launched := w_launched w; w_ticks := w_ticks w;
     w_files := (path, report) :: w_files w |}.

(** A host whose [k]-th child prints the [k]-th text of [outs] (the empty
    text after the last) and exits with 0. *)
Definition mock_sequence (outs : list string) : World :=
  {| w_proc := fun k _ => Exits {| stdout := nth k outs ""; stderr := "";
                                 p_returncode := 0 |};
     w_clock := fun k => match PyFloat.of_int (Z.of_nat k) with
                         | Some t => t
                         | None => zero
                         end;
     w_writable := fun _ => true;
     w_env := [];
     w_launched := [];
     w_ticks := 0;
     w_files := [] |}.

(** The range that [dps] and [terms] stay in during a run. *)
Definition in_range (a : RunArgs) (dps terms : Z) : Prop :=
  Z.min (start_dps a) (max_dps a) <= dps <= Z.max (start_dps a) (max_dps a)
  /\ 0 <= terms <= Z.max (start_terms a) (max_terms a).

(** A host whose first child reports 1e-5 and whose later children cannot
    be started. *)
Definition second_launch_fails : World :=
  {| w_proc := fun k _ =>
       match k with
       | O => Exits {| stdout := "rel_err = 1e-5"; stderr := ""; p_returncode := 0 |}
       | S _ => Fails OSError
       end;
     w_clock := fun k => match PyFloat.of_int (Z.of_nat k) with
                         | Some t => t
                         | None => zero
                         end;
     w_writable := fun _ => true;
     w_env := [];
     w_launched := [];
     w_ticks := 0;
     w_files := [] |}.


(** The lab and the host after a first call of [run], with a budget of
    one step, against a child that always reports 1e-5. *)
Definition after_first_call : OuroborosLab * World :=
  snd (run (with_max_steps default_args 1)
         (fresh_lab, mock_world "rel_err = 1e-5" 0)).

(** The number of runs listed by the report of a run that returned. *)
Definition trials_recorded (o : outcome LabReport) : option nat :=
  match o with
  | Return report => Some (List.length (runs report))
  | _ => None
  end.

(** The run of the scenario "a child that always reports 1e-5": a fresh
    lab, the default arguments and a budget of five steps. *)
Definition never_improving : outcome LabReport * (OuroborosLab * World) :=
  run (with_max_steps default_args 5)
      (fresh_lab, mock_world ("rel_err = 1e-5" ++ nl) 0).

(** ** The command line

    [main] between [ap.parse_args()] and the summary it prints. *)

(** [file_sha256(path)]: no digest for an empty path or a missing file;
    [digest] gives the SHA-256 of the files that exist. *)
Definition file_sha256 (digest : string -> option string) (path : string)
  : option string :=
  if (path =? "")%string then None else digest path.

(** The namespace [args] that [ap.parse_args()] returns in [main]. *)
Record CliArgs := {
  cli_cmd : string;
  cli_hash_script : string;
  cli_out : string;
  cli_start_dps : Z;
  cli_start_terms : Z;
  cli_max_dps : Z;
  cli_max_terms : Z;
  cli_steps : Z;
  cli_stop_on : string;
  cli_tol : string;
  cli_extra : list string
}.

(** The lab that [main] builds: [script_path_for_hash] is
    [args.hash_script or None]. *)
Definition main_lab (digest : string -> option string) (c : CliArgs)
  : OuroborosLab :=
  new_lab (cli_cmd c)
    (if (cli_hash_script c =? "")%string then None
     else file_sha256 digest (cli_hash_script c))
    (cli_out c).

(** The arguments of the call [lab.run(...)] in [main], with
    [extra_args = ["--tol", args.tol] + args.extra]. *)
Definition main_run_args (c : CliArgs) : RunArgs :=
  {| start_dps := cli_start_dps c; start_terms := cli_start_terms c;
     max_dps := cli_max_dps c; max_terms := cli_max_terms c;
     tol_label := cli_tol c; stop_on := cli_stop_on c;
     max_steps := cli_steps c;
     run_extra_args := Some (["--tol"; cli_tol c] ++ cli_extra c) |}.

(** [best = report.best_guerrilla or report.best]: the run that the
    summary of [main] prints, [None] standing for "No PASS found". *)
Definition summary_choice (report : LabReport) : option RunResult :=
  match best_guerrilla report with
  | Some r => Some r
  | None => best report
  end.

(** ** Further notions used by the statements *)

(** A word of a command line: not empty, and without white space. *)
Definition is_word (s : string) : Prop :=
  s <> "" /\ all_chars (fun c => negb (PyStr.is_space c)) s = true.

(** Settings and arguments under which the search only climbs: a step
    of the precision that is not negative, a growth of the terms of at
    least 1, start values that are not above the ceilings, and start
    terms that are not negative. *)
Definition steady (self : OuroborosLab) (a : RunArgs) : Prop :=
  0 <= precision_bump self /\ 1 <= terms_growth self
  /\ start_dps a <= max_dps a /\ 0 <= start_terms a <= max_terms a.

(** The same for the precision [d] and the terms [t] a pass starts
    from. *)
Definition climbing (max_dps max_terms d t : Z) (self : OuroborosLab) : Prop :=
  0 <= precision_bump self /\ 1 <= terms_growth self
  /\ d <= max_dps /\ 0 <= t <= max_terms.

(** From the precision [d] and the terms [t] on, neither decreases along
    the configurations of the runs of [l]. *)
Fixpoint ascending (d t : Z) (l : list RunResult) : Prop :=
  match l with
  | [] => True
  | r :: l' =>
      d <= dps (config r) /\ t <= terms (config r)
      /\ ascending (dps (config r)) (terms (config r)) l'
  end.

(** No child of the host prints a relative error that can be read. *)
Definition never_parses (w : World) : Prop :=
  forall k cmd, exists p,
    w_proc w k cmd = Exits p /\ _parse_float RE_RELERR (output p) = None.

(** A run whose start values are above the ceilings. *)
Definition above_ceilings : RunArgs :=
  {| start_dps := 500; start_terms := 200000; max_dps := 220;
     max_terms := 100000; tol_label := "1e-18"; stop_on := "PASS_STRICT";
     max_steps := 1; run_extra_args := None |}.

(** A log with a strict pass and a cheaper guerrilla pass. *)
Definition cheap_guerrilla_log : list RunResult :=
  [trial (Some (literal "1e-13")) (literal "9.0");
   trial (Some (literal "1e-10")) (literal "1.0")].

(** * Properties *)

(** ** The model on small inputs *)

Example float_of_text :
  PyFloat.of_string "1e-12" = Some (S754_finite false 4951760157141521 (-92))
  /\ PyFloat.of_string "-1.5E+3" = Some (S754_finite true 6597069766656000 (-42))
  /\ PyFloat.of_string ".5" = Some (S754_finite false 4503599627370496 (-53))
  /\ PyFloat.of_string "-0" = Some (S754_zero true)
  /\ PyFloat.of_string "1e999" = Some (S754_infinity false)
  /\ PyFloat.of_string "-" = None
  /\ PyFloat.of_string "1e" = None
  /\ PyFloat.of_string "1.2.3" = None.
Proof. repeat split; vm_compute; reflexivity. Qed.

Example one_plus_tenth : add (literal "1.0") (literal "0.10") = literal "1.1".
Proof. vm_compute. reflexivity. Qed.

Example int_to_float :
  PyFloat.of_int 80 = Some (literal "80.0")
  /\ PyFloat.of_int (2 ^ 53 + 1) = Some (literal "9007199254740992")
  /\ PyFloat.of_int (2 ^ 1024) = None.
Proof. repeat split; vm_compute; reflexivity. Qed.

Example text_methods :
  PyStr.split "  python3   exp.py " = ["python3"; "exp.py"]
  /\ PyStr.strip "  python3 exp.py " = "python3 exp.py"
  /\ PyStr.of_int (-40) = "-40"
  /\ PyStr.slice_to "abcdef" 4 = "abcd"
  /\ PyStr.slice_to "abcdef" (-1) = "abcde".
Proof. repeat split; vm_compute; reflexivity. Qed.

(** The greedy [.*] of the Q_geo pattern runs to the end of the line and
    comes back to the last [=] that a number follows. *)
Example search_backtracks :
  search RE_QGEO ("Q_geo (x=3) = 4.5 = 7" ++ nl ++ "rel_err = 1") = Some "7"
  /\ search RE_QGEO "Q_geo (x=3) = 4.5 = a" = Some "4.5"
  /\ search RE_RELERR "rel_err  =  1.5e-3.4x" = Some "1.5e-3.4"
  /\ _parse_float RE_RELERR "rel_err  =  1.5e-3.4x" = None
  /\ _parse_float RE_RELERR "no label" = None.
Proof. repeat split; vm_compute; reflexivity. Qed.

Example build_cmd_default :
  _build_cmd fresh_lab (Build_RunConfig 80 5000 ["--tol"; "1e-18"])
  = ["python3"; "OUROBOROS_BSD_37A1_EXPERIMENT.py"; "--dps"; "80";
     "--terms"; "5000"; "--tol"; "1e-18"].
Proof. vm_compute. reflexivity. Qed.

(** The configurations tried against a child that always reports 1e-5,
    from the defaults and with a budget of five steps. *)
Example never_improving_configurations :
  match fst never_improving with
  | Return report =>
      map (fun r => (dps (config r), terms (config r), status r)) (runs report)
  | _ => []
  end
  = [(80, 5000, "FAIL"); (80, 10000, "FAIL"); (120, 10000, "FAIL");
     (120, 20000, "FAIL"); (200, 20000, "FAIL"); (200, 40000, "FAIL");
     (220, 80000, "FAIL"); (220, 100000, "FAIL")].
Proof. vm_compute. reflexivity. Qed.

(** A second child that cannot be started: the exception leaves [run],
    one trial is in the log and no report is written. *)
Example second_launch_fails_run :
  let r := run default_args (fresh_lab, second_launch_fails) in
  fst r = Raise OSError
  /\ List.length (_runs (fst (snd r))) = 1%nat
  /\ w_files (snd (snd r)) = [].
Proof. repeat split; vm_compute; reflexivity. Qed.

(** ** The order of floats *)

Ltac float_cases :=
  repeat match goal with
  | x : float |- _ => destruct x as [[]|[]| |[] ? ?]
  | x : spec_float |- _ => destruct x as [[]|[]| |[] ? ?]
  end.

Ltac fold_pos_compare :=
  repeat match goal with
  | |- context [PosDef.Pos.compare_cont Eq ?a ?b] =>
      change (PosDef.Pos.compare_cont Eq a b) with (Pos.compare a b)
  | H : context [PosDef.Pos.compare_cont Eq ?a ?b] |- _ =>
      change (PosDef.Pos.compare_cont Eq a b) with (Pos.compare a b) in H
  end.

Ltac order_cases :=
  repeat match goal with
  | |- context [Z.compare ?a ?b] => destruct (Z.compare_spec a b)
  | H : context [Z.compare ?a ?b] |- _ => destruct (Z.compare_spec a b)
  | |- context [Pos.compare ?a ?b] => destruct (Pos.compare_spec a b)
  | H : context [Pos.compare ?a ?b] |- _ => destruct (Pos.compare_spec a b)
  end.

Ltac order_solve :=
  float_cases; cbn; fold_pos_compare; intros;
  repeat match goal with H : Some _ = Some _ |- _ => inversion H; clear H end;
  try discriminate; try reflexivity;
  order_cases; simpl in *; subst; try discriminate; try reflexivity; try lia.

Section FloatOrder.

Lemma SFcompare_antisym x y c :
  SFcompare x y = Some c -> SFcompare y x = Some (CompOpp c).
Proof. order_solve. Qed.

Lemma SFcompare_lt_trans x y z :
  SFcompare x y = Some Lt -> SFcompare y z = Some Lt -> SFcompare x z = Some Lt.
Proof. order_solve. Qed.

Lemma SFcompare_eq_l x y z c :
  SFcompare x y = Some Eq -> SFcompare y z = Some c -> SFcompare x z = Some c.
Proof. order_solve. Qed.

Lemma SFcompare_eq_r x y z c :
  SFcompare x y = Some c -> SFcompare y z = Some Eq -> SFcompare x z = Some c.
Proof. order_solve. Qed.

Lemma SFcompare_nan_l x : SFcompare S754_nan x = None.
Proof. reflexivity. Qed.

Lemma SFcompare_nan_r x : SFcompare x S754_nan = None.
Proof. destruct x; reflexivity. Qed.

Lemma SFcompare_some x y :
  is_nan x = false -> is_nan y = false -> exists c, SFcompare x y = Some c.
Proof. float_cases; cbn; intros; try discriminate; eauto. Qed.

Lemma ltb_compare x y : ltb x y = true <-> SFcompare x y = Some Lt.
Proof.
  unfold ltb, SFltb. destruct (SFcompare x y) as [[]|];
    split; intros; congruence.
Qed.

Lemma leb_compare x y :
  leb x y = true <-> SFcompare x y = Some Lt \/ SFcompare x y = Some Eq.
Proof.
  unfold leb, SFleb. destruct (SFcompare x y) as [[]|];
    split; intros; try congruence; auto; destruct H; congruence.
Qed.

Lemma eqb_compare x y : eqb x y = true <-> SFcompare x y = Some Eq.
Proof.
  unfold eqb, SFeqb. destruct (SFcompare x y) as [[]|];
    split; intros; congruence.
Qed.

Lemma ltb_leb x y : ltb x y = true -> leb x y = true.
Proof. rewrite ltb_compare, leb_compare. auto. Qed.

Lemma eqb_leb x y : eqb x y = true -> leb x y = true.
Proof. rewrite eqb_compare, leb_compare. auto. Qed.

Lemma ltb_trans x y z : ltb x y = true -> ltb y z = true -> ltb x z = true.
Proof. rewrite !ltb_compare. apply SFcompare_lt_trans. Qed.

Lemma leb_ltb_trans x y z : leb x y = true -> ltb y z = true -> ltb x z = true.
Proof.
  rewrite leb_compare, !ltb_compare. intros [H | H] Hyz.
  - eapply SFcompare_lt_trans; eassumption.
  - eapply SFcompare_eq_l; eassumption.
Qed.

Lemma ltb_leb_trans x y z : ltb x y = true -> leb y z = true -> ltb x z = true.
Proof.
  rewrite leb_compare, !ltb_compare. intros Hxy [H | H].
  - eapply SFcompare_lt_trans; eassumption.
  - eapply SFcompare_eq_r; eassumption.
Qed.

Lemma leb_trans x y z : leb x y = true -> leb y z = true -> leb x z = true.
Proof.
  intros Hxy Hyz. apply leb_compare in Hyz. destruct Hyz as [H | H].
  - apply ltb_leb. eapply leb_ltb_trans; [eassumption|]. now apply ltb_compare.
  - apply leb_compare in Hxy. apply leb_compare.
    destruct Hxy as [H' | H']; [left | right]; eapply SFcompare_eq_r; eassumption.
Qed.

(** [x < y] and [y <= x] exclude each other. *)
Lemma leb_not_ltb x y : leb y x = true -> ltb x y = false.
Proof.
  rewrite leb_compare. intros H.
  destruct (ltb x y) eqn:E; [|reflexivity].
  apply ltb_compare, SFcompare_antisym in E. simpl in E.
  destruct H; congruence.
Qed.

Lemma ltb_not_leb x y : ltb x y = true -> leb y x = false.
Proof.
  intros H. destruct (leb y x) eqn:E; [|reflexivity].
  apply leb_not_ltb in E. congruence.
Qed.

(** On numbers, one of [x < y] and [y <= x] holds. *)
Lemma not_ltb_leb x y :
  is_nan x = false -> is_nan y = false -> ltb x y = false -> leb y x = true.
Proof.
  intros Hx Hy H. destruct (SFcompare_some x y Hx Hy) as [c Hc].
  apply SFcompare_antisym in Hc as Hc'.
  unfold ltb, SFltb in H. rewrite Hc in H.
  apply leb_compare. destruct c; simpl in Hc'; auto; discriminate.
Qed.

Lemma ltb_not_nan x y : ltb x y = true -> is_nan x = false /\ is_nan y = false.
Proof. float_cases; cbn; intros; try discriminate; auto. Qed.

Lemma leb_not_nan x y : leb x y = true -> is_nan x = false /\ is_nan y = false.
Proof. float_cases; cbn; intros; try discriminate; auto. Qed.

Lemma eqb_not_ltb x y : eqb x y = true -> ltb x y = false.
Proof.
  rewrite eqb_compare. unfold ltb, SFltb. intros ->. reflexivity.
Qed.

Lemma eqb_ltb_trans x y z : eqb x y = true -> ltb y z = true -> ltb x z = true.
Proof. intros H. apply leb_ltb_trans. now apply eqb_leb. Qed.

End FloatOrder.

(** ** The classifier *)

Lemma classify_some_status e :
  fst (classify (Some e)) =
    if ltb e PASS_STRICT then "PASS_STRICT"
    else if ltb e PASS_GUERR then "PASS_GUERRILLA"
    else if ltb e WARN_TOL then "WARN" else "FAIL".
Proof.
  unfold classify.
  destruct (ltb e PASS_STRICT), (ltb e PASS_GUERR), (ltb e WARN_TOL); reflexivity.
Qed.

Lemma thresholds_increase :
  ltb PASS_STRICT PASS_GUERR = true /\ ltb PASS_GUERR WARN_TOL = true.
Proof. split; reflexivity. Qed.

Lemma classify_in_tiers r : In (fst (classify r)) tiers.
Proof.
  destruct r as [e|]; [rewrite classify_some_status|]; unfold tiers; simpl.
  - destruct (ltb e PASS_STRICT), (ltb e PASS_GUERR), (ltb e WARN_TOL); auto 6.
  - auto 6.
Qed.

Lemma classify_monotone x y :
  leb x y = true ->
  (tier_rank (fst (classify (Some x))) <= tier_rank (fst (classify (Some y))))%nat.
Proof.
  intros Hxy. rewrite !classify_some_status.
  destruct (ltb y PASS_STRICT) eqn:Y1.
  { rewrite (leb_ltb_trans _ _ _ Hxy Y1). apply Nat.le_refl. }
  destruct (ltb y PASS_GUERR) eqn:Y2.
  { pose proof (leb_ltb_trans _ _ _ Hxy Y2) as X2. rewrite X2.
    destruct (ltb x PASS_STRICT); cbn; lia. }
  destruct (ltb y WARN_TOL) eqn:Y3.
  { pose proof (leb_ltb_trans _ _ _ Hxy Y3) as X3. rewrite X3.
    destruct (ltb x PASS_STRICT), (ltb x PASS_GUERR); cbn; lia. }
  destruct (ltb x PASS_STRICT), (ltb x PASS_GUERR), (ltb x WARN_TOL); cbn; lia.
Qed.

(** C1. [classify] returns one of the four tiers; the thresholds are the
    floats 1e-12, 1e-9 and 1e-7, each the lower end of the next tier:
    below 1e-12 is PASS_STRICT, from 1e-12 up to 1e-9 PASS_GUERRILLA,
    from 1e-9 up to 1e-7 WARN, from 1e-7 on FAIL; an absent relative
    error is FAIL with a message no number gets; and a smaller relative
    error never gets a worse tier than a larger one. *)
Theorem classify_tiers :
  (PASS_STRICT = literal "1e-12" /\ PASS_GUERR = literal "1e-9"
   /\ WARN_TOL = literal "1e-7")
  /\ (forall r, In (fst (classify r)) tiers)
  /\ (forall e, ltb e PASS_STRICT = true ->
                fst (classify (Some e)) = "PASS_STRICT")
  /\ (forall e, leb PASS_STRICT e = true -> ltb e PASS_GUERR = true ->
                fst (classify (Some e)) = "PASS_GUERRILLA")
  /\ (forall e, leb PASS_GUERR e = true -> ltb e WARN_TOL = true ->
                fst (classify (Some e)) = "WARN")
  /\ (forall e, geb e WARN_TOL = true -> fst (classify (Some e)) = "FAIL")
  /\ (fst (classify None) = "FAIL"
      /\ forall e, snd (classify (Some e)) <> snd (classify None))
  /\ (forall x y, leb x y = true ->
        (tier_rank (fst (classify (Some x)))
         <= tier_rank (fst (classify (Some y))))%nat).
Proof.
  destruct thresholds_increase as [T12 T23].
  split; [repeat split; vm_compute; reflexivity|].
  split; [exact classify_in_tiers|].
  split; [intros e H; rewrite classify_some_status, H; reflexivity|].
  split.
  { intros e H1 H2. rewrite classify_some_status, H2.
    rewrite (leb_not_ltb _ _ H1). reflexivity. }
  split.
  { intros e H1 H2. rewrite classify_some_status, H2.
    rewrite (leb_not_ltb _ _ H1).
    rewrite (leb_not_ltb e PASS_STRICT); [reflexivity|].
    eapply leb_trans; [apply ltb_leb, T12 | exact H1]. }
  split.
  { intros e H. unfold geb in H. rewrite classify_some_status.
    rewrite (leb_not_ltb _ _ H).
    assert (H2 : leb PASS_GUERR e = true)
      by (eapply leb_trans; [apply ltb_leb, T23 | exact H]).
    rewrite (leb_not_ltb _ _ H2).
    rewrite (leb_not_ltb e PASS_STRICT); [reflexivity|].
    eapply leb_trans; [apply ltb_leb, T12 | exact H2]. }
  split.
  { split; [reflexivity|].
    intros e. unfold classify.
    destruct (ltb e PASS_STRICT), (ltb e PASS_GUERR), (ltb e WARN_TOL);
      cbn; discriminate. }
  exact classify_monotone.
Qed.

(** The float 1e-13 is a strict pass, through [classify_tiers]. *)
Lemma classify_tiers_witness :
  ltb (literal "1e-13") PASS_STRICT = true
  /\ fst (classify (Some (literal "1e-13"))) = "PASS_STRICT".
Proof.
  split; [reflexivity|].
  apply (proj1 (proj2 (proj2 classify_tiers)) (literal "1e-13")).
  reflexivity.
Defined.

(** ** The stagnation detector *)

Lemma div_nan_r x : div x S754_nan = S754_nan.
Proof. destruct x; reflexivity. Qed.

(** The guard [curr <= 0] of the loop and the test on the ratio together
    say that the current error is positive: the ratio of a NaN is a NaN,
    which is below nothing. *)
Lemma positive_guard p c thr :
  negb (leb c zero) && ltb (div p c) thr = gtb c zero && ltb (div p c) thr.
Proof.
  destruct (is_nan c) eqn:N.
  - destruct c; try discriminate. rewrite div_nan_r. reflexivity.
  - unfold gtb. fold (ltb zero c). destruct (leb c zero) eqn:L; simpl.
    + now rewrite (leb_not_ltb _ _ L).
    + destruct (ltb zero c) eqn:G; [reflexivity|].
      apply not_ltb_leb in G; [congruence| reflexivity | exact N].
Qed.

Lemma stag_check_slow thr rs es :
  map rel_err rs = map Some es -> stag_check thr rs = slow_pairs thr es.
Proof.
  revert es. induction rs as [|r rs IH]; intros [|p es] H; try discriminate.
  - reflexivity.
  - simpl in H. injection H as Hr Hrs.
    destruct rs as [|r' rs']; destruct es as [|c es']; try discriminate.
    + reflexivity.
    + specialize (IH (c :: es') Hrs).
      simpl in Hrs. injection Hrs as Hr' _.
      unfold stag_check in *. simpl ratios_from. rewrite Hr, Hr'.
      change (slow_pairs thr (p :: c :: es'))
        with (gtb c zero && ltb (div p c) thr && slow_pairs thr (c :: es')).
      rewrite <- positive_guard, <- IH.
      destruct (leb c zero); [reflexivity|].
      destruct (ratios_from r' rs'); simpl; [reflexivity|].
      now rewrite andb_false_r.
Qed.

Lemma slow_pairs_iff thr es : slow_pairs thr es = true <-> slow_pairs_spec thr es.
Proof.
  induction es as [|p es IH].
  - split; [|reflexivity]. intros _ [|i] p c H; discriminate.
  - destruct es as [|c es'].
    + split; [|reflexivity]. intros _ [|[|i]] p' c' H1 H2; discriminate.
    + change (slow_pairs thr (p :: c :: es'))
        with (gtb c zero && ltb (div p c) thr && slow_pairs thr (c :: es')).
      rewrite !andb_true_iff, IH. split.
      * intros [[Hc Hr] Hrest] [|i] p' c' H1 H2.
        -- simpl in H1, H2. injection H1 as <-. injection H2 as <-. auto.
        -- apply (Hrest i); assumption.
      * intros H. split.
        -- destruct (H 0%nat p c eq_refl eq_refl). auto.
        -- intros i p' c' H1 H2. apply (H (S i)); assumption.
Qed.

Lemma parsed_runs_errors self :
  map rel_err (parsed_runs self) = map Some (parsed_errors self).
Proof.
  unfold parsed_runs, parsed_errors.
  induction (_runs self) as [|r rs IH]; [reflexivity|].
  simpl. destruct (rel_err r) eqn:E; simpl; [rewrite E|]; now rewrite IH.
Qed.

Lemma slice_from_last {A} (l : list A) (n : Z) :
  0 < n -> slice_from l (- n) = lastn (Z.to_nat n) l.
Proof.
  intros Hn. unfold slice_from, lastn.
  destruct (Z.ltb_spec (- n) 0); [|lia]. f_equal. lia.
Qed.

Lemma map_lastn {A B} (f : A -> B) n l : map f (lastn n l) = lastn n (map f l).
Proof. unfold lastn. now rewrite length_map, skipn_map. Qed.

Lemma map_Some_inj {A} (l l' : list A) : map Some l = map Some l' -> l = l'.
Proof.
  revert l'. induction l as [|a l IH]; intros [|b l'] H; try discriminate.
  - reflexivity.
  - simpl in H. injection H as -> H. f_equal. auto.
Qed.

Lemma stagnating_spec self :
  0 <= stagnation_window self ->
  _stagnating self = true <->
    (stagnation_window self + 1 <= Z.of_nat (List.length (parsed_errors self))
     /\ slow_pairs_spec
          (add (literal "1.0") (stagnation_improve_min self))
          (lastn (Z.to_nat (stagnation_window self + 1)) (parsed_errors self))).
Proof.
  intros Hw. unfold _stagnating.
  pose proof (parsed_runs_errors self) as Hmap.
  assert (Hlen : List.length (parsed_runs self) = List.length (parsed_errors self)).
  { rewrite <- (length_map rel_err), Hmap. apply length_map. }
  rewrite Hlen.
  destruct (Z.ltb_spec (Z.of_nat (List.length (parsed_errors self)))
                       (stagnation_window self + 1)) as [Hlt | Hge].
  { split; [discriminate | intros [H _]; lia]. }
  rewrite slice_from_last by lia.
  rewrite <- slow_pairs_iff.
  rewrite <- (stag_check_slow _ (lastn (Z.to_nat (stagnation_window self + 1))
                                     (parsed_runs self))).
  2:{ now rewrite map_lastn, Hmap, <- map_lastn. }
  unfold stag_check. split; [intros H; split; [lia | exact H] | intros [_ H]; exact H].
Qed.

(** C3, as the code has it.  [_stagnating] is true exactly when at least
    [window + 1] runs have a parsed relative error and, among the last
    [window + 1] of these, every error after the first is positive and
    improves on the one before by a ratio below [1 + min_improve]; the
    defaults are [window = 3] and [min_improve = 0.10].  On four errors
    each 5% below the one before it is true.  On an improvement by 50%
    followed by three improvements by 5% it is true as well: the last four
    errors hold the three small improvements only.  It is false when the
    50% improvement is one of the last three. *)
Theorem stagnating_last_window (self : OuroborosLab) :
  0 <= stagnation_window self ->
  (_stagnating self = true <->
     (stagnation_window self + 1 <= Z.of_nat (List.length (parsed_errors self))
      /\ slow_pairs_spec
           (add (literal "1.0") (stagnation_improve_min self))
           (lastn (Z.to_nat (stagnation_window self + 1)) (parsed_errors self))))
  /\ (forall cmd hash out,
        stagnation_window (new_lab cmd hash out) = 3
        /\ stagnation_improve_min (new_lab cmd hash out) = literal "0.10")
  /\ _stagnating (lab_with_errors four_fives) = true
  /\ _stagnating (lab_with_errors fifty_then_three_fives) = true
  /\ _stagnating (lab_with_errors fifty_then_two_fives) = false.
Proof.
  intros Hw. split; [now apply stagnating_spec|].
  split; [intros; split; reflexivity|].
  repeat split; vm_compute; reflexivity.
Qed.

(** [stagnating_last_window] on the log of four errors 5% apart. *)
Lemma stagnating_last_window_witness :
  0 <= stagnation_window (lab_with_errors four_fives)
  /\ slow_pairs_spec (add (literal "1.0") (literal "0.10"))
       (map literal four_fives).
Proof.
  assert (H : 0 <= stagnation_window (lab_with_errors four_fives))
    by (vm_compute; discriminate).
  split; [exact H|].
  destruct (stagnating_last_window (lab_with_errors four_fives) H)
    as [Hiff [_ [Hfour _]]].
  exact (proj2 (proj1 Hiff Hfour)).
Defined.

(** C3, as stated, fails: on an improvement by 50% followed by three
    improvements by 5% the detector does not return false. *)
Lemma stagnating_fifty_then_fives_counterexample :
  ~ (_stagnating (lab_with_errors four_fives) = true
     /\ _stagnating (lab_with_errors fifty_then_three_fives) = false).
Proof. intros [_ H]. vm_compute in H. discriminate. Qed.

(** ** The minimum-cost selection *)

Lemma ltb_irrefl x : ltb x x = false.
Proof.
  destruct (ltb x x) eqn:E; [|reflexivity].
  pose proof (leb_not_ltb _ _ (ltb_leb _ _ E)) as E'. congruence.
Qed.

Lemma min_by_cost_snoc cur l x :
  min_by_cost cur (l ++ [x]) =
    let b := min_by_cost cur l in if ltb (cost x) (cost b) then x else b.
Proof.
  revert cur. induction l as [|y l IH]; intros cur; simpl; [reflexivity|].
  apply IH.
Qed.

(** The invariant of [min]: the current choice is in the part of the list
    already seen, nothing there costs less, and nothing before the choice
    costs the same. *)
Lemma min_by_cost_spec cur l :
  exists before after,
    cur :: l = before ++ min_by_cost cur l :: after
    /\ (forall r', In r' (cur :: l) ->
          ltb (cost r') (cost (min_by_cost cur l)) = false)
    /\ (forall r', In r' before ->
          eqb (cost r') (cost (min_by_cost cur l)) = false).
Proof.
  induction l as [|x l IH] using rev_ind.
  - exists [], []. simpl. split; [reflexivity|]. split.
    + intros r' [<- | []]. apply ltb_irrefl.
    + intros r' [].
  - destruct IH as (before & after & Hsplit & Hmin & Htie).
    rewrite min_by_cost_snoc. cbv zeta.
    set (b := min_by_cost cur l) in *.
    destruct (ltb (cost x) (cost b)) eqn:Hx.
    + exists (cur :: l), []. split; [reflexivity|]. split.
      * intros r' Hin. change (In r' ((cur :: l) ++ [x])) in Hin.
        apply in_app_or in Hin. destruct Hin as [Hin | [<- | []]].
        -- destruct (ltb (cost r') (cost x)) eqn:E; [|reflexivity].
           rewrite <- (Hmin r' Hin). symmetry.
           eapply ltb_trans; eassumption.
        -- apply ltb_irrefl.
      * intros r' Hin.
        destruct (eqb (cost r') (cost x)) eqn:E; [|reflexivity].
        rewrite <- (Hmin r' Hin). symmetry.
        eapply eqb_ltb_trans; eassumption.
    + exists before, (after ++ [x]). split.
      * change (cur :: l ++ [x]) with ((cur :: l) ++ [x]).
        rewrite Hsplit, <- app_assoc. reflexivity.
      * split; [|exact Htie].
        intros r' Hin. change (In r' ((cur :: l) ++ [x])) in Hin.
        apply in_app_or in Hin. destruct Hin as [Hin | [<- | []]]; auto.
Qed.

Lemma filter_split {A} (f : A -> bool) l a rest :
  filter f l = a :: rest ->
  exists l1 l2, l = l1 ++ a :: l2 /\ (forall x, In x l1 -> f x = false)
                /\ filter f l2 = rest /\ f a = true.
Proof.
  induction l as [|x l IH]; simpl; [discriminate|].
  destruct (f x) eqn:E.
  - intros H. injection H as -> <-. exists [], l. simpl. repeat split; auto.
    intros ? [].
  - intros H. destruct (IH H) as (l1 & l2 & -> & Hl1 & Hl2 & Ha).
    exists (x :: l1), l2. repeat split; auto.
    intros y [<- | Hy]; auto.
Qed.

Lemma filter_app_mid {A} (f : A -> bool) l before r after :
  filter f l = before ++ r :: after ->
  exists l1 l2, l = l1 ++ r :: l2 /\ filter f l1 = before /\ filter f l2 = after.
Proof.
  revert l. induction before as [|b before IH]; intros l H.
  - apply filter_split in H. destruct H as (l1 & l2 & -> & Hl1 & Hl2 & _).
    exists l1, l2. repeat split; auto.
    clear - Hl1. induction l1 as [|x l1 IH]; [reflexivity|].
    simpl. rewrite (Hl1 x (or_introl eq_refl)). apply IH.
    intros y Hy. apply Hl1. now right.
  - simpl in H. apply filter_split in H.
    destruct H as (l1 & l2 & -> & Hl1 & Hl2 & Hb).
    destruct (IH _ Hl2) as (m1 & m2 & -> & Hm1 & Hm2).
    exists (l1 ++ b :: m1), m2. split; [now rewrite <- app_assoc|].
    split; [|exact Hm2].
    rewrite filter_app. simpl. rewrite Hb, Hm1.
    replace (filter f l1) with (@nil A); [reflexivity|].
    clear - Hl1. induction l1 as [|x l1 IH]; [reflexivity|].
    simpl. rewrite (Hl1 x (or_introl eq_refl)). apply IH.
    intros y Hy. apply Hl1. now right.
Qed.

Lemma best_by_cheapest_first self qual :
  cheapest_first qual (_runs self) (_best_by self qual).
Proof.
  unfold _best_by, cheapest_first.
  destruct (filter qual (_runs self)) as [|c cands] eqn:Hf.
  - intros r Hin. destruct (qual r) eqn:E; [|reflexivity].
    assert (In r (filter qual (_runs self))) by (apply filter_In; auto).
    rewrite Hf in H. destruct H.
  - destruct (min_by_cost_spec c cands) as (before & after & Hsplit & Hmin & Htie).
    set (b := min_by_cost c cands) in *.
    rewrite <- Hf in Hsplit.
    destruct (filter_app_mid _ _ _ _ _ Hsplit) as (l1 & l2 & Hl & Hb & Ha).
    assert (Hinb : In b (filter qual (_runs self)))
      by (rewrite Hsplit; apply in_elt).
    apply filter_In in Hinb. destruct Hinb as [_ Hqb].
    exists l1, l2. split; [exact Hl|]. split; [exact Hqb|]. split.
    + intros r' Hin Hq.
      assert (Hin' : In r' (c :: cands))
        by (rewrite <- Hf; apply filter_In; auto).
      split; [auto|]. intros Nb Nr. apply not_ltb_leb; auto.
    + intros r' Hin Hq. apply Htie. rewrite <- Hb. apply filter_In. auto.
Qed.

(** C5. In the report of any log, the best-strict selection is a
    PASS_STRICT run, no PASS_STRICT run costs less and none before it
    costs the same; the best-guerrilla selection is so among the runs of
    status PASS_STRICT or PASS_GUERRILLA; each is absent exactly when no
    run has such a status. *)
Theorem report_best_is_cheapest_earliest (self : OuroborosLab) (w : World) :
  let report := build_report self w in
  let strict r := status r = "PASS_STRICT" in
  let pass r := status r = "PASS_STRICT" \/ status r = "PASS_GUERRILLA" in
  runs report = _runs self
  /\ (forall r, is_strict r = true <-> strict r)
  /\ (forall r, is_pass r = true <-> pass r)
  /\ cheapest_first is_strict (runs report) (best report)
  /\ cheapest_first is_pass (runs report) (best_guerrilla report)
  /\ (best report = None <-> forall r, In r (runs report) -> ~ strict r)
  /\ (best_guerrilla report = None <-> forall r, In r (runs report) -> ~ pass r).
Proof.
  cbv zeta.
  assert (Hs : forall r, is_strict r = true <-> status r = "PASS_STRICT").
  { intros r. unfold is_strict. apply String.eqb_eq. }
  assert (Hp : forall r, is_pass r = true <->
                 status r = "PASS_STRICT" \/ status r = "PASS_GUERRILLA").
  { intros r. unfold is_pass. rewrite orb_true_iff, !String.eqb_eq. tauto. }
  assert (Hnone : forall qual,
            _best_by self qual = None <->
            forall r, In r (_runs self) -> qual r <> true).
  { intros qual. pose proof (best_by_cheapest_first self qual) as H.
    destruct (_best_by self qual) as [b|]; simpl in H.
    - split; [discriminate|]. intros Hall.
      destruct H as (before & after & Hl & Hq & _).
      exfalso. apply (Hall b); [rewrite Hl; apply in_elt | exact Hq].
    - split; [|reflexivity]. intros _ r Hin. rewrite (H r Hin). discriminate. }
  split; [reflexivity|]. split; [exact Hs|]. split; [exact Hp|].
  split; [apply best_by_cheapest_first|].
  split; [apply best_by_cheapest_first|].
  simpl. split.
  - rewrite Hnone. split; intros H r Hin Hr; apply (H r Hin); now apply Hs.
  - rewrite Hnone. split; intros H r Hin Hr; apply (H r Hin); now apply Hp.
Qed.

(** ** The result extractor *)

Lemma matches_at_tail p c text j g :
  matches_at p (String c text) (S j) g <-> matches_at p text j g.
Proof. unfold matches_at. simpl. split; intros [H1 H2]; split; auto; lia. Qed.

Lemma matches_at_zero p text g :
  matches_at p text 0 g <-> match_here p text = Some g.
Proof. unfold matches_at. simpl. split; [intros [_ H]; exact H|]. split; [lia | assumption]. Qed.

Lemma search_first_match p text g :
  first_match p text g -> search p text = Some g.
Proof.
  induction text as [|c text IH]; intros (i & Hi & Hfirst).
  - destruct i as [|i]; [|destruct Hi; simpl in *; lia].
    apply matches_at_zero in Hi. simpl in *. now rewrite Hi.
  - simpl. destruct (match_here p (String c text)) as [g0|] eqn:E.
    + destruct i as [|i].
      * apply matches_at_zero in Hi. congruence.
      * exfalso. apply (Hfirst 0%nat g0); [lia|]. now apply matches_at_zero.
    + destruct i as [|i].
      * apply matches_at_zero in Hi. congruence.
      * apply IH. exists i. split; [now apply matches_at_tail in Hi|].
        intros j g' Hj Hm. apply (Hfirst (S j) g'); [lia|].
        now apply matches_at_tail.
Qed.

Lemma search_none p text :
  (forall i g, ~ matches_at p text i g) -> search p text = None.
Proof.
  induction text as [|c text IH]; intros Hno.
  - simpl. destruct (match_here p "") as [g|] eqn:E; [|reflexivity].
    exfalso. apply (Hno 0%nat g). now apply matches_at_zero.
  - simpl. destruct (match_here p (String c text)) as [g|] eqn:E.
    + exfalso. apply (Hno 0%nat g). now apply matches_at_zero.
    + apply IH. intros i g Hm. apply (Hno (S i) g). now apply matches_at_tail.
Qed.

Lemma search_some_first p text g :
  search p text = Some g -> first_match p text g.
Proof.
  induction text as [|c text IH]; simpl.
  - destruct (match_here p "") as [g0|] eqn:E; [|discriminate].
    intros H. injection H as <-. exists 0%nat. split; [now apply matches_at_zero|].
    intros j g' Hj. lia.
  - destruct (match_here p (String c text)) as [g0|] eqn:E.
    + intros H. injection H as <-. exists 0%nat.
      split; [now apply matches_at_zero|]. intros j g' Hj. lia.
    + intros H. destruct (IH H) as (i & Hi & Hfirst). exists (S i).
      split; [now apply matches_at_tail|].
      intros [|j] g' Hj Hm.
      * apply matches_at_zero in Hm. congruence.
      * apply matches_at_tail in Hm. apply (Hfirst j g'); [lia | exact Hm].
Qed.

Lemma star_stops cls k s : stops cls s = true -> star cls k s = k s.
Proof.
  destruct s as [|d s']; simpl; [reflexivity|].
  destruct (cls d); [discriminate | reflexivity].
Qed.

(** A greedy star over a run of its class that ends before [s]: when the
    rest of the pattern matches at [s], no character is given back. *)
Lemma star_skip cls k ws s g :
  all_chars cls ws = true -> stops cls s = true -> k s = Some g ->
  star cls k (ws ++ s) = Some g.
Proof.
  intros Hws Hs Hk. induction ws as [|c ws IH]; simpl in *.
  - now rewrite star_stops.
  - apply andb_true_iff in Hws. destruct Hws as [Hc Hws].
    rewrite Hc, (IH Hws). reflexivity.
Qed.

Lemma string_of_list_ascii_snoc l c s :
  (string_of_list_ascii (l ++ [c]) ++ s)%string
  = (string_of_list_ascii l ++ String c s)%string.
Proof. induction l as [|a l IH]; simpl; [reflexivity | now rewrite IH]. Qed.

(** The group takes the whole run of its class. *)
Lemma group_more_run cls k acc g rest x :
  all_chars cls g = true -> stops cls rest = true -> k rest = Some x ->
  group_more cls k acc (g ++ rest)
  = Some (string_of_list_ascii (rev acc) ++ g)%string.
Proof.
  intros Hg Hrest Hk. revert acc.
  induction g as [|d g IH]; intros acc; simpl in *.
  - assert (E : (string_of_list_ascii (rev acc) ++ "")%string
                = string_of_list_ascii (rev acc)).
    { generalize (string_of_list_ascii (rev acc)).
      intros t. induction t as [|a t IHt]; simpl; [reflexivity | now rewrite IHt]. }
    rewrite E. destruct rest as [|d rest']; simpl; rewrite ?Hk; [reflexivity|].
    simpl in Hrest. destruct (cls d); [discriminate | reflexivity].
  - apply andb_true_iff in Hg. destruct Hg as [Hd Hg].
    rewrite Hd, (IH Hg). simpl. now rewrite string_of_list_ascii_snoc.
Qed.

Lemma numchar_not_space c : numchar c = true -> space c = false.
Proof.
  destruct c as [[] [] [] [] [] [] [] []]; vm_compute; congruence.
Qed.

Lemma append_assoc (a b c : string) : ((a ++ b) ++ c = a ++ (b ++ c))%string.
Proof. induction a as [|x a IH]; simpl; [reflexivity | now rewrite IH]. Qed.

Lemma string_drop_app pre s : string_drop (String.length pre) (pre ++ s) = s.
Proof. induction pre as [|c pre IH]; simpl; auto. Qed.

Lemma length_append (a b : string) :
  String.length (a ++ b) = (String.length a + String.length b)%nat.
Proof. induction a as [|x a IH]; simpl; [reflexivity | now rewrite IH]. Qed.

(** The shape of a match of [rel_err\s*=\s*([0-9\.Ee+\-]+)]: the label,
    spaces, the equals sign, spaces and a maximal run of number
    characters, which is the group. *)
Lemma relerr_match_here ws1 ws2 g rest :
  all_chars space ws1 = true -> all_chars space ws2 = true ->
  g <> "" -> all_chars numchar g = true -> stops numchar rest = true ->
  match_here RE_RELERR ("rel_err" ++ ws1 ++ "=" ++ ws2 ++ g ++ rest) = Some g.
Proof.
  intros H1 H2 Hne Hg Hrest.
  destruct g as [|c g']; [congruence|]. simpl in Hg.
  apply andb_true_iff in Hg. destruct Hg as [Hc Hg].
  unfold RE_RELERR, label. simpl.
  apply star_skip; [exact H1 | reflexivity |]. simpl.
  apply star_skip; [exact H2 | simpl; now rewrite (numchar_not_space _ Hc) |].
  simpl. rewrite Hc.
  exact (group_more_run numchar (fun _ => Some "") [c] g' rest "" Hg Hrest eq_refl).
Qed.

Lemma no_match_after_sound p text i :
  no_match_after p text i = true ->
  forall j g, (i < j)%nat -> ~ matches_at p text j g.
Proof.
  unfold no_match_after. rewrite forallb_forall.
  intros H j g Hj [Hle Hm].
  specialize (H j). rewrite Hm in H.
  assert (In j (seq (S i) (String.length text - i))) by (apply in_seq; lia).
  specialize (H H0). discriminate.
Qed.

(** C4, as the code has it.  [_parse_float] returns the value of the
    first (leftmost) match of the pattern in the text, whatever follows
    it, and nothing when there is no match; a text with a match has a
    first one.  For the label rel_err, an occurrence of the label, spaces,
    [=], spaces and a maximal run [g] of number characters at the end of
    [pre] is a match with group [g]. *)
Theorem parse_float_first_occurrence (regex : pattern) (text : string) :
  (forall g, first_match regex text g ->
             _parse_float regex text = PyFloat.of_string g)
  /\ ((forall i g, ~ matches_at regex text i g) -> _parse_float regex text = None)
  /\ ((exists i g, matches_at regex text i g) -> exists g, first_match regex text g)
  /\ (forall pre ws1 ws2 g rest,
        all_chars space ws1 = true -> all_chars space ws2 = true ->
        g <> "" -> all_chars numchar g = true -> stops numchar rest = true ->
        matches_at RE_RELERR
          (pre ++ "rel_err" ++ ws1 ++ "=" ++ ws2 ++ g ++ rest)
          (String.length pre) g).
Proof.
  split; [|split; [|split]].
  - intros g H. unfold _parse_float. now rewrite (search_first_match _ _ _ H).
  - intros H. unfold _parse_float. now rewrite (search_none _ _ H).
  - intros (i & g & Hm).
    destruct (search regex text) as [g0|] eqn:E.
    + exists g0. now apply search_some_first.
    + exfalso. revert i g Hm E. induction text as [|c text IH]; intros i g Hm E.
      * simpl in E. destruct i as [|i]; [|destruct Hm; simpl in *; lia].
        apply matches_at_zero in Hm. rewrite Hm in E. discriminate.
      * simpl in E. destruct (match_here regex (String c text)) eqn:E0;
          [discriminate|].
        destruct i as [|i].
        -- apply matches_at_zero in Hm. congruence.
        -- apply matches_at_tail in Hm. eapply IH; eassumption.
  - intros pre ws1 ws2 g rest H1 H2 Hne Hg Hrest. split.
    + rewrite length_append. lia.
    + rewrite string_drop_app. now apply relerr_match_here.
Qed.

(** [parse_float_first_occurrence] on [two_reports]: the value is that
    of the first line. *)
Lemma parse_float_first_occurrence_witness :
  first_match RE_RELERR two_reports "1e-3"
  /\ _parse_float RE_RELERR two_reports = Some (literal "1e-3").
Proof.
  assert (H : first_match RE_RELERR two_reports "1e-3").
  { exists 0%nat. split; [split; [vm_compute; lia | reflexivity]|].
    intros j g' Hj. lia. }
  split; [exact H|].
  exact (proj1 (parse_float_first_occurrence RE_RELERR two_reports) "1e-3" H).
Defined.

(** C4, as stated, fails: in [two_reports] the label matches twice, the
    last match has the group [1e-13], and the extractor returns the value
    of the first, 1e-3. *)
Lemma parse_float_last_occurrence_counterexample :
  ~ (forall text g, last_match RE_RELERR text g ->
                    _parse_float RE_RELERR text = PyFloat.of_string g).
Proof.
  intros H.
  assert (L : last_match RE_RELERR two_reports "1e-13").
  { exists 15%nat. split; [split; [vm_compute; lia | reflexivity]|].
    apply no_match_after_sound. reflexivity. }
  specialize (H two_reports "1e-13" L). vm_compute in H. discriminate.
Qed.

(** ** One trial *)

Lemma same_host_refl w : same_host w w.
Proof. repeat split. Qed.

Lemma same_host_trans w1 w2 w3 :
  same_host w1 w2 -> same_host w2 w3 -> same_host w1 w3.
Proof.
  unfold same_host. intros (A1 & A2 & A3 & A4 & A5) (B1 & B2 & B3 & B4 & B5).
  repeat split; congruence.
Qed.

(** A trial that returns has appended its result to the log; a trial
    that raises or hangs has left the log as it was.  The result is
    classified from the relative error parsed in the output of the
    child. *)
Lemma run_once_spec cfg self w :
  match _run_once cfg (self, w) with
  | (Return rr, (self', w')) =>
      self' = set_runs self (_runs self ++ [rr])
      /\ same_host w w'
      /\ w_launched w' = _build_cmd self cfg :: w_launched w
      /\ config rr = cfg
      /\ status rr = fst (classify (rel_err rr))
      /\ exists p,
           w_proc w (List.length (w_launched w)) (_build_cmd self cfg) = Exits p
           /\ rel_err rr = _parse_float RE_RELERR (output p)
           /\ returncode rr = p_returncode p
  | (Raise e, (self', w')) => self' = self /\ same_host w w'
  | (Hang, (self', w')) => self' = self /\ same_host w w'
  end.
Proof.
  unfold _run_once, bind, get_self, time_time, subprocess_run, lift,
    append_run, ret, call_build_cmd.
  cbn -[output classify cost_proxy _parse_float str_accepts].
  destruct (str_accepts (dps cfg) && str_accepts (terms cfg));
    cbn -[output classify cost_proxy _parse_float str_accepts].
  2:{ split; [reflexivity | repeat split]. }
  destruct (w_proc w (List.length (w_launched w)) (_build_cmd self cfg))
    as [e | p |] eqn:Hp; cbn -[output classify cost_proxy _parse_float].
  { split; [reflexivity | repeat split]. }
  2:{ split; [reflexivity | repeat split]. }
  destruct (cost_proxy _ (dps cfg) (terms cfg)) as [c | e |];
    cbn -[output classify cost_proxy _parse_float].
  - split; [reflexivity|]. split; [repeat split|]. split; [reflexivity|].
    split; [reflexivity|]. split; [reflexivity|]. exists p. repeat split.
  - split; [reflexivity | repeat split].
  - split; [reflexivity | repeat split].
Qed.

(** ** One pass through the loop body *)

Ltac step_iteration :=
  cbn -[_run_once stop_check grow_terms bump_dps cola_vs_precision
        stagnation_switch Z.eqb].

Lemma iteration_cases max_dps max_terms stop_on extra dps terms st :
  exists new,
    iteration_outcome max_dps max_terms stop_on extra dps terms st
      (fst (iteration max_dps max_terms stop_on extra dps terms st))
      (snd (iteration max_dps max_terms stop_on extra dps terms st)) new.
Proof.
  unfold iteration, bind, get_self, ret.
  destruct (_run_once (Build_RunConfig dps terms extra) st)
    as [[r1 | e |] st1] eqn:H1.
  2:{ exists []. now apply IT_raise1. }
  2:{ exists []. now apply IT_hang1. }
  destruct (stop_check stop_on (status r1)) eqn:S1.
  { exists [r1]. now apply IT_pass1. }
  step_iteration.
  destruct (rel_err r1) as [e1|] eqn:E1.
  2:{ exists [r1]. eapply IT_retry; eauto. }
  destruct (Z.eqb_spec (returncode r1) 0) as [R1 | R1].
  2:{ exists [r1]. eapply IT_retry; eauto. }
  step_iteration.
  destruct (Z.eqb_spec (grow_terms (fst st1) max_terms terms) terms) as [G | G].
  { exists [r1]. eapply IT_ceiling; eauto. }
  destruct (_run_once (Build_RunConfig dps (grow_terms (fst st1) max_terms terms)
                         extra) st1) as [[r2 | e |] st2] eqn:H2.
  2:{ exists [r1]. eapply IT_raise2; eauto. }
  2:{ exists [r1]. eapply IT_hang2; eauto. }
  destruct (stop_check stop_on (status r2)) eqn:S2.
  { exists [r1; r2]. eapply IT_pass2; eauto. }
  exists [r1; r2]. eapply IT_decide; eauto.
Qed.

Lemma stop_check_fail stop_on : stop_check stop_on "FAIL" = false.
Proof.
  unfold stop_check. simpl. now rewrite !andb_false_r.
Qed.

Lemma stop_check_strict stop_on :
  stop_on = "PASS_STRICT" \/ stop_on = "PASS_GUERRILLA" ->
  stop_check stop_on "PASS_STRICT" = true.
Proof. intros [-> | ->]; reflexivity. Qed.

(** A trial that returned left the settings of the lab alone. *)
Lemma run_once_return cfg self w rr st1 :
  _run_once cfg (self, w) = (Return rr, st1) ->
  fst st1 = set_runs self (_runs self ++ [rr])
  /\ same_host w (snd st1)
  /\ w_launched (snd st1) = _build_cmd self cfg :: w_launched w
  /\ config rr = cfg
  /\ status rr = fst (classify (rel_err rr))
  /\ exists p,
       w_proc w (List.length (w_launched w)) (_build_cmd self cfg) = Exits p
       /\ rel_err rr = _parse_float RE_RELERR (output p)
       /\ returncode rr = p_returncode p.
Proof.
  intros H. pose proof (run_once_spec cfg self w) as S.
  rewrite H in S. destruct st1 as [self' w']. exact S.
Qed.

Lemma run_once_raise cfg self w e st1 :
  _run_once cfg (self, w) = (Raise e, st1) ->
  fst st1 = self /\ same_host w (snd st1).
Proof.
  intros H. pose proof (run_once_spec cfg self w) as S.
  rewrite H in S. destruct st1 as [self' w']. exact S.
Qed.

Lemma run_once_hang cfg self w st1 :
  _run_once cfg (self, w) = (Hang, st1) ->
  fst st1 = self /\ same_host w (snd st1).
Proof.
  intros H. pose proof (run_once_spec cfg self w) as S.
  rewrite H in S. destruct st1 as [self' w']. exact S.
Qed.



(** C7, as the code has it.  When the first trial of a pass through the
    loop has no relative error, or has a non-zero exit code and does not
    meet the stop condition, the pass ends right after that trial: the
    precision becomes [min(max_dps, dps + precision_bump)], the terms stay,
    one run was appended and one child was launched, and the body returns
    without raising.  A trial without relative error never meets the stop
    condition. *)
Theorem retry_raises_precision max_dps max_terms stop_on extra dps terms
    self w r1 st1 :
  _run_once (Build_RunConfig dps terms extra) (self, w) = (Return r1, st1) ->
  rel_err r1 = None
  \/ (returncode r1 <> 0 /\ stop_check stop_on (status r1) = false) ->
  iteration max_dps max_terms stop_on extra dps terms (self, w)
  = (Return (Next (Z.min max_dps (dps + precision_bump self)) terms), st1)
  /\ _runs (fst st1) = _runs self ++ [r1]
  /\ w_launched (snd st1)
     = _build_cmd self (Build_RunConfig dps terms extra) :: w_launched w
  /\ (rel_err r1 = None -> stop_check stop_on (status r1) = false).
Proof.
  intros H1 Hbad.
  destruct (run_once_return _ _ _ _ _ H1) as (Hself & _ & Hl & _ & Hst & _).
  assert (Hnone : rel_err r1 = None -> stop_check stop_on (status r1) = false).
  { intros E. rewrite Hst, E. apply stop_check_fail. }
  assert (S1 : stop_check stop_on (status r1) = false)
    by (destruct Hbad as [E | [_ S]]; auto).
  split; [|split; [now rewrite Hself | split; [exact Hl | exact Hnone]]].
  unfold iteration, bind, get_self, ret. rewrite H1, S1. step_iteration.
  replace (bump_dps (fst st1) max_dps dps)
    with (Z.min max_dps (dps + precision_bump self))
    by (rewrite Hself; reflexivity).
  destruct Hbad as [E | [R _]].
  - now rewrite E.
  - destruct (rel_err r1); [|reflexivity].
    destruct (Z.eqb_spec (returncode r1) 0); [contradiction | reflexivity].
Qed.

(** [retry_raises_precision] on a child that prints nothing and exits
    with code 1. *)
Lemma retry_raises_precision_witness :
  exists r1 st1,
    _run_once (Build_RunConfig 80 5000 []) (fresh_lab, mock_world "" 1)
    = (Return r1, st1)
    /\ rel_err r1 = None
    /\ iteration 220 100000 "PASS_STRICT" [] 80 5000 (fresh_lab, mock_world "" 1)
       = (Return (Next 120 5000), st1).
Proof.
  destruct (_run_once (Build_RunConfig 80 5000 []) (fresh_lab, mock_world "" 1))
    as [[r1 | e |] st1] eqn:H1; [|vm_compute in H1; discriminate|vm_compute in H1; discriminate].
  exists r1, st1. split; [reflexivity|].
  assert (E : rel_err r1 = None).
  { vm_compute in H1. injection H1 as <- _. reflexivity. }
  split; [exact E|].
  exact (proj1 (retry_raises_precision 220 100000 "PASS_STRICT" [] 80 5000
                  fresh_lab (mock_world "" 1) r1 st1 H1 (or_introl E))).
Defined.

(** C7, as stated, fails: a child that prints a relative error of 1e-13
    and then exits with code 1 ends the loop; the precision is not
    raised. *)
Lemma retry_after_failed_exit_counterexample :
  ~ (forall max_dps max_terms stop_on extra dps terms self w r1 st1,
       _run_once (Build_RunConfig dps terms extra) (self, w) = (Return r1, st1) ->
       rel_err r1 = None \/ returncode r1 <> 0 ->
       iteration max_dps max_terms stop_on extra dps terms (self, w)
       = (Return (Next (Z.min max_dps (dps + precision_bump self)) terms), st1)).
Proof.
  intros H.
  destruct (_run_once (Build_RunConfig 80 5000 [])
              (fresh_lab, mock_world ("rel_err = 1e-13" ++ nl) 1))
    as [[r1 | e |] st1] eqn:H1; [|vm_compute in H1; discriminate|vm_compute in H1; discriminate].
  assert (R : returncode r1 <> 0).
  { vm_compute in H1. injection H1 as <- _. discriminate. }
  specialize (H 220 100000 "PASS_STRICT" [] 80 5000 fresh_lab
                (mock_world ("rel_err = 1e-13" ++ nl) 1) r1 st1 H1 (or_intror R)).
  apply (f_equal fst) in H. vm_compute in H. discriminate.
Qed.

(** ** The decision between terms and precision *)

Lemma set_runs_settings self rs :
  precision_bump (set_runs self rs) = precision_bump self
  /\ terms_growth (set_runs self rs) = terms_growth self
  /\ cola_ratio_threshold (set_runs self rs) = cola_ratio_threshold self
  /\ stagnation_window (set_runs self rs) = stagnation_window self
  /\ stagnation_improve_min (set_runs self rs) = stagnation_improve_min self
  /\ out_json (set_runs self rs) = out_json self
  /\ _runs (set_runs self rs) = rs.
Proof. repeat split. Qed.

(** A parsed error that is not a strict pass is not negative or zero. *)
Lemma not_strict_positive e :
  fst (classify (Some e)) <> "PASS_STRICT" -> leb e zero = false.
Proof.
  rewrite classify_some_status. intros H.
  destruct (leb e zero) eqn:L; [|reflexivity].
  assert (T : ltb e PASS_STRICT = true)
    by (eapply leb_ltb_trans; [exact L | reflexivity]).
  rewrite T in H. congruence.
Qed.

Lemma stop_check_not_strict stop_on st :
  stop_on = "PASS_STRICT" \/ stop_on = "PASS_GUERRILLA" ->
  stop_check stop_on st = false -> st <> "PASS_STRICT".
Proof.
  intros Hs H ->. rewrite (stop_check_strict _ Hs) in H. discriminate.
Qed.

Lemma lastn_snoc2 {A} (n : nat) (old : list A) x y :
  (2 <= n)%nat -> exists pre, lastn n (old ++ [x; y]) = pre ++ [x; y].
Proof.
  intros Hn. unfold lastn. rewrite length_app. simpl List.length.
  rewrite skipn_app.
  replace (List.length old + 2 - n - List.length old)%nat with 0%nat by lia.
  simpl skipn. eauto.
Qed.

Lemma parsed_errors_app self rs r1 r2 e1 e2 :
  _runs self = rs ++ [r1; r2] -> rel_err r1 = Some e1 -> rel_err r2 = Some e2 ->
  exists old, parsed_errors self = old ++ [e1; e2].
Proof.
  intros Hr E1 E2. unfold parsed_errors. rewrite Hr, flat_map_app. simpl.
  rewrite E1, E2. simpl. eauto.
Qed.

(** After two probes whose ratio reaches a threshold that is at least
    [1 + min_improve], the detector does not fire. *)
Lemma not_stagnating_after_gain self rs r1 r2 e1 e2 thr :
  1 <= stagnation_window self ->
  _runs self = rs ++ [r1; r2] -> rel_err r1 = Some e1 -> rel_err r2 = Some e2 ->
  leb (add (literal "1.0") (stagnation_improve_min self)) thr = true ->
  geb (div e1 e2) thr = true ->
  _stagnating self = false.
Proof.
  intros Hw Hr E1 E2 Hthr Hge.
  destruct (_stagnating self) eqn:S; [|reflexivity]. exfalso.
  apply stagnating_spec in S; [|lia]. destruct S as [_ Hpairs].
  destruct (parsed_errors_app self rs r1 r2 e1 e2 Hr E1 E2) as [old Hold].
  rewrite Hold in Hpairs.
  destruct (lastn_snoc2 (Z.to_nat (stagnation_window self + 1)) old e1 e2)
    as [pre Hpre]; [lia|].
  rewrite Hpre in Hpairs.
  destruct (Hpairs (List.length pre) e1 e2) as [_ Hlt].
  - rewrite nth_error_app2 by lia. now rewrite Nat.sub_diag.
  - rewrite nth_error_app2 by lia.
    replace (S (List.length pre) - List.length pre)%nat with 1%nat by lia.
    reflexivity.
  - unfold geb in Hge.
    pose proof (leb_trans _ _ _ Hthr Hge) as Hle.
    apply leb_not_ltb in Hle. congruence.
Qed.

(** Whatever the decision, the grown terms are kept. *)
Lemma cola_vs_precision_terms self max_dps r1 r2 dps t2 :
  snd (cola_vs_precision self max_dps r1 r2 dps t2) = t2.
Proof.
  unfold cola_vs_precision.
  destruct (_improvement_ratio (rel_err r1) (rel_err r2)) as [q|];
    [destruct (geb q (cola_ratio_threshold self))|]; reflexivity.
Qed.

(** C2. In a pass through the loop whose first trial parsed, exited with
    zero and did not stop the loop, whose terms could grow, and whose
    second probe at the grown terms parsed and did not stop the loop
    either: the configuration that reaches the stagnation check has the
    grown terms and, when the ratio of the two errors is at least the
    threshold (1.8 by default), the precision unchanged; when the ratio is
    below the threshold, the precision raised by the fixed step, bounded by
    the ceiling.  That configuration is the next one unless the stagnation
    detector fires, which it does not after a ratio at or above the
    threshold (with a threshold of at least [1 + min_improve] and a window
    of at least one improvement, as by default). *)
Theorem cola_or_precision max_dps max_terms stop_on extra dps terms
    self w r1 st1 r2 st2 e1 e2 :
  let t2 := Z.min max_terms (terms * terms_growth self) in
  let ratio := div e1 e2 in
  stop_on = "PASS_STRICT" \/ stop_on = "PASS_GUERRILLA" ->
  _run_once (Build_RunConfig dps terms extra) (self, w) = (Return r1, st1) ->
  stop_check stop_on (status r1) = false ->
  rel_err r1 = Some e1 -> returncode r1 = 0 ->
  t2 <> terms ->
  _run_once (Build_RunConfig dps t2 extra) st1 = (Return r2, st2) ->
  stop_check stop_on (status r2) = false ->
  rel_err r2 = Some e2 ->
  exists dps',
    iteration max_dps max_terms stop_on extra dps terms (self, w)
    = (Return (stagnation_switch (fst st2) max_dps max_terms dps' t2), st2)
    /\ (_stagnating (fst st2) = false ->
        iteration max_dps max_terms stop_on extra dps terms (self, w)
        = (Return (Next dps' t2), st2))
    /\ (geb ratio (cola_ratio_threshold self) = true -> dps' = dps)
    /\ (ltb ratio (cola_ratio_threshold self) = true ->
        dps' = raised_dps self max_dps dps)
    /\ (dps <= max_dps -> 0 <= precision_bump self ->
        raised_dps self max_dps dps = Z.min max_dps (dps + precision_bump self))
    /\ (1 <= stagnation_window self ->
        leb (add (literal "1.0") (stagnation_improve_min self))
            (cola_ratio_threshold self) = true ->
        geb ratio (cola_ratio_threshold self) = true ->
        iteration max_dps max_terms stop_on extra dps terms (self, w)
        = (Return (Next dps t2), st2))
    /\ (forall cmd hash out,
          cola_ratio_threshold (new_lab cmd hash out) = literal "1.8"
          /\ 1 <= stagnation_window (new_lab cmd hash out)
          /\ leb (add (literal "1.0")
                      (stagnation_improve_min (new_lab cmd hash out)))
                 (cola_ratio_threshold (new_lab cmd hash out)) = true).
Proof.
  intros t2 ratio Hstop H1 S1 E1 R1 Hgrow H2 S2 E2.
  destruct (run_once_return _ _ _ _ _ H1) as (Hself1 & _).
  destruct st1 as [self1 w1]. simpl in Hself1.
  destruct (run_once_return _ _ _ _ _ H2) as (Hself2 & _ & _ & _ & Hst2 & _).
  assert (Hg : grow_terms self1 max_terms terms = t2)
    by (rewrite Hself1; reflexivity).
  assert (Hpos : leb e2 zero = false).
  { apply not_strict_positive. rewrite <- E2, <- Hst2.
    eapply stop_check_not_strict; eassumption. }
  assert (Hthr : cola_ratio_threshold (fst st2) = cola_ratio_threshold self)
    by (rewrite Hself2, Hself1; reflexivity).
  assert (Hbump : forall d, bump_dps (fst st2) max_dps d
                            = Z.min max_dps (d + precision_bump self))
    by (intros d; rewrite Hself2, Hself1; reflexivity).
  set (dps' := fst (cola_vs_precision (fst st2) max_dps r1 r2 dps t2)).
  assert (Hiter :
    iteration max_dps max_terms stop_on extra dps terms (self, w)
    = (Return (stagnation_switch (fst st2) max_dps max_terms dps' t2), st2)).
  { unfold iteration, bind, get_self, ret. rewrite H1, S1. step_iteration.
    rewrite E1, R1, Z.eqb_refl. step_iteration. rewrite Hg.
    destruct (Z.eqb_spec t2 terms) as [G | _]; [contradiction|].
    step_iteration. rewrite H2, S2. step_iteration.
    now rewrite cola_vs_precision_terms. }
  assert (Hcola : cola_vs_precision (fst st2) max_dps r1 r2 dps t2
                  = if geb ratio (cola_ratio_threshold self) then (dps, t2)
                    else (raised_dps self max_dps dps, t2)).
  { unfold cola_vs_precision, _improvement_ratio.
    rewrite E1, E2, Hpos, Hthr, Hbump. reflexivity. }
  exists dps'. split; [exact Hiter|]. split.
  { intros Hs. rewrite Hiter. unfold stagnation_switch. now rewrite Hs. }
  split.
  { intros Hge. unfold dps'. now rewrite Hcola, Hge. }
  split.
  { intros Hlt. unfold dps'. rewrite Hcola.
    change (geb ratio (cola_ratio_threshold self))
      with (leb (cola_ratio_threshold self) ratio).
    now rewrite (ltb_not_leb _ _ Hlt). }
  split.
  { intros Hle Hb. unfold raised_dps. destruct (Z.ltb_spec dps max_dps); lia. }
  split.
  { intros Hw Hmin Hge. rewrite Hiter. unfold stagnation_switch.
    rewrite (not_stagnating_after_gain (fst st2) (_runs self) r1 r2 e1 e2
               (cola_ratio_threshold self)); auto.
    - unfold dps'. now rewrite Hcola, Hge.
    - now rewrite Hself2, Hself1.
    - rewrite Hself2, Hself1. simpl. now rewrite <- app_assoc.
    - now rewrite Hself2, Hself1. }
  intros cmd hash out. split; [reflexivity|]. split; [simpl; lia | reflexivity].
Qed.

(** ** Integers that convert to floats *)

Ltac z_ops :=
  change IntDef.Z.sub with Z.sub in *;
  change IntDef.Z.add with Z.add in *;
  change IntDef.Z.max with Z.max in *;
  change IntDef.Z.min with Z.min in *;
  change IntDef.Z.leb with Z.leb in *.

Lemma digits2_pos_lower p : 2 ^ (Z.pos (digits2_pos p) - 1) <= Z.pos p.
Proof.
  induction p as [p IH | p IH |]; simpl digits2_pos.
  - rewrite Pos2Z.inj_succ. replace (Z.succ (Z.pos (digits2_pos p)) - 1)
      with (Z.succ (Z.pos (digits2_pos p) - 1)) by lia.
    rewrite Z.pow_succ_r by lia. lia.
  - rewrite Pos2Z.inj_succ. replace (Z.succ (Z.pos (digits2_pos p)) - 1)
      with (Z.succ (Z.pos (digits2_pos p) - 1)) by lia.
    rewrite Z.pow_succ_r by lia. lia.
  - simpl. lia.
Qed.

Lemma digits2_pos_small p : Z.pos p < 2 ^ 53 -> Z.pos (digits2_pos p) <= 53.
Proof.
  intros H. destruct (Z.le_gt_cases (Z.pos (digits2_pos p)) 53) as [L | G]; [exact L|].
  exfalso. pose proof (digits2_pos_lower p) as Hl.
  assert (2 ^ 53 <= 2 ^ (Z.pos (digits2_pos p) - 1)) by (apply Z.pow_le_mono_r; lia).
  lia.
Qed.

Lemma digits2_pos_iter_xO p k :
  digits2_pos (Pos.iter xO p k) = (digits2_pos p + k)%positive.
Proof.
  induction k as [|k IH] using Pos.peano_ind.
  - simpl. lia.
  - rewrite Pos.iter_succ. simpl. rewrite IH. lia.
Qed.

Lemma shr_fexp_exact mz ez :
  Z.pos (digits2_pos mz) = 53 -> -1074 <= ez ->
  shr_fexp prec emax (Z.pos mz) ez loc_Exact
  = ({| shr_m := Z.pos mz; shr_r := false; shr_s := false |}, ez).
Proof.
  intros Hd He. unfold shr_fexp. simpl Zdigits2. rewrite Hd.
  match goal with
  | |- context [shr _ _ ?n] =>
      assert (E : n = 0) by (unfold fexp, emin, prec, emax; z_ops; lia);
      rewrite E
  end.
  reflexivity.
Qed.

Lemma binary_round_aux_exact sx mz ez :
  Z.pos (digits2_pos mz) = 53 -> -1074 <= ez <= 971 ->
  binary_round_aux prec emax sx (Z.pos mz) ez loc_Exact = S754_finite sx mz ez.
Proof.
  intros Hd He. unfold binary_round_aux.
  rewrite shr_fexp_exact by lia.
  cbn [shr_m loc_of_shr_record round_nearest_even].
  rewrite shr_fexp_exact by lia.
  cbn [shr_m]. z_ops.
  destruct (Z.leb_spec ez (emax - prec)) as [_ | G]; [reflexivity|].
  unfold emax, prec in G. lia.
Qed.

Lemma binary_round_small sx mx :
  Z.pos mx < 2 ^ 53 ->
  exists mz ez, binary_round prec emax sx mx 0 = S754_finite sx mz ez.
Proof.
  intros Hm. pose proof (digits2_pos_small mx Hm) as Hd.
  unfold binary_round.
  remember (Z.pos (digits2_pos mx)) as d eqn:Ed.
  assert (Hd0 : 0 < d) by lia.
  assert (Hal : exists mz,
             shl_align mx 0 (fexp prec emax (d + 0)) = (mz, d - 53)
             /\ Z.pos (digits2_pos mz) = 53).
  { assert (Hf : fexp prec emax (d + 0) = d - 53)
      by (unfold fexp, emin, prec, emax; z_ops; lia).
    rewrite Hf. unfold shl_align. z_ops.
    destruct (d - 53 - 0) as [|q|q] eqn:E; try lia.
    - exists mx. split; [f_equal; lia | lia].
    - exists (Pos.iter xO mx q). split; [reflexivity|].
      rewrite digits2_pos_iter_xO. lia. }
  destruct Hal as (mz & Hal & Hdz). z_ops. rewrite Hal.
  exists mz, (d - 53). apply binary_round_aux_exact; [exact Hdz | lia].
Qed.

Lemma of_int_small z : - 2 ^ 53 < z < 2 ^ 53 -> PyFloat.of_int z <> None.
Proof.
  intros Hz. unfold PyFloat.of_int, binary_normalize.
  destruct z as [|p|p].
  - discriminate.
  - destruct (binary_round_small false p) as (mz & ez & ->); [lia | discriminate].
  - destruct (binary_round_small true p) as (mz & ez & ->); [lia | discriminate].
Qed.

(** ** The effect of one pass on the log *)

Lemma set_runs_twice self rs rs' : set_runs (set_runs self rs) rs' = set_runs self rs'.
Proof. reflexivity. Qed.

Lemma stagnation_switch_not_pass self max_dps max_terms dps terms :
  passes (Return (stagnation_switch self max_dps max_terms dps terms)) = false.
Proof.
  unfold stagnation_switch.
  destruct (_stagnating self); [|reflexivity].
  destruct (dps <? max_dps); [reflexivity|].
  destruct (terms <? max_terms); reflexivity.
Qed.

Lemma run_once_from_child cfg self w rr st1 w0 :
  w_proc w = w_proc w0 ->
  _run_once cfg (self, w) = (Return rr, st1) -> from_child w0 rr.
Proof.
  intros Hw H. destruct (run_once_return _ _ _ _ _ H)
    as (_ & _ & _ & _ & Hst & p & Hp & Hrel & Hrc).
  split; [exact Hst|]. rewrite Hw in Hp. eauto 6.
Qed.

Ltac conjs := repeat match goal with |- _ /\ _ => split end.

Lemma iteration_spec max_dps max_terms stop_on extra dps terms st :
  let r := iteration max_dps max_terms stop_on extra dps terms st in
  exists new,
    fst (snd r) = set_runs (fst st) (_runs (fst st) ++ new)
    /\ same_host (snd st) (snd (snd r))
    /\ (List.length new <= 2)%nat
    /\ Forall (from_child (snd st)) new
    /\ (passes (fst r) = true ->
        exists l1 x, new = l1 ++ [x] /\ stop_check stop_on (status x) = true
                     /\ Forall (no_stop stop_on) l1)
    /\ (passes (fst r) = false -> Forall (no_stop stop_on) new).
Proof.
  cbv zeta.
  destruct (iteration_cases max_dps max_terms stop_on extra dps terms st)
    as [new Hout].
  destruct (iteration max_dps max_terms stop_on extra dps terms st) as [o st'].
  simpl in *. destruct st as [self w]. exists new.
  inversion Hout; subst; clear Hout; cbn [fst snd].
  - (* the first trial raises *)
    destruct (run_once_raise _ _ _ _ _ H) as [Hs Hh].
    rewrite Hs, app_nil_r. conjs; auto; try discriminate.
    destruct self; reflexivity.
  - (* the first trial passes *)
    destruct (run_once_return _ _ _ _ _ H) as (Hs & Hh & _).
    pose proof (run_once_from_child _ _ _ _ _ w eq_refl H) as Hc.
    conjs; auto; try discriminate.
    + intros _. exists [], r1. conjs; auto.
  - (* retry at a higher precision *)
    destruct (run_once_return _ _ _ _ _ H) as (Hs & Hh & _).
    pose proof (run_once_from_child _ _ _ _ _ w eq_refl H) as Hc.
    conjs; auto; try discriminate.
  - (* the terms cannot grow *)
    destruct (run_once_return _ _ _ _ _ H) as (Hs & Hh & _).
    pose proof (run_once_from_child _ _ _ _ _ w eq_refl H) as Hc.
    conjs; auto; try discriminate.
  - (* the second probe raises *)
    destruct (run_once_return _ _ _ _ _ H) as (Hs & Hh & _).
    pose proof (run_once_from_child _ _ _ _ _ w eq_refl H) as Hc.
    destruct st1 as [self1 w1].
    destruct (run_once_raise _ _ _ _ _ H4) as [Hs2 Hh2].
    simpl in *. rewrite Hs2, Hs.
    conjs; auto; try discriminate.
    eapply same_host_trans; eassumption.
  - (* the second probe passes *)
    destruct (run_once_return _ _ _ _ _ H) as (Hs & Hh & _).
    pose proof (run_once_from_child _ _ _ _ _ w eq_refl H) as Hc.
    destruct st1 as [self1 w1].
    destruct (run_once_return _ _ _ _ _ H4) as (Hs2 & Hh2 & _).
    assert (Hc2 : from_child w r2).
    { eapply run_once_from_child; [|exact H4]. apply Hh. }
    simpl in *. rewrite Hs2, Hs. simpl. rewrite <- app_assoc.
    conjs; auto; try discriminate.
    + eapply same_host_trans; eassumption.
    + intros _. exists [r1], r2. conjs; auto.
  - (* the decision *)
    destruct (run_once_return _ _ _ _ _ H) as (Hs & Hh & _).
    pose proof (run_once_from_child _ _ _ _ _ w eq_refl H) as Hc.
    destruct st1 as [self1 w1].
    destruct (run_once_return _ _ _ _ _ H4) as (Hs2 & Hh2 & _).
    assert (Hc2 : from_child w r2).
    { eapply run_once_from_child; [|exact H4]. apply Hh. }
    rewrite stagnation_switch_not_pass.
    simpl in *. rewrite Hs2, Hs. simpl. rewrite <- app_assoc.
    conjs; auto; try discriminate.
    eapply same_host_trans; eassumption.
  - (* the first trial hangs *)
    destruct (run_once_hang _ _ _ _ H) as [Hs Hh].
    rewrite Hs, app_nil_r. conjs; auto; try discriminate.
    destruct self; reflexivity.
  - (* the second probe hangs *)
    destruct (run_once_return _ _ _ _ _ H) as (Hs & Hh & _).
    pose proof (run_once_from_child _ _ _ _ _ w eq_refl H) as Hc.
    destruct st1 as [self1 w1].
    destruct (run_once_hang _ _ _ _ H4) as [Hs2 Hh2].
    simpl in *. rewrite Hs2, Hs.
    conjs; auto; try discriminate.
    eapply same_host_trans; eassumption.
Qed.

(** ** The loop *)

Lemma loop_spec max_dps max_terms stop_on extra steps :
  forall dps terms st,
    let r := loop max_dps max_terms stop_on extra steps dps terms st in
    exists new,
      fst (snd r) = set_runs (fst st) (_runs (fst st) ++ new)
      /\ same_host (snd st) (snd (snd r))
      /\ (List.length new <= 2 * steps)%nat
      /\ Forall (from_child (snd st)) new
      /\ (fst r = Return STOPPED_PASS ->
          exists l1 x, new = l1 ++ [x] /\ stop_check stop_on (status x) = true
                       /\ Forall (no_stop stop_on) l1)
      /\ (fst r <> Return STOPPED_PASS -> Forall (no_stop stop_on) new).
Proof.
  induction steps as [|steps IH]; intros dps terms st; cbv zeta.
  - exists []. simpl. rewrite app_nil_r. conjs; auto.
    + destruct st as [[] w]; reflexivity.
    + apply same_host_refl.
    + discriminate.
  - destruct (iteration_spec max_dps max_terms stop_on extra dps terms st)
      as (new1 & Hs1 & Hh1 & Hl1 & Hc1 & Hp1 & Hn1).
    simpl loop. unfold bind.
    destruct (iteration max_dps max_terms stop_on extra dps terms st)
      as [[[s | dps' terms'] | e |] st1]; cbn [fst snd] in *.
    + (* break *)
      exists new1. unfold ret. cbn [fst snd]. conjs; auto; try lia.
      * intros E. injection E as ->. now apply Hp1.
      * intros E. apply Hn1. destruct s; try reflexivity. congruence.
    + (* next pass *)
      destruct (IH dps' terms' st1) as (new2 & Hs2 & Hh2 & Hl2 & Hc2 & Hp2 & Hn2).
      destruct (loop max_dps max_terms stop_on extra steps dps' terms' st1)
        as [o st2]; cbn [fst snd] in *.
      specialize (Hn1 eq_refl).
      exists (new1 ++ new2). conjs.
      * rewrite Hs2, Hs1. simpl. now rewrite app_assoc.
      * eapply same_host_trans; eassumption.
      * rewrite length_app. lia.
      * apply Forall_app. split; [exact Hc1|].
        eapply Forall_impl; [|exact Hc2].
        intros x (Hst & k & cmd & p & Hp & Hx). split; [exact Hst|].
        exists k, cmd, p. destruct Hh1 as (Hproc & _). now rewrite <- Hproc.
      * intros E. destruct (Hp2 E) as (l1 & x & -> & Hx & Hl).
        exists (new1 ++ l1), x. conjs; auto.
        -- now rewrite app_assoc.
        -- apply Forall_app. auto.
      * intros E. apply Forall_app. auto.
    + (* an exception *)
      exists new1. cbn [fst snd]. conjs; auto; try lia; try discriminate.
    + (* a child that never exits *)
      exists new1. cbn [fst snd]. conjs; auto; try lia; try discriminate.
Qed.

(** A run that meets the stop condition is the last of a log whose
    earlier runs do not. *)
Lemma stop_is_last stop_on (l1 : list RunResult) x a y b :
  Forall (no_stop stop_on) l1 ->
  stop_check stop_on (status y) = true ->
  l1 ++ [x] = a ++ y :: b -> b = [] /\ y = x.
Proof.
  revert a. induction l1 as [|z l1 IH]; intros a Hall Hy E.
  - destruct a as [|a0 a]; simpl in E.
    + injection E as -> <-. auto.
    + injection E as _ E. destruct a; discriminate.
  - inversion Hall as [|? ? Hz Hall']; subst.
    destruct a as [|a0 a]; simpl in E.
    + injection E as -> _. unfold no_stop in Hz. congruence.
    + injection E as _ E. eapply IH; eassumption.
Qed.

Lemma run_unfold a st :
  run a st =
    match run_loop a st with
    | (Return _, (self', w')) =>
        if w_writable w' (out_json self')
        then (Return (build_report self' w'),
              (self', with_file w' (out_json self') (build_report self' w')))
        else (Raise OSError, (self', w'))
    | (Raise e, st') => (Raise e, st')
    | (Hang, st') => (Hang, st')
    end.
Proof.
  unfold run, bind, get_self, json_dump, ret.
  destruct (run_loop a st) as [[s | e |] [self' w']];
    [|reflexivity|reflexivity].
  cbn [fst snd]. destruct (w_writable w' (out_json self')); reflexivity.
Qed.

(** [str] accepts the integers that a float holds exactly. *)
Lemma float_exact_str_accepts z : float_exact z -> str_accepts z = true.
Proof.
  unfold float_exact, str_accepts. intros H. apply Z.ltb_lt.
  assert (L : 2 ^ 53 < str_limit) by (vm_compute; reflexivity).
  revert L. generalize str_limit. intros m L. lia.
Qed.

Lemma call_build_cmd_accepted self cfg :
  str_accepts (dps cfg) = true -> str_accepts (terms cfg) = true ->
  call_build_cmd self cfg = Return (_build_cmd self cfg).
Proof. intros Hd Ht. unfold call_build_cmd. now rewrite Hd, Ht. Qed.

Lemma run_once_succeeds cfg self w p :
  w_proc w (List.length (w_launched w)) (_build_cmd self cfg) = Exits p ->
  float_exact (dps cfg) -> float_exact (terms cfg) ->
  exists rr st1, _run_once cfg (self, w) = (Return rr, st1).
Proof.
  intros Hp Hd Ht.
  unfold _run_once, bind, get_self, time_time, subprocess_run, lift,
    append_run, ret.
  cbn -[output classify cost_proxy _parse_float call_build_cmd].
  rewrite (call_build_cmd_accepted self cfg (float_exact_str_accepts _ Hd)
             (float_exact_str_accepts _ Ht)).
  cbn -[output classify cost_proxy _parse_float].
  rewrite Hp. cbn -[output classify cost_proxy _parse_float].
  unfold cost_proxy.
  destruct (PyFloat.of_int (dps cfg)) as [d|] eqn:Ed;
    [|now apply of_int_small in Hd].
  destruct (PyFloat.of_int (terms cfg)) as [t|] eqn:Et;
    [|now apply of_int_small in Ht].
  cbn -[output classify _parse_float literal]. eauto.
Qed.

(** The runs that one pass through the body appends: none when the first
    trial raises or hangs, else the first trial at [(dps, terms)], and after it at
    most the second probe at the grown terms. *)
Lemma iteration_appends max_dps max_terms stop_on extra dps terms st :
  exists new,
    _runs (fst (snd (iteration max_dps max_terms stop_on extra dps terms st)))
    = _runs (fst st) ++ new
    /\ (new = []
        \/ (exists r1, new = [r1]
                       /\ config r1 = Build_RunConfig dps terms extra)
        \/ (exists r1 r2,
              new = [r1; r2]
              /\ config r1 = Build_RunConfig dps terms extra
              /\ config r2 = Build_RunConfig dps
                   (grow_terms (fst st) max_terms terms) extra)).
Proof.
  destruct (iteration_cases max_dps max_terms stop_on extra dps terms st)
    as [new Hout].
  destruct (iteration max_dps max_terms stop_on extra dps terms st) as [o st'].
  cbn [fst snd] in *. destruct st as [self w]. exists new.
  inversion Hout; subst; clear Hout;
    try (destruct (run_once_return _ _ _ _ _ H) as (Hs & _ & _ & Hc & _));
    try (destruct st1 as [self1 w1]);
    try (destruct (run_once_return _ _ _ _ _ H4) as (Hs2 & _ & _ & Hc2 & _));
    cbn [fst snd] in *.
  - destruct (run_once_raise _ _ _ _ _ H) as [-> _].
    split; [now rewrite app_nil_r | auto].
  - rewrite Hs. split; [reflexivity|]. right. left. eauto.
  - rewrite Hs. split; [reflexivity|]. right. left. eauto.
  - rewrite Hs. split; [reflexivity|]. right. left. eauto.
  - destruct (run_once_raise _ _ _ _ _ H4) as [-> _]. rewrite Hs.
    split; [reflexivity|]. right. left. eauto.
  - rewrite Hs2, Hs. simpl. rewrite <- app_assoc.
    split; [reflexivity|]. right. right. exists r1, r2. conjs; auto.
    rewrite Hc2, Hs. reflexivity.
  - rewrite Hs2, Hs. simpl. rewrite <- app_assoc.
    split; [reflexivity|]. right. right. exists r1, r2. conjs; auto.
    rewrite Hc2, Hs. reflexivity.
  - destruct (run_once_hang _ _ _ _ H) as [-> _].
    split; [now rewrite app_nil_r | auto].
  - destruct (run_once_hang _ _ _ _ H4) as [-> _]. rewrite Hs.
    split; [reflexivity|]. right. left. eauto.
Qed.

(** What [run] does to the log and to the report file. *)
Lemma run_spec a self w :
  let r := run a (self, w) in
  exists new,
    _runs (fst (snd r)) = _runs self ++ new
    /\ (List.length new <= 2 * Z.to_nat (max_steps a))%nat
    /\ Forall (from_child w) new
    /\ (forall l1 x l2,
          new = l1 ++ x :: l2 -> stop_check (stop_on a) (status x) = true ->
          l2 = [] /\ fst (run_loop a (self, w)) = Return STOPPED_PASS)
    /\ (fst (run_loop a (self, w)) <> Return STOPPED_PASS ->
        Forall (no_stop (stop_on a)) new)
    /\ match fst r with
       | Return report =>
           report = build_report (fst (snd r)) (snd (snd (run_loop a (self, w))))
           /\ runs report = _runs self ++ new
           /\ w_writable w (out_json self) = true
           /\ w_files (snd (snd r)) = (out_json self, report) :: w_files w
           /\ exists s, fst (run_loop a (self, w)) = Return s
       | Raise e => w_files (snd (snd r)) = w_files w
       | Hang => w_files (snd (snd r)) = w_files w
       end.
Proof.
  cbv zeta. rewrite run_unfold. unfold run_loop.
  destruct (loop_spec (max_dps a) (max_terms a) (stop_on a) (forwarded_args a)
              (Z.to_nat (max_steps a)) (start_dps a) (start_terms a) (self, w))
    as (new & Hs & Hh & Hl & Hc & Hp & Hn).
  destruct (loop (max_dps a) (max_terms a) (stop_on a) (forwarded_args a)
              (Z.to_nat (max_steps a)) (start_dps a) (start_terms a) (self, w))
    as [o [self' w']]. cbn [fst snd] in *.
  destruct Hh as (_ & _ & Hwr & _ & Hfiles).
  assert (Hlast : forall l1 x l2,
             new = l1 ++ x :: l2 -> stop_check (stop_on a) (status x) = true ->
             l2 = [] /\ o = Return STOPPED_PASS).
  { intros l1 x l2 E Hx.
    assert (Ho : o = Return STOPPED_PASS).
    { destruct o as [[] | e |]; try reflexivity;
        (assert (Hall : Forall (no_stop (stop_on a)) new) by (apply Hn; discriminate);
         rewrite E in Hall; apply Forall_elt in Hall; unfold no_stop in Hall;
         congruence). }
    split; [|exact Ho].
    destruct (Hp Ho) as (m1 & y & E' & Hy & Hm).
    rewrite E' in E. now destruct (stop_is_last _ _ _ _ _ _ Hm Hx E). }
  exists new. subst self'. destruct o as [s | e |]; cbn [fst snd].
  - change (out_json (set_runs self (_runs self ++ new))) with (out_json self).
    destruct (w_writable w' (out_json self)) eqn:W; cbn [fst snd].
    + simpl. conjs; auto.
      * now rewrite <- Hwr.
      * now rewrite Hfiles.
      * eauto.
    + simpl. conjs; auto.
  - simpl. conjs; auto.
  - simpl. conjs; auto.
Qed.

(** C10, as the code has it.  Each pass through the loop body appends to
    the log the first trial and at most the second probe at the grown
    terms; a call of [run] with a step budget [max_steps] makes
    [max(max_steps, 0)] passes at most and so appends at most twice as
    many runs, behind the runs that were there, which stay as they were.
    The report lists the whole log, the runs that were there and the new
    ones: it has at most [2 * max_steps] runs more than the log had
    before the call, and at most [2 * max_steps] runs for a lab whose log
    was empty and a budget that is not negative. *)
Theorem log_grows_by_appending (a : RunArgs) (self : OuroborosLab) (w : World) :
  (forall dps terms st,
     exists new,
       _runs (fst (snd (iteration (max_dps a) (max_terms a) (stop_on a)
                          (forwarded_args a) dps terms st)))
       = _runs (fst st) ++ new
       /\ (new = []
           \/ (exists r1, new = [r1]
                 /\ config r1 = Build_RunConfig dps terms (forwarded_args a))
           \/ (exists r1 r2,
                 new = [r1; r2]
                 /\ config r1 = Build_RunConfig dps terms (forwarded_args a)
                 /\ config r2 = Build_RunConfig dps
                      (Z.min (max_terms a) (terms * terms_growth (fst st)))
                      (forwarded_args a))))
  /\ exists new,
       _runs (fst (snd (run a (self, w)))) = _runs self ++ new
       /\ (List.length new <= 2 * Z.to_nat (max_steps a))%nat
       /\ (0 <= max_steps a -> Z.of_nat (List.length new) <= 2 * max_steps a)
       /\ (forall report,
             fst (run a (self, w)) = Return report ->
             runs report = _runs self ++ new
             /\ (List.length (runs report)
                 <= List.length (_runs self) + 2 * Z.to_nat (max_steps a))%nat
             /\ (_runs self = [] -> 0 <= max_steps a ->
                 Z.of_nat (List.length (runs report)) <= 2 * max_steps a)).
Proof.
  split.
  - intros dps terms st. apply iteration_appends.
  - destruct (run_spec a self w) as (new & Hruns & Hlen & _ & _ & _ & Hres).
    assert (Hlen' : 0 <= max_steps a ->
                    Z.of_nat (List.length new) <= 2 * max_steps a).
    { intros Hsteps. apply Nat2Z.inj_le in Hlen.
      rewrite Nat2Z.inj_mul, Z2Nat.id in Hlen by lia. exact Hlen. }
    exists new. split; [exact Hruns|]. split; [exact Hlen|].
    split; [exact Hlen'|].
    intros report Hr. rewrite Hr in Hres.
    destruct Hres as (_ & Hrep & _). split; [exact Hrep|]. split.
    + rewrite Hrep, length_app. lia.
    + intros Hfresh Hsteps. rewrite Hrep, Hfresh. now apply Hlen'.
Qed.

(** [log_grows_by_appending] on a fresh lab, a child that always reports
    1e-5 and a budget of five steps. *)
Lemma log_grows_by_appending_witness :
  0 <= max_steps (with_max_steps default_args 5)
  /\ exists new,
       _runs (fst (snd (run (with_max_steps default_args 5)
                          (fresh_lab, mock_world ("rel_err = 1e-5" ++ nl) 0))))
       = [] ++ new
       /\ Z.of_nat (List.length new) <= 2 * 5.
Proof.
  assert (H : 0 <= max_steps (with_max_steps default_args 5))
    by (vm_compute; discriminate).
  split; [exact H|].
  destruct (proj2 (log_grows_by_appending (with_max_steps default_args 5)
                     fresh_lab (mock_world ("rel_err = 1e-5" ++ nl) 0)))
    as (new & Hruns & _ & Hlen & _).
  exists new. split; [exact Hruns | exact (Hlen H)].
Defined.

(** C10, as stated, fails on a lab that is used again: [run] never
    empties the log, so the report of a second call with a budget of one
    step lists the two runs of the first call and the two of the second,
    four runs for a bound of two. *)
Lemma report_of_second_call_counterexample :
  ~ (forall a self w report,
       0 <= max_steps a ->
       fst (run a (self, w)) = Return report ->
       Z.of_nat (List.length (runs report)) <= 2 * max_steps a).
Proof.
  intros H.
  assert (L : trials_recorded
                (fst (run (with_max_steps default_args 1) after_first_call))
              = Some 4%nat)
    by (vm_compute; reflexivity).
  destruct (fst (run (with_max_steps default_args 1) after_first_call))
    as [report | e |] eqn:F; try discriminate L.
  specialize (H (with_max_steps default_args 1) (fst after_first_call)
                (snd after_first_call) report).
  rewrite <- surjective_pairing in H.
  specialize (H ltac:(simpl; lia) F).
  cbn [trials_recorded] in L. injection L as L. rewrite L in H.
  cbn [max_steps with_max_steps] in H. lia.
Qed.

(** [cola_or_precision] on a child whose error falls from 1e-5 to 4e-6
    when the terms double: the ratio 2.5 is above the threshold, the terms
    double and the precision stays. *)
Lemma cola_or_precision_witness :
  exists st2,
    iteration 220 100000 "PASS_STRICT" [] 80 5000
      (fresh_lab, mock_sequence ["rel_err = 1e-5"; "rel_err = 4e-6"])
    = (Return (Next 80 10000), st2).
Proof.
  set (w := mock_sequence ["rel_err = 1e-5"; "rel_err = 4e-6"]).
  destruct (_run_once (Build_RunConfig 80 5000 []) (fresh_lab, w))
    as [[r1 | e |] st1] eqn:H1; [|vm_compute in H1; discriminate|vm_compute in H1; discriminate].
  destruct (_run_once (Build_RunConfig 80 (Z.min 100000 (5000 * terms_growth fresh_lab)) [])
              st1)
    as [[r2 | e |] st2] eqn:H2.
  2:{ vm_compute in H1. injection H1 as <- <-. vm_compute in H2. discriminate. }
  2:{ vm_compute in H1. injection H1 as <- <-. vm_compute in H2. discriminate. }
  assert (F1 : r1 = match fst (_run_once (Build_RunConfig 80 5000 []) (fresh_lab, w))
                    with Return r => r | _ => r1 end)
    by (rewrite H1; reflexivity).
  assert (F2 : r2 = match fst (_run_once (Build_RunConfig 80 10000 [])
                                 (snd (_run_once (Build_RunConfig 80 5000 [])
                                         (fresh_lab, w))))
                    with Return r => r | _ => r2 end).
  { rewrite H1. cbn [snd].
    change (Z.min 100000 (5000 * terms_growth fresh_lab)) with 10000 in H2.
    rewrite H2. reflexivity. }
  assert (G2 : fst st2 = fst (snd (_run_once (Build_RunConfig 80 10000 [])
                                 (snd (_run_once (Build_RunConfig 80 5000 [])
                                         (fresh_lab, w)))))).
  { rewrite H1. cbn [snd].
    change (Z.min 100000 (5000 * terms_growth fresh_lab)) with 10000 in H2.
    rewrite H2. reflexivity. }
  destruct (cola_or_precision 220 100000 "PASS_STRICT" [] 80 5000 fresh_lab w
              r1 st1 r2 st2 (literal "1e-5") (literal "4e-6"))
    as (dps' & _ & Hnext & Hge & _).
  - left. reflexivity.
  - exact H1.
  - rewrite F1. vm_compute. reflexivity.
  - rewrite F1. vm_compute. reflexivity.
  - rewrite F1. vm_compute. reflexivity.
  - vm_compute. discriminate.
  - exact H2.
  - rewrite F2. vm_compute. reflexivity.
  - rewrite F2. vm_compute. reflexivity.
  - exists st2. rewrite Hnext.
    + rewrite Hge; [reflexivity | vm_compute; reflexivity].
    + rewrite G2. vm_compute. reflexivity.
Defined.

(** ** Stopping on a pass *)

Lemma iteration_pass1 max_dps max_terms stop_on extra dps terms st r1 st1 :
  _run_once (Build_RunConfig dps terms extra) st = (Return r1, st1) ->
  stop_check stop_on (status r1) = true ->
  iteration max_dps max_terms stop_on extra dps terms st
  = (Return (Break STOPPED_PASS), st1).
Proof.
  intros H1 S1. unfold iteration, bind, get_self, ret. now rewrite H1, S1.
Qed.

Lemma iteration_pass2 max_dps max_terms stop_on extra dps terms st
    r1 st1 e1 r2 st2 :
  _run_once (Build_RunConfig dps terms extra) st = (Return r1, st1) ->
  stop_check stop_on (status r1) = false ->
  rel_err r1 = Some e1 -> returncode r1 = 0 ->
  grow_terms (fst st1) max_terms terms <> terms ->
  _run_once (Build_RunConfig dps (grow_terms (fst st1) max_terms terms) extra)
            st1 = (Return r2, st2) ->
  stop_check stop_on (status r2) = true ->
  iteration max_dps max_terms stop_on extra dps terms st
  = (Return (Break STOPPED_PASS), st2).
Proof.
  intros H1 S1 E1 R1 G H2 S2.
  unfold iteration, bind, get_self, ret. rewrite H1, S1. step_iteration.
  rewrite E1, R1, Z.eqb_refl. step_iteration.
  destruct (Z.eqb_spec (grow_terms (fst st1) max_terms terms) terms);
    [contradiction|].
  step_iteration. now rewrite H2, S2.
Qed.

Lemma loop_break max_dps max_terms stop_on extra steps dps terms st s st' :
  iteration max_dps max_terms stop_on extra dps terms st = (Return (Break s), st') ->
  loop max_dps max_terms stop_on extra (S steps) dps terms st = (Return s, st').
Proof. intros H. simpl. unfold bind. now rewrite H. Qed.

(** A first line [rel_err = g] of the output is what the extractor
    reads. *)
Lemma parse_relerr_line g rest :
  g <> "" -> all_chars numchar g = true ->
  _parse_float RE_RELERR ("rel_err = " ++ g ++ nl ++ rest) = PyFloat.of_string g.
Proof.
  intros Hne Hg. unfold _parse_float.
  rewrite (search_first_match RE_RELERR _ g); [reflexivity|].
  exists 0%nat. split; [|intros j g' Hj; lia].
  apply matches_at_zero.
  exact (relerr_match_here " " " " g (nl ++ rest) eq_refl eq_refl Hne Hg eq_refl).
Qed.

Lemma best_by_single self qual r :
  _runs self = [r] -> qual r = true -> _best_by self qual = Some r.
Proof. intros Hr Hq. unfold _best_by. rewrite Hr. simpl. now rewrite Hq. Qed.

(** The scenario of a first trial that reports 1e-13. *)
Lemma run_first_trial_passes a self w p rest :
  _runs self = [] -> 0 < max_steps a ->
  stop_on a = "PASS_STRICT" \/ stop_on a = "PASS_GUERRILLA" ->
  float_exact (start_dps a) -> float_exact (start_terms a) ->
  w_proc w (List.length (w_launched w))
    (_build_cmd self (Build_RunConfig (start_dps a) (start_terms a)
                        (forwarded_args a))) = Exits p ->
  stdout p = ("rel_err = 1e-13" ++ nl ++ rest)%string ->
  w_writable w (out_json self) = true ->
  exists r report st',
    run a (self, w) = (Return report, st')
    /\ fst (run_loop a (self, w)) = Return STOPPED_PASS
    /\ runs report = [r]
    /\ best report = Some r
    /\ best_guerrilla report = Some r
    /\ rel_err r = Some (literal "1e-13")
    /\ status r = "PASS_STRICT"
    /\ read_file (w_files (snd st')) (out_json self) = Some report
    /\ w_launched (snd st')
       = _build_cmd self (Build_RunConfig (start_dps a) (start_terms a)
                            (forwarded_args a)) :: w_launched w.
Proof.
  intros Hfresh Hsteps Hstop Hd Ht Hp Hout Hwr.
  destruct (run_once_succeeds
              (Build_RunConfig (start_dps a) (start_terms a) (forwarded_args a))
              self w p Hp Hd Ht) as (r1 & st1 & H1).
  destruct (run_once_return _ _ _ _ _ H1)
    as (Hs & Hh & Hl & _ & Hst & p' & Hp' & Hrel & _).
  rewrite Hp in Hp'. injection Hp' as <-.
  assert (Erel : rel_err r1 = Some (literal "1e-13")).
  { rewrite Hrel. unfold output. rewrite Hout.
    change ("rel_err = 1e-13" ++ nl ++ rest)%string
      with ("rel_err = " ++ "1e-13" ++ nl ++ rest)%string.
    rewrite !append_assoc.
    change (("rel_err = " ++ "1e-13" ++ nl ++ rest ++ nl ++ stderr p)%string)
      with ("rel_err = " ++ "1e-13" ++ nl ++ (rest ++ nl ++ stderr p))%string.
    rewrite parse_relerr_line; [reflexivity | discriminate | reflexivity]. }
  assert (Est : status r1 = "PASS_STRICT") by (rewrite Hst, Erel; reflexivity).
  assert (S1 : stop_check (stop_on a) (status r1) = true)
    by (rewrite Est; now apply stop_check_strict).
  assert (Hloop : run_loop a (self, w) = (Return STOPPED_PASS, st1)).
  { unfold run_loop. destruct (Z.to_nat (max_steps a)) as [|n] eqn:En; [lia|].
    apply loop_break. eapply iteration_pass1; [exact H1 | exact S1]. }
  destruct st1 as [self1 w1]. cbn [fst snd] in *.
  destruct Hh as (_ & _ & Hwr1 & _ & Hfiles).
  assert (Hruns : _runs self1 = [r1]) by (rewrite Hs, Hfresh; reflexivity).
  assert (Hout1 : out_json self1 = out_json self) by (rewrite Hs; reflexivity).
  exists r1, (build_report self1 w1),
    (self1, with_file w1 (out_json self1) (build_report self1 w1)).
  rewrite run_unfold, Hloop. rewrite Hout1, Hwr1, Hwr. cbn [fst snd].
  conjs; auto.
  - simpl. apply best_by_single; [exact Hruns|].
    unfold is_strict. now rewrite Est.
  - simpl. apply best_by_single; [exact Hruns|].
    unfold is_pass. now rewrite Est.
  - simpl. now rewrite String.eqb_refl.
Qed.

Lemma stop_check_strict_iff st :
  stop_check "PASS_STRICT" st = true <-> st = "PASS_STRICT".
Proof.
  unfold stop_check. simpl. rewrite orb_false_r. apply String.eqb_eq.
Qed.

Lemma stop_check_guerrilla_iff st :
  stop_check "PASS_GUERRILLA" st = true
  <-> st = "PASS_STRICT" \/ st = "PASS_GUERRILLA".
Proof.
  unfold stop_check. simpl. rewrite orb_true_iff, !String.eqb_eq. tauto.
Qed.

(** C6. A first trial or a second probe whose tier meets the stop
    condition ends the loop in that very pass, in the state the trial left:
    no further trial is run.  Over a whole run, a recorded trial that meets
    the stop condition is the last of the log, and the loop was left by
    that pass.  The stop condition is PASS_STRICT under
    [stop_on = "PASS_STRICT"] and PASS_STRICT or PASS_GUERRILLA under
    [stop_on = "PASS_GUERRILLA"].  When the child of the first trial of a
    fresh lab prints [rel_err = 1e-13], the report lists that one trial and
    selects it as best-strict. *)
Theorem stop_ends_the_loop (a : RunArgs) (self : OuroborosLab) (w : World) :
  (forall steps dps terms st r1 st1,
     _run_once (Build_RunConfig dps terms (forwarded_args a)) st
     = (Return r1, st1) ->
     stop_check (stop_on a) (status r1) = true ->
     loop (max_dps a) (max_terms a) (stop_on a) (forwarded_args a)
          (S steps) dps terms st
     = (Return STOPPED_PASS, st1))
  /\ (forall steps dps terms st r1 st1 e1 r2 st2,
        _run_once (Build_RunConfig dps terms (forwarded_args a)) st
        = (Return r1, st1) ->
        stop_check (stop_on a) (status r1) = false ->
        rel_err r1 = Some e1 -> returncode r1 = 0 ->
        grow_terms (fst st1) (max_terms a) terms <> terms ->
        _run_once (Build_RunConfig dps (grow_terms (fst st1) (max_terms a) terms)
                     (forwarded_args a)) st1
        = (Return r2, st2) ->
        stop_check (stop_on a) (status r2) = true ->
        loop (max_dps a) (max_terms a) (stop_on a) (forwarded_args a)
             (S steps) dps terms st
        = (Return STOPPED_PASS, st2))
  /\ (exists new,
        _runs (fst (snd (run a (self, w)))) = _runs self ++ new
        /\ forall l1 x l2,
             new = l1 ++ x :: l2 ->
             stop_check (stop_on a) (status x) = true ->
             l2 = [] /\ fst (run_loop a (self, w)) = Return STOPPED_PASS)
  /\ (forall st, stop_check "PASS_STRICT" st = true <-> st = "PASS_STRICT")
  /\ (forall st, stop_check "PASS_GUERRILLA" st = true
                 <-> st = "PASS_STRICT" \/ st = "PASS_GUERRILLA")
  /\ (forall p rest,
        _runs self = [] -> 0 < max_steps a ->
        stop_on a = "PASS_STRICT" \/ stop_on a = "PASS_GUERRILLA" ->
        float_exact (start_dps a) -> float_exact (start_terms a) ->
        w_proc w (List.length (w_launched w))
          (_build_cmd self (Build_RunConfig (start_dps a) (start_terms a)
                              (forwarded_args a))) = Exits p ->
        stdout p = ("rel_err = 1e-13" ++ nl ++ rest)%string ->
        w_writable w (out_json self) = true ->
        exists r report st',
          run a (self, w) = (Return report, st')
          /\ fst (run_loop a (self, w)) = Return STOPPED_PASS
          /\ runs report = [r]
          /\ best report = Some r
          /\ best_guerrilla report = Some r
          /\ rel_err r = Some (literal "1e-13")
          /\ status r = "PASS_STRICT"
          /\ read_file (w_files (snd st')) (out_json self) = Some report
          /\ w_launched (snd st')
             = _build_cmd self (Build_RunConfig (start_dps a) (start_terms a)
                                  (forwarded_args a)) :: w_launched w).
Proof.
  split.
  { intros steps dps terms st r1 st1 H1 S1.
    apply loop_break. eapply iteration_pass1; eassumption. }
  split.
  { intros steps dps terms st r1 st1 e1 r2 st2 H1 S1 E1 R1 G H2 S2.
    apply loop_break. eapply iteration_pass2; eassumption. }
  split.
  { destruct (run_spec a self w) as (new & Hruns & _ & _ & Hlast & _).
    exists new. split; [exact Hruns | exact Hlast]. }
  split; [exact stop_check_strict_iff|].
  split; [exact stop_check_guerrilla_iff|].
  intros p rest. apply run_first_trial_passes.
Qed.

(** [stop_ends_the_loop] on a fresh lab and a child that prints
    [rel_err = 1e-13] at once: one trial, which is the best-strict one. *)
Lemma stop_ends_the_loop_witness :
  exists r report st',
    run default_args (fresh_lab, mock_world ("rel_err = 1e-13" ++ nl) 0)
    = (Return report, st')
    /\ runs report = [r] /\ best report = Some r.
Proof.
  pose (w := mock_world ("rel_err = 1e-13" ++ nl) 0).
  pose (p := {| stdout := ("rel_err = 1e-13" ++ nl)%string; stderr := "";
                p_returncode := 0 |}).
  destruct (proj2 (proj2 (proj2 (proj2 (proj2
              (stop_ends_the_loop default_args fresh_lab w))))) p "")
    as (r & report & st' & Hrun & _ & Hruns & Hbest & _).
  - reflexivity.
  - reflexivity.
  - left. reflexivity.
  - split; reflexivity.
  - split; reflexivity.
  - reflexivity.
  - reflexivity.
  - reflexivity.
  - exists r, report, st'. auto.
Defined.

(** ** Runs that return *)

Lemma in_range_exact self a dps terms :
  well_formed self a -> in_range a dps terms ->
  float_exact dps /\ float_exact terms.
Proof.
  unfold well_formed, in_range, float_exact.
  intros (Hb & Hg & Hsd & Hmd & Hst & Hmt) (Hd & Ht). lia.
Qed.

Lemma in_range_bump self a dps terms :
  well_formed self a -> in_range a dps terms ->
  in_range a (bump_dps self (max_dps a) dps) terms.
Proof.
  unfold well_formed, in_range, bump_dps.
  intros (Hb & Hg & Hsd & Hmd & Hst & Hmt) (Hd & Ht). lia.
Qed.

Lemma in_range_grow self a dps terms :
  well_formed self a -> in_range a dps terms ->
  in_range a dps (grow_terms self (max_terms a) terms).
Proof.
  unfold well_formed, in_range, grow_terms.
  intros (Hb & Hg & Hsd & Hmd & Hst & Hmt) (Hd & Ht).
  assert (0 <= terms * terms_growth self) by (apply Z.mul_nonneg_nonneg; lia).
  lia.
Qed.

Lemma well_formed_set_runs self a rs :
  well_formed self a -> well_formed (set_runs self rs) a.
Proof. intros H. exact H. Qed.

Lemma always_completes_same_host w w' :
  same_host w w' -> always_completes w -> always_completes w'.
Proof.
  intros (Hp & _) H k cmd. rewrite Hp. apply H.
Qed.

Lemma in_range_decide self a r1 r2 dps t2 :
  well_formed self a -> in_range a dps t2 ->
  in_range a (fst (cola_vs_precision self (max_dps a) r1 r2 dps t2))
             (snd (cola_vs_precision self (max_dps a) r1 r2 dps t2)).
Proof.
  intros Hwf Hin. rewrite cola_vs_precision_terms.
  unfold cola_vs_precision.
  destruct (_improvement_ratio (rel_err r1) (rel_err r2)) as [q|];
    [destruct (geb q (cola_ratio_threshold self))|]; cbn [fst];
    try exact Hin;
    (destruct (dps <? max_dps a); [now apply in_range_bump | exact Hin]).
Qed.

Lemma iteration_returns a dps terms st :
  well_formed (fst st) a -> always_completes (snd st) -> in_range a dps terms ->
  exists f st',
    iteration (max_dps a) (max_terms a) (stop_on a) (forwarded_args a)
              dps terms st = (Return f, st')
    /\ match f with
       | Next dps' terms' => in_range a dps' terms'
       | Break _ => True
       end.
Proof.
  intros Hwf Hal Hin.
  destruct (iteration_cases (max_dps a) (max_terms a) (stop_on a)
              (forwarded_args a) dps terms st) as [new Hout].
  destruct (iteration (max_dps a) (max_terms a) (stop_on a) (forwarded_args a)
              dps terms st) as [o st'].
  cbn [fst snd] in *. destruct st as [self w]. cbn [fst snd] in *.
  destruct (in_range_exact _ _ _ _ Hwf Hin) as [Hd Ht].
  destruct (Hal (List.length (w_launched w))
              (_build_cmd self (Build_RunConfig dps terms (forwarded_args a))))
    as [p Hp].
  destruct (run_once_succeeds (Build_RunConfig dps terms (forwarded_args a))
              self w p Hp Hd Ht) as (r1' & st1' & H1').
  inversion Hout; subst; clear Hout;
    try (rewrite H1' in H; discriminate);
    destruct (run_once_return _ _ _ _ _ H) as (Hs & Hh & _).
  - eexists. eexists. split; [reflexivity | exact I].
  - eexists. eexists. split; [reflexivity|].
    rewrite Hs. now apply (in_range_bump self).
  - eexists. eexists. split; [reflexivity|].
    rewrite Hs. now apply (in_range_bump self).
  - (* the second probe cannot raise *)
    exfalso. destruct st1 as [self1 w1]. cbn [fst snd] in *.
    assert (Hin2 : in_range a dps (grow_terms self1 (max_terms a) terms))
      by (rewrite Hs; now apply (in_range_grow self)).
    destruct (in_range_exact self _ _ _ Hwf Hin2) as [Hd2 Ht2].
    destruct (always_completes_same_host _ _ Hh Hal (List.length (w_launched w1))
                (_build_cmd self1 (Build_RunConfig dps
                   (grow_terms self1 (max_terms a) terms) (forwarded_args a))))
      as [p2 Hp2].
    destruct (run_once_succeeds _ self1 w1 p2 Hp2 Hd2 Ht2) as (r2' & st2' & H2').
    rewrite H2' in H4. discriminate.
  - eexists. eexists. split; [reflexivity | exact I].
  - destruct st1 as [self1 w1]. cbn [fst snd] in *.
    destruct (run_once_return _ _ _ _ _ H4) as (Hs2 & _).
    eexists. eexists. split; [reflexivity|].
    assert (Hin2 : in_range a dps (grow_terms self1 (max_terms a) terms))
      by (rewrite Hs; now apply (in_range_grow self)).
    assert (Hwf2 : well_formed (fst st') a) by (rewrite Hs2, Hs; exact Hwf).
    pose proof (in_range_decide (fst st') a r1 r2 dps _ Hwf2 Hin2) as Hdec.
    unfold stagnation_switch.
    destruct (_stagnating (fst st')); [|exact Hdec].
    match goal with
    | |- context [if ?d <? max_dps a then _ else _] => destruct (d <? max_dps a)
    end; [now apply in_range_bump|].
    match goal with
    | |- context [if ?t <? max_terms a then _ else _] => destruct (t <? max_terms a)
    end; [now apply in_range_grow | exact I].
  - (* the second probe cannot hang *)
    exfalso. destruct st1 as [self1 w1]. cbn [fst snd] in *.
    assert (Hin2 : in_range a dps (grow_terms self1 (max_terms a) terms))
      by (rewrite Hs; now apply (in_range_grow self)).
    destruct (in_range_exact self _ _ _ Hwf Hin2) as [Hd2 Ht2].
    destruct (always_completes_same_host _ _ Hh Hal (List.length (w_launched w1))
                (_build_cmd self1 (Build_RunConfig dps
                   (grow_terms self1 (max_terms a) terms) (forwarded_args a))))
      as [p2 Hp2].
    destruct (run_once_succeeds _ self1 w1 p2 Hp2 Hd2 Ht2) as (r2' & st2' & H2').
    rewrite H2' in H4. discriminate.
Qed.

Lemma loop_returns a steps :
  forall dps terms st,
    well_formed (fst st) a -> always_completes (snd st) -> in_range a dps terms ->
    exists s st',
      loop (max_dps a) (max_terms a) (stop_on a) (forwarded_args a)
           steps dps terms st = (Return s, st').
Proof.
  induction steps as [|steps IH]; intros dps terms st Hwf Hal Hin.
  - simpl. unfold ret. eauto.
  - destruct (iteration_returns a dps terms st Hwf Hal Hin) as (f & st' & Hit & Hf).
    destruct (iteration_spec (max_dps a) (max_terms a) (stop_on a)
                (forwarded_args a) dps terms st) as (new & Hs & Hh & _).
    rewrite Hit in Hs, Hh. cbn [fst snd] in *.
    simpl loop. unfold bind. rewrite Hit.
    destruct f as [s | dps' terms'].
    + unfold ret. eauto.
    + apply IH; [rewrite Hs; exact Hwf | | exact Hf].
      eapply always_completes_same_host; eassumption.
Qed.

Lemma in_range_start a :
  in_range a (start_dps a) (start_terms a) <-> 0 <= start_terms a.
Proof. unfold in_range. lia. Qed.


(** ** A child that never improves *)

Lemma best_by_none self qual :
  Forall (fun r => qual r = false) (_runs self) -> _best_by self qual = None.
Proof.
  intros H. unfold _best_by.
  replace (filter qual (_runs self)) with (@nil RunResult); [reflexivity|].
  induction H as [|r l Hr _ IH]; simpl; [reflexivity|]. now rewrite Hr.
Qed.

Lemma parse_output_line p g rest :
  stdout p = ("rel_err = " ++ g ++ nl ++ rest)%string ->
  g <> "" -> all_chars numchar g = true ->
  _parse_float RE_RELERR (output p) = PyFloat.of_string g.
Proof.
  intros Hout Hne Hg. unfold output. rewrite Hout, !append_assoc.
  change (("rel_err = " ++ g ++ nl ++ rest ++ nl ++ stderr p)%string)
    with ("rel_err = " ++ g ++ nl ++ (rest ++ nl ++ stderr p))%string.
  now apply parse_relerr_line.
Qed.

Lemma well_formed_defaults n cmd hash out :
  well_formed (new_lab cmd hash out) (with_max_steps default_args n).
Proof. unfold well_formed, float_exact. simpl. lia. Qed.

(** C8, as the code has it.  Against a child that always prints
    [rel_err = 1e-5], a run of a fresh lab with [max_steps = 5] returns its
    report, having left the loop by the exhaustion of the budget or by
    cannot-grow, after at most five passes of at most two trials each: the
    report lists at most 10 trials, all of them FAIL, and has neither a
    best-strict nor a best-guerrilla selection.  With the default start
    values and ceilings it lists 8 trials and the loop is left by
    cannot-grow in the fourth pass. *)
Theorem never_improving_run (a : RunArgs) (self : OuroborosLab) (w : World) :
  _runs self = [] -> max_steps a = 5 -> well_formed self a ->
  w_writable w (out_json self) = true ->
  (forall k cmd, exists p rest,
      w_proc w k cmd = Exits p
      /\ stdout p = ("rel_err = 1e-5" ++ nl ++ rest)%string) ->
  (exists report st',
     run a (self, w) = (Return report, st')
     /\ (fst (run_loop a (self, w)) = Return STOPPED_BUDGET
         \/ fst (run_loop a (self, w)) = Return STOPPED_CANNOT_GROW)
     /\ (List.length (runs report) <= 10)%nat
     /\ Forall (fun r => rel_err r = Some (literal "1e-5") /\ status r = "FAIL")
               (runs report)
     /\ best report = None
     /\ best_guerrilla report = None
     /\ read_file (w_files (snd st')) (out_json self) = Some report)
  /\ trials_recorded (fst never_improving) = Some 8%nat
  /\ fst (run_loop (with_max_steps default_args 5)
            (fresh_lab, mock_world ("rel_err = 1e-5" ++ nl) 0))
     = Return STOPPED_CANNOT_GROW.
Proof.
  intros Hfresh Hsteps Hwf Hwr Hchild.
  split; [|split; vm_compute; reflexivity].
  assert (Hal : always_completes w).
  { intros k cmd. destruct (Hchild k cmd) as (p & _ & Hp & _). eauto. }
  assert (Hin : in_range a (start_dps a) (start_terms a)).
  { apply in_range_start. destruct Hwf as (_ & _ & _ & _ & Hst & _). lia. }
  destruct (loop_returns a (Z.to_nat (max_steps a)) (start_dps a) (start_terms a)
              (self, w) Hwf Hal Hin) as (s & [self1 w1] & Hloop).
  destruct (loop_spec (max_dps a) (max_terms a) (stop_on a) (forwarded_args a)
              (Z.to_nat (max_steps a)) (start_dps a) (start_terms a) (self, w))
    as (new & Hs & Hh & Hl & Hc & Hp & Hn).
  rewrite Hloop in Hs, Hh, Hp, Hn. cbn [fst snd] in Hs, Hh, Hc, Hp, Hn.
  rewrite Hfresh in Hs. simpl app in Hs.
  assert (Hall : Forall (fun r => rel_err r = Some (literal "1e-5")
                                  /\ status r = "FAIL") new).
  { eapply Forall_impl; [|exact Hc].
    intros x (Hst & k & cmd & p & Hp' & Hrel & _).
    destruct (Hchild k cmd) as (p'' & rest & Hp'' & Hout).
    rewrite Hp' in Hp''. injection Hp'' as <-.
    assert (E : rel_err x = Some (literal "1e-5")).
    { rewrite Hrel.
      rewrite (parse_output_line p "1e-5" rest Hout); [reflexivity | discriminate | reflexivity]. }
    split; [exact E|]. rewrite Hst, E. reflexivity. }
  assert (Hnp : s <> STOPPED_PASS).
  { intros ->. destruct (Hp eq_refl) as (l1 & x & -> & Hx & _).
    apply Forall_elt in Hall. destruct Hall as [_ Hst].
    rewrite Hst, stop_check_fail in Hx. discriminate. }
  destruct Hh as (_ & _ & Hwr1 & _ & Hfiles).
  exists (build_report self1 w1),
    (self1, with_file w1 (out_json self1) (build_report self1 w1)).
  rewrite run_unfold. unfold run_loop. rewrite Hloop. subst self1.
  change (out_json (set_runs self new)) with (out_json self).
  rewrite Hwr1, Hwr. cbn [fst snd]. conjs.
  - reflexivity.
  - destruct s; [contradiction | left | right]; reflexivity.
  - simpl. rewrite Hsteps in Hl. exact Hl.
  - exact Hall.
  - simpl. apply best_by_none. simpl.
    eapply Forall_impl; [|exact Hall]. intros r [_ Hst].
    unfold is_strict. now rewrite Hst.
  - simpl. apply best_by_none. simpl.
    eapply Forall_impl; [|exact Hall]. intros r [_ Hst].
    unfold is_pass. now rewrite Hst.
  - simpl. now rewrite String.eqb_refl.
Qed.

(** [never_improving_run] on the mock child that always prints
    [rel_err = 1e-5]. *)
Lemma never_improving_run_witness :
  exists report st',
    never_improving = (Return report, st')
    /\ (List.length (runs report) <= 10)%nat
    /\ best report = None /\ best_guerrilla report = None.
Proof.
  destruct (proj1 (never_improving_run (with_max_steps default_args 5) fresh_lab
                     (mock_world ("rel_err = 1e-5" ++ nl) 0)
                     eq_refl eq_refl (well_formed_defaults 5 _ _ _) eq_refl
                     (fun _ _ => ex_intro _ _ (ex_intro _ "" (conj eq_refl eq_refl)))))
    as (report & st' & Hrun & _ & Hlen & _ & Hb & Hg & _).
  exists report, st'. unfold never_improving. auto.
Defined.

(** C8, as stated, fails: with the default start values and ceilings the
    report of that run lists 8 trials, more than 5. *)
Lemma never_improving_trials_counterexample :
  ~ (forall report st',
       never_improving = (Return report, st') ->
       (List.length (runs report) <= 5)%nat
       /\ best report = None /\ best_guerrilla report = None).
Proof.
  intros H.
  assert (F : trials_recorded (fst never_improving) = Some 8%nat)
    by (vm_compute; reflexivity).
  destruct never_improving as [[report | e |] st'] eqn:E; [|discriminate|discriminate].
  destruct (H report st' eq_refl) as [Hlen _].
  simpl in F. injection F as F. lia.
Qed.

(** ** The runs of one pass and of the loop *)

(** The log after a pass, and the configurations of the runs it appended. *)
Lemma outcome_shape max_dps max_terms stop_on extra dps terms st o st' new :
  iteration_outcome max_dps max_terms stop_on extra dps terms st o st' new ->
  fst st' = set_runs (fst st) (_runs (fst st) ++ new)
  /\ ((new = [] /\ forall f, o <> Return f)
      \/ (exists r1, new = [r1] /\ config r1 = Build_RunConfig dps terms extra)
      \/ (exists r1 r2,
            new = [r1; r2]
            /\ config r1 = Build_RunConfig dps terms extra
            /\ config r2 = Build_RunConfig dps
                 (grow_terms (fst st) max_terms terms) extra)).
Proof.
  intros Hout. destruct st as [self w].
  inversion Hout; subst; clear Hout;
    try (destruct (run_once_return _ _ _ _ _ H) as (Hs & _ & _ & Hc & _));
    try (destruct st1 as [self1 w1]);
    try (destruct (run_once_return _ _ _ _ _ H4) as (Hs2 & _ & _ & Hc2 & _));
    cbn [fst snd] in *.
  - destruct (run_once_raise _ _ _ _ _ H) as [-> _].
    split; [destruct self; simpl; now rewrite app_nil_r|].
    left. split; [reflexivity | discriminate].
  - split; [exact Hs | eauto].
  - split; [exact Hs | eauto].
  - split; [exact Hs | eauto].
  - destruct (run_once_raise _ _ _ _ _ H4) as [-> _].
    split; [exact Hs | eauto].
  - split; [rewrite Hs2, Hs; simpl; now rewrite <- app_assoc|].
    right. right. exists r1, r2. rewrite Hc2, Hs. auto.
  - split; [rewrite Hs2, Hs; simpl; now rewrite <- app_assoc|].
    right. right. exists r1, r2. rewrite Hc2, Hs. auto.
  - destruct (run_once_hang _ _ _ _ H) as [-> _].
    split; [destruct self; simpl; now rewrite app_nil_r|].
    left. split; [reflexivity | discriminate].
  - destruct (run_once_hang _ _ _ _ H4) as [-> _].
    split; [exact Hs | eauto].
Qed.

(** A pass that does not raise has run its first trial. *)
Lemma outcome_first_trial max_dps max_terms stop_on extra dps terms st f st' new :
  iteration_outcome max_dps max_terms stop_on extra dps terms st (Return f) st' new ->
  (1 <= List.length new <= 2)%nat.
Proof.
  intros Hout. inversion Hout; subst; simpl; lia.
Qed.

(** The pass breaks only on a pass or on cannot-grow; on cannot-grow the
    log is stagnating and the second probe ran at the ceiling of the
    terms. *)
Lemma outcome_break max_dps max_terms stop_on extra d t st s st' new :
  iteration_outcome max_dps max_terms stop_on extra d t st
    (Return (Break s)) st' new ->
  s = STOPPED_PASS
  \/ (s = STOPPED_CANNOT_GROW
      /\ _stagnating (fst st') = true
      /\ exists l r, new = l ++ [r] /\ max_terms <= terms (config r)).
Proof.
  intros Hout. destruct st as [self w].
  pose proof (outcome_shape _ _ _ _ _ _ _ _ _ _ Hout) as (_ & Hshape).
  inversion Hout as [ | | | | | | r1 st1 e1 r2 st2 H1 S1 E1 R1 G H2 S2 Hsw | | ];
    subst; auto.
  right.
  destruct Hshape as [[E _] | [(r & E & _) | (r1' & r2' & E & _ & C2)]];
    try discriminate.
  injection E as <- <-.
  revert Hsw. unfold stagnation_switch.
  rewrite cola_vs_precision_terms.
  destruct (_stagnating (fst st')); [|discriminate].
  destruct (_ <? max_dps); [discriminate|].
  destruct (Z.ltb_spec (grow_terms (fst st1) max_terms t) max_terms);
    [discriminate|].
  intros E. injection E as <-. split; [reflexivity|]. split; [reflexivity|].
  exists [r1], r2. split; [reflexivity|].
  rewrite C2. cbn [terms].
  destruct (run_once_return _ _ _ _ _ H1) as (Hs & _).
  cbn [fst] in *. rewrite Hs in H. exact H.
Qed.

(** How many runs the loop appends, by the way it is left. *)
Lemma loop_counts max_dps max_terms stop_on extra steps :
  forall d t st,
    let r := loop max_dps max_terms stop_on extra steps d t st in
    exists new,
      _runs (fst (snd r)) = _runs (fst st) ++ new
      /\ (forall s, fst r = Return s -> steps <> O -> new <> [])
      /\ (fst r = Return STOPPED_BUDGET -> (steps <= List.length new)%nat)
      /\ (fst r = Return STOPPED_CANNOT_GROW ->
          _stagnating (fst (snd r)) = true
          /\ exists l x, new = l ++ [x] /\ max_terms <= terms (config x)).
Proof.
  induction steps as [|steps IH]; intros d t st; cbv zeta.
  - exists []. simpl. rewrite app_nil_r. conjs; auto; try discriminate.
  - destruct (iteration_cases max_dps max_terms stop_on extra d t st)
      as [new1 Hout].
    pose proof (outcome_shape _ _ _ _ _ _ _ _ _ _ Hout) as (Hs1 & _).
    simpl loop. unfold bind.
    destruct (iteration max_dps max_terms stop_on extra d t st)
      as [[[s | d' t'] | e |] st1]; cbn [fst snd] in *.
    + (* break *)
      exists new1. unfold ret. cbn [fst snd]. rewrite Hs1. split; [reflexivity|].
      pose proof (outcome_first_trial _ _ _ _ _ _ _ _ _ _ Hout) as Hlen.
      destruct (outcome_break _ _ _ _ _ _ _ _ _ _ Hout)
        as [-> | (-> & Hstag & Hlast)].
      * conjs; try discriminate.
        intros s _ _ ->. simpl in Hlen. lia.
      * conjs; try discriminate.
        -- intros s _ _ ->. simpl in Hlen. lia.
        -- intros _. rewrite <- Hs1. auto.
    + (* next pass *)
      pose proof (outcome_first_trial _ _ _ _ _ _ _ _ _ _ Hout) as Hlen.
      destruct (IH d' t' st1) as (new2 & Hs2 & _ & Hb2 & Hc2).
      destruct (loop max_dps max_terms stop_on extra steps d' t' st1)
        as [o st2]; cbn [fst snd] in *.
      exists (new1 ++ new2). conjs.
      * rewrite Hs2, Hs1. simpl. now rewrite app_assoc.
      * intros s _ _ E. apply app_eq_nil in E. destruct E as [-> _].
        simpl in Hlen. lia.
      * intros E. specialize (Hb2 E). rewrite length_app. lia.
      * intros E. destruct (Hc2 E) as (Hst & l & x & -> & Hx).
        split; [exact Hst|]. exists (new1 ++ l), x. now rewrite app_assoc.
    + (* an exception *)
      exists new1. cbn [fst snd]. rewrite Hs1. conjs; auto; try discriminate.
    + (* a child that never exits *)
      exists new1. cbn [fst snd]. rewrite Hs1. conjs; auto; try discriminate.
Qed.

(** ** Termination and the report file *)

Lemma run_loop_spec a self w :
  exists new,
    _runs (fst (snd (run_loop a (self, w)))) = _runs self ++ new
    /\ (fst (run_loop a (self, w)) = Return STOPPED_PASS ->
        exists l1 x, new = l1 ++ [x]
                     /\ stop_check (stop_on a) (status x) = true)
    /\ (fst (run_loop a (self, w)) <> Return STOPPED_PASS ->
        Forall (no_stop (stop_on a)) new).
Proof.
  unfold run_loop.
  destruct (loop_spec (max_dps a) (max_terms a) (stop_on a) (forwarded_args a)
              (Z.to_nat (max_steps a)) (start_dps a) (start_terms a) (self, w))
    as (new & Hs & _ & _ & _ & Hp & Hn).
  cbn [fst snd] in *. exists new. rewrite Hs. split; [reflexivity|].
  split; [|exact Hn].
  intros E. destruct (Hp E) as (l1 & x & Hnew & Hx & _). eauto.
Qed.








(** * Further properties of the code *)

(** ** Numbers read from a text are not NaN *)

Lemma shr_1_nonneg mrs : 0 <= shr_m mrs -> 0 <= shr_m (shr_1 mrs).
Proof.
  destruct mrs as [m r s]. simpl.
  destruct m as [|[p|p|]|p]; simpl; lia.
Qed.

Lemma iter_shr_1_nonneg p mrs :
  0 <= shr_m mrs -> 0 <= shr_m (iter_pos shr_1 p mrs).
Proof.
  revert mrs. induction p as [p IH | p IH |]; intros mrs H; simpl.
  - apply IH, IH, shr_1_nonneg, H.
  - apply IH, IH, H.
  - apply shr_1_nonneg, H.
Qed.

Lemma shr_nonneg mrs e n : 0 <= shr_m mrs -> 0 <= shr_m (fst (shr mrs e n)).
Proof.
  intros H. unfold shr. destruct n; simpl; auto. now apply iter_shr_1_nonneg.
Qed.

Lemma shr_fexp_nonneg m e l :
  0 <= m -> 0 <= shr_m (fst (shr_fexp prec emax m e l)).
Proof.
  intros H. unfold shr_fexp. apply shr_nonneg. destruct l as [|[]]; exact H.
Qed.

Lemma round_nearest_even_nonneg m l : 0 <= m -> 0 <= round_nearest_even m l.
Proof.
  intros H. unfold round_nearest_even. z_ops.
  destruct l as [|[]]; try lia. destruct (Z.even m); lia.
Qed.

(** Rounding a non-negative mantissa never gives a NaN. *)
Lemma binary_round_aux_not_nan sx mx ex lx :
  0 <= mx -> is_nan (binary_round_aux prec emax sx mx ex lx) = false.
Proof.
  intros H. unfold binary_round_aux.
  pose proof (shr_fexp_nonneg mx ex lx H) as H1.
  destruct (shr_fexp prec emax mx ex lx) as [mrs' e']. cbn [fst] in H1.
  pose proof (shr_fexp_nonneg _ e' loc_Exact
                (round_nearest_even_nonneg _ (loc_of_shr_record mrs') H1)) as H2.
  destruct (shr_fexp prec emax
              (round_nearest_even (shr_m mrs') (loc_of_shr_record mrs')) e'
              loc_Exact) as [mrs'' e'']. cbn [fst] in H2.
  destruct (shr_m mrs'') as [|m|m]; [reflexivity | | lia].
  destruct (IntDef.Z.leb e'' (IntDef.Z.sub emax prec)); reflexivity.
Qed.

Lemma binary_normalize_not_nan z : is_nan (binary_normalize prec emax z 0 false) = false.
Proof.
  unfold binary_normalize, binary_round.
  destruct z as [|p|p]; [reflexivity| |];
    match goal with
    | |- context [shl_align ?m ?e ?e'] => destruct (shl_align m e e') as [mz ez]
    end; apply binary_round_aux_not_nan; lia.
Qed.

Lemma div_finite_not_nan s1 m1 e1 s2 m2 e2 :
  is_nan (div (S754_finite s1 m1 e1) (S754_finite s2 m2 e2)) = false.
Proof.
  unfold div, SFdiv, SFdiv_core_binary.
  match goal with
  | |- context [Z.div_eucl ?a ?b] =>
      pose proof (Z.div_eucl_eq a b ltac:(discriminate)) as Heq;
      pose proof (Z_div_mod a b ltac:(reflexivity)) as Hmod;
      assert (Ha : 0 <= a); [| destruct (Z.div_eucl a b) as [q r] eqn:E ]
  end.
  - match goal with
    | |- 0 <= match ?s with _ => _ end => destruct s
    end; try lia. apply Z.shiftl_nonneg. lia.
  - apply binary_round_aux_not_nan.
    destruct Hmod as [Hm1 Hm2]. nia.
Qed.

Lemma of_decimal_not_nan neg m e10 : is_nan (of_decimal neg m e10) = false.
Proof.
  unfold of_decimal. destruct m as [|p|p]; try reflexivity.
  destruct (0 <=? e10).
  - apply binary_normalize_not_nan.
  - apply div_finite_not_nan.
Qed.

(** [float] of a text never gives a NaN: a text that is a number denotes
    zero, a finite value or an infinity. *)
Lemma of_string_not_nan s f : PyFloat.of_string s = Some f -> is_nan f = false.
Proof.
  unfold PyFloat.of_string.
  destruct (sign s) as [neg s1].
  destruct (digits s1 0 0) as [[ip ni] s2].
  destruct (match s2 with
            | String "." s2' => digits s2' ip 0
            | _ => (ip, 0, s2)
            end) as [[m nf] s3].
  destruct (ni + nf =? 0); [discriminate|].
  destruct s3 as [|c s4].
  - intros H. injection H as <-. apply of_decimal_not_nan.
  - destruct (is_exp_mark c); [|discriminate].
    destruct (sign s4) as [eneg s5].
    destruct (digits s5 0 0) as [[ev ne] s6].
    destruct (ne =? 0); [discriminate|].
    destruct s6; [|discriminate].
    intros H. injection H as <-. apply of_decimal_not_nan.
Qed.

Lemma digits_stops s acc n :
  stops is_digit s = true -> digits s acc n = (acc, n, s).
Proof.
  destruct s as [|c s']; simpl; [reflexivity|].
  destruct (is_digit c); [discriminate | reflexivity].
Qed.

Lemma all_chars_stops f s : all_chars (fun c => negb (f c)) s = true -> stops f s = true.
Proof.
  destruct s as [|c s']; simpl; [reflexivity|].
  intros H. apply andb_true_iff in H. tauto.
Qed.

Lemma all_chars_tail f c s : all_chars f (String c s) = true -> all_chars f s = true.
Proof. simpl. intros H. apply andb_true_iff in H. tauto. Qed.

(** A text without a digit is not a number. *)
Lemma of_string_no_digit s :
  all_chars (fun c => negb (is_digit c)) s = true -> PyFloat.of_string s = None.
Proof.
  intros H. unfold PyFloat.of_string.
  assert (Hs : forall t, all_chars (fun c => negb (is_digit c)) t = true ->
                         all_chars (fun c => negb (is_digit c)) (snd (sign t)) = true).
  { intros t Ht. destruct t as [|c t']; [exact Ht|].
    unfold sign.
    destruct (Ascii.eqb_spec c "-") as [->|]; [now apply all_chars_tail in Ht|].
    destruct (Ascii.eqb_spec c "+") as [->|]; [now apply all_chars_tail in Ht|].
    destruct c as [[] [] [] [] [] [] [] []]; try exact Ht; congruence. }
  specialize (Hs s H). destruct (sign s) as [neg s1]. cbn [snd] in Hs.
  rewrite (digits_stops s1 0 0 (all_chars_stops _ _ Hs)).
  destruct s1 as [|c s1']; [reflexivity|].
  destruct (Ascii.eqb_spec c ".") as [->|Hc].
  - apply all_chars_tail in Hs.
    rewrite (digits_stops s1' 0 0 (all_chars_stops _ _ Hs)). reflexivity.
  - assert (E : match String c s1' with
                | String "." s2' => digits s2' 0 0
                | _ => (0, 0, String c s1')
                end = (0, 0, String c s1')).
    { destruct c as [[] [] [] [] [] [] [] []]; try reflexivity. congruence. }
    rewrite E. reflexivity.
Qed.

(** ** Slices of the output and the record of a trial *)

Lemma substring_prefix n s :
  exists rest, s = (substring 0 n s ++ rest)%string
               /\ String.length (substring 0 n s) = Nat.min n (String.length s).
Proof.
  revert n. induction s as [|c s IH]; intros [|n]; simpl.
  - exists "". auto.
  - exists "". auto.
  - exists (String c s). auto.
  - destruct (IH n) as (rest & E & L). exists rest. split; [now rewrite <- E | now rewrite L].
Qed.

Lemma slice_to_prefix s n :
  exists rest, s = (PyStr.slice_to s n ++ rest)%string.
Proof.
  unfold PyStr.slice_to.
  destruct (substring_prefix
              (Z.to_nat (if n <? 0 then Z.max 0 (Z.of_nat (String.length s) + n)
                         else Z.min n (Z.of_nat (String.length s)))) s)
    as (rest & E & _). eauto.
Qed.

Lemma slice_to_length s n :
  0 <= n ->
  Z.of_nat (String.length (PyStr.slice_to s n)) = Z.min n (Z.of_nat (String.length s)).
Proof.
  intros Hn. unfold PyStr.slice_to.
  destruct (Z.ltb_spec n 0); [lia|].
  destruct (substring_prefix (Z.to_nat (Z.min n (Z.of_nat (String.length s)))) s)
    as (rest & _ & L).
  rewrite L. lia.
Qed.

Lemma slice_to_negative s n :
  n < 0 ->
  Z.of_nat (String.length (PyStr.slice_to s n))
  = Z.max 0 (Z.of_nat (String.length s) + n).
Proof.
  intros Hn. unfold PyStr.slice_to.
  destruct (Z.ltb_spec n 0); [|lia].
  destruct (substring_prefix
              (Z.to_nat (Z.max 0 (Z.of_nat (String.length s) + n))) s)
    as (rest & _ & L).
  rewrite L. lia.
Qed.

(** What a trial that returns has recorded and done. *)
Lemma run_once_record cfg self w rr st1 :
  _run_once cfg (self, w) = (Return rr, st1) ->
  exists p,
    w_proc w (List.length (w_launched w)) (_build_cmd self cfg) = Exits p
    /\ config rr = cfg
    /\ returncode rr = p_returncode p
    /\ time_s rr = sub (w_clock w (S (w_ticks w))) (w_clock w (w_ticks w))
    /\ stdout_trunc rr = PyStr.slice_to (output p) (max_stdout_chars self)
    /\ rel_err rr = _parse_float RE_RELERR (output p)
    /\ abs_err rr = _parse_float RE_ABSERR (output p)
    /\ status rr = fst (classify (rel_err rr))
    /\ meaning rr = snd (classify (rel_err rr))
    /\ cost_proxy (time_s rr) (dps cfg) (terms cfg) = Return (cost rr)
    /\ w_ticks (snd st1) = S (S (w_ticks w))
    /\ w_launched (snd st1) = _build_cmd self cfg :: w_launched w.
Proof.
  unfold _run_once, bind, get_self, time_time, subprocess_run, lift,
    append_run, ret, call_build_cmd.
  cbn -[output classify cost_proxy _parse_float str_accepts].
  destruct (str_accepts (dps cfg) && str_accepts (terms cfg));
    cbn -[output classify cost_proxy _parse_float str_accepts];
    [|discriminate].
  destruct (w_proc w (List.length (w_launched w)) (_build_cmd self cfg))
    as [e | p |] eqn:Hp; cbn -[output classify cost_proxy _parse_float];
    [discriminate| |discriminate].
  destruct (cost_proxy _ (dps cfg) (terms cfg)) as [c | e |] eqn:Hc;
    cbn -[output classify cost_proxy _parse_float];
    [|discriminate|discriminate].
  intros H. injection H as <- <-. exists p.
  cbn -[output classify cost_proxy _parse_float]. repeat split. exact Hc.
Qed.

(** ** The cost proxy, the extractor and the classifier *)

(** X1. [cost_proxy] returns a cost for every duration when [dps] and
    [terms] are integers a float holds exactly; the only exception it
    raises is OverflowError, and only when one of the two integers does
    not convert to a float, as [dps = 2^1024] does not. *)
Theorem cost_proxy_overflow_only (time_s : float) (d t : Z) :
  (float_exact d -> float_exact t -> exists c, cost_proxy time_s d t = Return c)
  /\ (forall e, cost_proxy time_s d t = Raise e ->
        e = OverflowError
        /\ (PyFloat.of_int d = None \/ PyFloat.of_int t = None))
  /\ cost_proxy time_s (2 ^ 1024) t = Raise OverflowError.
Proof.
  split; [|split].
  - intros Hd Ht. unfold cost_proxy.
    destruct (PyFloat.of_int d) eqn:Ed; [|now apply of_int_small in Ed].
    destruct (PyFloat.of_int t) eqn:Et; [|now apply of_int_small in Et].
    eauto.
  - intros e. unfold cost_proxy.
    destruct (PyFloat.of_int d); [|intros H; injection H as <-; auto].
    destruct (PyFloat.of_int t); [discriminate|].
    intros H; injection H as <-; auto.
  - unfold cost_proxy.
    replace (PyFloat.of_int (2 ^ 1024)) with (@None float)
      by (vm_compute; reflexivity).
    reflexivity.
Qed.

(** [cost_proxy_overflow_only] on the default start values. *)
Lemma cost_proxy_overflow_only_witness :
  exists c, cost_proxy (literal "1.5") 80 5000 = Return c.
Proof.
  apply (proj1 (cost_proxy_overflow_only (literal "1.5") 80 5000));
    unfold float_exact; lia.
Defined.

(** X2. A value that [_parse_float] returns for a label pattern (the
    six patterns of the source are such) is never a NaN, whatever the
    text: the group holds number characters only.  Hence the status of a
    parsed relative error is FAIL exactly when the error is at least
    1e-7, and PASS_STRICT exactly when it is below 1e-12. *)
Theorem parsed_value_never_nan (name : string) (gap : ascii -> bool)
    (text : string) (e : float) :
  _parse_float (label name gap) text = Some e ->
  is_nan e = false
  /\ (fst (classify (Some e)) = "FAIL" <-> leb WARN_TOL e = true)
  /\ (fst (classify (Some e)) = "PASS_STRICT" <-> ltb e PASS_STRICT = true).
Proof.
  unfold _parse_float.
  destruct (search (label name gap) text) as [g|]; [|discriminate].
  intros Hg. apply of_string_not_nan in Hg.
  destruct thresholds_increase as [H12 H23].
  split; [exact Hg|]. rewrite classify_some_status. split.
  - split.
    + destruct (ltb e PASS_STRICT); [discriminate|].
      destruct (ltb e PASS_GUERR); [discriminate|].
      destruct (ltb e WARN_TOL) eqn:E; [discriminate|]. intros _.
      apply not_ltb_leb; auto.
    + intros H.
      assert (E3 : ltb e WARN_TOL = false) by now apply leb_not_ltb.
      assert (E2 : ltb e PASS_GUERR = false).
      { destruct (ltb e PASS_GUERR) eqn:E; [|reflexivity].
        rewrite (ltb_trans _ _ _ E H23) in E3. discriminate. }
      assert (E1 : ltb e PASS_STRICT = false).
      { destruct (ltb e PASS_STRICT) eqn:E; [|reflexivity].
        rewrite (ltb_trans _ _ _ E H12) in E2. discriminate. }
      now rewrite E1, E2, E3.
  - destruct (ltb e PASS_STRICT); [tauto|].
    destruct (ltb e PASS_GUERR); [split; discriminate|].
    destruct (ltb e WARN_TOL); split; discriminate.
Qed.

(** [parsed_value_never_nan] on the line [rel_err = 1e-5]. *)
Lemma parsed_value_never_nan_witness :
  _parse_float RE_RELERR "rel_err = 1e-5" = Some (literal "1e-5")
  /\ is_nan (literal "1e-5") = false.
Proof.
  assert (H : _parse_float RE_RELERR "rel_err = 1e-5" = Some (literal "1e-5"))
    by (vm_compute; reflexivity).
  split; [exact H|].
  exact (proj1 (parsed_value_never_nan "rel_err" space "rel_err = 1e-5" _ H)).
Defined.

Lemma search_here p text g :
  match_here p text = Some g -> search p text = Some g.
Proof. intros H. destruct text; cbn [search]; rewrite H; reflexivity. Qed.

(** X3. When the text starts with the label [rel_err], an equals sign
    and a run of number characters without any digit (a lone sign or
    dot, say), the result is absent, whatever follows: the failed
    conversion is swallowed, and a well-formed occurrence further down
    the text is not looked for. *)
Theorem malformed_number_is_absent (ws1 ws2 g rest : string) :
  all_chars space ws1 = true -> all_chars space ws2 = true ->
  g <> "" -> all_chars numchar g = true ->
  all_chars (fun c => negb (is_digit c)) g = true ->
  stops numchar rest = true ->
  _parse_float RE_RELERR ("rel_err" ++ ws1 ++ "=" ++ ws2 ++ g ++ rest) = None.
Proof.
  intros H1 H2 Hg Hn Hd Hr. unfold _parse_float.
  rewrite (search_here _ _ _ (relerr_match_here ws1 ws2 g rest H1 H2 Hg Hn Hr)).
  apply of_string_no_digit; exact Hd.
Qed.

(** [malformed_number_is_absent] on a lone minus sign followed by a
    line with a well-formed relative error. *)
Lemma malformed_number_is_absent_witness :
  _parse_float RE_RELERR
    ("rel_err = -" ++ nl ++ "rel_err = 1e-13")%string = None.
Proof.
  apply (malformed_number_is_absent " " " " "-" (nl ++ "rel_err = 1e-13"));
    try reflexivity. discriminate.
Defined.

(** X4. A negative relative error is classified PASS_STRICT, and so
    meets the stop condition of both documented values of [stop_on]. *)
Theorem negative_error_is_strict (e : float) (stop_on : string) :
  ltb e zero = true ->
  fst (classify (Some e)) = "PASS_STRICT"
  /\ (stop_on = "PASS_STRICT" \/ stop_on = "PASS_GUERRILLA" ->
      stop_check stop_on (fst (classify (Some e))) = true).
Proof.
  intros H.
  assert (E : ltb e PASS_STRICT = true).
  { apply (ltb_trans _ zero); [exact H | reflexivity]. }
  rewrite classify_some_status, E. split; [reflexivity|].
  apply stop_check_strict.
Qed.

(** [negative_error_is_strict] on the value of the line [rel_err = -1]. *)
Lemma negative_error_is_strict_witness :
  _parse_float RE_RELERR "rel_err = -1" = Some (literal "-1")
  /\ fst (classify (Some (literal "-1"))) = "PASS_STRICT".
Proof.
  split; [vm_compute; reflexivity|].
  apply (negative_error_is_strict (literal "-1") "PASS_STRICT").
  vm_compute; reflexivity.
Defined.

(** The search skips a text in which the first character of the pattern
    does not occur. *)
Lemma search_skip c p pre s :
  all_chars (fun x => negb (Ascii.eqb c x)) pre = true ->
  search (Lit c :: p) (pre ++ s) = search (Lit c :: p) s.
Proof.
  induction pre as [|x pre IH]; [reflexivity|].
  simpl all_chars. intros H. apply andb_true_iff in H as [Hx Hpre].
  change ((String x pre ++ s)%string) with (String x (pre ++ s)%string).
  cbn [search match_here]. apply negb_true_iff in Hx. rewrite Hx.
  now apply IH.
Qed.

(** X5. The label is found wherever it stands in the text, also at the
    end of a longer word: after any text without the letter [r], the
    label [rel_err], an equals sign and a run of number characters give
    what [float] makes of that run. *)
Theorem label_is_found_anywhere (pre ws1 ws2 g rest : string) :
  all_chars (fun x => negb (Ascii.eqb "r" x)) pre = true ->
  all_chars space ws1 = true -> all_chars space ws2 = true ->
  g <> "" -> all_chars numchar g = true -> stops numchar rest = true ->
  _parse_float RE_RELERR (pre ++ "rel_err" ++ ws1 ++ "=" ++ ws2 ++ g ++ rest)
  = PyFloat.of_string g.
Proof.
  intros Hpre H1 H2 Hg Hn Hr. unfold _parse_float.
  change RE_RELERR with (Lit "r" :: lits "el_err"
                           ++ [Star space; Lit "="; Star space; Group numchar]).
  rewrite (search_skip _ _ _ _ Hpre).
  change (Lit "r" :: lits "el_err"
            ++ [Star space; Lit "="; Star space; Group numchar]) with RE_RELERR.
  now rewrite (search_here _ _ _ (relerr_match_here ws1 ws2 g rest H1 H2 Hg Hn Hr)).
Qed.

(** [label_is_found_anywhere] on a line that reports [max_abs_rel_err]. *)
Lemma label_is_found_anywhere_witness :
  _parse_float RE_RELERR ("max_abs_rel_err = 2e-3" ++ nl)
  = Some (literal "2e-3").
Proof.
  refine (eq_trans
            (label_is_found_anywhere "max_abs_" " " " " "2e-3" nl _ _ _ _ _ _) _);
    try reflexivity. discriminate.
Defined.

Lemma match_here_lits name p s :
  match_here (lits name ++ p) (name ++ s) = match_here p s.
Proof.
  induction name as [|c name IH]; [reflexivity|].
  change (lits (String c name) ++ p) with (Lit c :: (lits name ++ p)).
  change ((String c name ++ s)%string) with (String c (name ++ s)%string).
  cbn [match_here]. now rewrite Ascii.eqb_refl.
Qed.

(** A greedy star keeps the match that the rest of the pattern has
    after more of its characters. *)
Lemma star_prefix cls k pre s g :
  all_chars cls pre = true -> star cls k s = Some g ->
  star cls k (pre ++ s) = Some g.
Proof.
  intros Hpre Hs. induction pre as [|c pre IH]; [exact Hs|].
  simpl in Hpre. apply andb_true_iff in Hpre as [Hc Hpre].
  change ((String c pre ++ s)%string) with (String c (pre ++ s)%string).
  cbn [star]. now rewrite Hc, (IH Hpre).
Qed.

(** A pattern that starts with a character which the text does not hold
    up to the end of the run of the star has no match after the star. *)
Lemma star_without c p cls a b :
  all_chars (fun x => negb (Ascii.eqb c x)) a = true ->
  stops (Ascii.eqb c) b = true -> stops cls b = true ->
  star cls (match_here (Lit c :: p)) (a ++ b) = None.
Proof.
  intros Ha Hb Hcls. induction a as [|x a IH].
  - change (("" ++ b)%string) with b. rewrite (star_stops _ _ _ Hcls).
    destruct b as [|y b]; [reflexivity|]. simpl in Hb.
    cbn [match_here]. apply negb_true_iff in Hb. now rewrite Hb.
  - simpl in Ha. apply andb_true_iff in Ha as [Hx Ha].
    apply negb_true_iff in Hx.
    change ((String x a ++ b)%string) with (String x (a ++ b)%string).
    cbn [star]. rewrite (IH Ha). cbn [match_here]. rewrite Hx.
    destruct (cls x); reflexivity.
Qed.

Lemma space_not_equals c : space c = true -> Ascii.eqb "=" c = false.
Proof.
  destruct (Ascii.eqb_spec "="%char c) as [<- | ]; [|reflexivity].
  vm_compute. discriminate.
Qed.

Lemma numchar_not_equals c : numchar c = true -> Ascii.eqb "=" c = false.
Proof.
  destruct (Ascii.eqb_spec "="%char c) as [<- | ]; [|reflexivity].
  vm_compute. discriminate.
Qed.

Lemma all_chars_impl (f h : ascii -> bool) s :
  (forall c, f c = true -> h c = true) ->
  all_chars f s = true -> all_chars h s = true.
Proof.
  intros Hfh. induction s as [|c s IH]; [reflexivity|].
  simpl. intros H. apply andb_true_iff in H as [Hc Hs].
  now rewrite (Hfh c Hc), (IH Hs).
Qed.

Lemma all_chars_app f a b :
  all_chars f a = true -> all_chars f b = true ->
  all_chars f (a ++ b)%string = true.
Proof.
  intros Ha Hb. induction a as [|c a IH]; [exact Hb|].
  simpl in *. apply andb_true_iff in Ha as [Hc Ha]. now rewrite Hc, (IH Ha).
Qed.

(** X6. For the diagnostic labels, whose pattern allows any characters
    but a newline between the label and the equals sign, the value is the
    one after the last equals sign of the line: for a text that starts
    with the label, any characters but a newline, an equals sign, white
    space, a run of number characters and a rest of the line without an
    equals sign, the result is what [float] makes of that run, whatever
    the lines below hold. *)
Theorem dot_label_takes_last_equals (name mid ws g line more : string) :
  all_chars dot mid = true -> all_chars space ws = true ->
  g <> "" -> all_chars numchar g = true ->
  stops numchar (line ++ more) = true ->
  all_chars (fun x => negb (Ascii.eqb "=" x)) line = true ->
  stops dot more = true ->
  _parse_float (label name dot)
    (name ++ mid ++ "=" ++ ws ++ g ++ line ++ more)
  = PyFloat.of_string g.
Proof.
  intros Hmid Hws Hne Hg Hrest Hno Hmore. unfold _parse_float.
  assert (Hm : match_here (label name dot)
                 (name ++ mid ++ "=" ++ ws ++ g ++ line ++ more) = Some g).
  { unfold label. rewrite match_here_lits.
    change (star dot (match_here [Lit "="; Star space; Group numchar])
              (mid ++ "=" ++ ws ++ g ++ line ++ more) = Some g).
    apply star_prefix; [exact Hmid|].
    change (("=" ++ ws ++ g ++ line ++ more)%string)
      with (String "=" (ws ++ g ++ line ++ more)%string).
    assert (Hnone : star dot (match_here [Lit "="; Star space; Group numchar])
                      (ws ++ g ++ line ++ more) = None).
    { rewrite <- !append_assoc. rewrite (append_assoc ws g line).
      apply star_without.
      - apply all_chars_app; [|apply all_chars_app; [|exact Hno]].
        + eapply all_chars_impl; [|exact Hws].
          intros c Hc. now rewrite (space_not_equals c Hc).
        + eapply all_chars_impl; [|exact Hg].
          intros c Hc. now rewrite (numchar_not_equals c Hc).
      - destruct more as [|c more']; [reflexivity|].
        cbn [stops] in *. unfold dot in Hmore.
        rewrite negb_involutive in Hmore.
        apply Ascii.eqb_eq in Hmore. subst c. reflexivity.
      - exact Hmore. }
    assert (Hk : match_here [Lit "="; Star space; Group numchar]
                   (String "=" (ws ++ g ++ line ++ more)) = Some g).
    { change (star space (match_here [Group numchar])
                (ws ++ g ++ line ++ more) = Some g).
      destruct g as [|c g']; [congruence|]. simpl in Hg.
      apply andb_true_iff in Hg as [Hc Hg].
      apply star_skip;
        [exact Hws | simpl; now rewrite (numchar_not_space _ Hc) |].
      simpl. rewrite Hc.
      exact (group_more_run numchar (fun _ => Some "") [c] g' (line ++ more) ""
               Hg Hrest eq_refl). }
    revert Hnone Hk.
    generalize (match_here [Lit "="; Star space; Group numchar]).
    intros K Hnone Hk. cbn [star]. change (dot "=") with true. cbv iota.
    now rewrite Hnone. }
  now rewrite (search_here _ _ _ Hm).
Qed.

(** [dot_label_takes_last_equals] on a [Q_geo] line with parameters in
    brackets, followed by another line. *)
Lemma dot_label_takes_last_equals_witness :
  _parse_float RE_QGEO
    ("Q_geo (n=37, eps=1e-9) = 0.5" ++ nl ++ "rel_err = 1e-5" ++ nl)
  = Some (literal "0.5").
Proof.
  refine (eq_trans
            (dot_label_takes_last_equals "Q_geo" " (n=37, eps=1e-9) " " "
               "0.5" "" (nl ++ "rel_err = 1e-5" ++ nl) _ _ _ _ _ _ _) _);
    try reflexivity. discriminate.
Defined.

(** ** The command of a trial *)

Lemma all_chars_append f a b :
  all_chars f (a ++ b)%string = all_chars f a && all_chars f b.
Proof.
  induction a as [|c a IH]; simpl; [reflexivity|].
  now rewrite IH, andb_assoc.
Qed.

Lemma all_chars_of_list f l :
  all_chars f (string_of_list_ascii l) = forallb f l.
Proof. induction l as [|c l IH]; simpl; [reflexivity | now rewrite IH]. Qed.

Lemma split_aux_words s :
  forall cur,
    forallb (fun c => negb (PyStr.is_space c)) cur = true ->
    Forall is_word (PyStr.split_aux s cur).
Proof.
  assert (Hflush : forall cur rest,
             forallb (fun c => negb (PyStr.is_space c)) cur = true ->
             Forall is_word rest ->
             Forall is_word match cur with
                            | [] => rest
                            | _ => string_of_list_ascii (rev cur) :: rest
                            end).
  { intros cur rest Hc Hr. destruct cur as [|c cur]; [exact Hr|].
    constructor; [|exact Hr]. split.
    - intros E. apply (f_equal String.length) in E.
      rewrite <- (list_ascii_of_string_of_list_ascii (rev (c :: cur))) in E.
      assert (L : forall l, String.length (string_of_list_ascii l) = List.length l).
      { induction l as [|x l IH]; simpl; [reflexivity | now rewrite IH]. }
      rewrite string_of_list_ascii_of_string, L, length_rev in E. discriminate.
    - rewrite all_chars_of_list, forallb_forall. intros x Hx.
      apply in_rev in Hx. rewrite forallb_forall in Hc. now apply Hc. }
  induction s as [|c s IH]; intros cur Hc.
  - apply Hflush; [exact Hc | constructor].
  - cbn [PyStr.split_aux]. destruct (PyStr.is_space c) eqn:E.
    + apply Hflush; [exact Hc | now apply IH].
    + apply IH. simpl. now rewrite E.
Qed.

Lemma split_lstrip s : PyStr.split (PyStr.lstrip s) = PyStr.split s.
Proof.
  unfold PyStr.split. induction s as [|c s IH]; [reflexivity|].
  cbn [PyStr.lstrip PyStr.split_aux]. destruct (PyStr.is_space c) eqn:E.
  - exact IH.
  - cbn [PyStr.split_aux]. now rewrite E.
Qed.

Lemma split_aux_rstrip s :
  forall cur, PyStr.split_aux (PyStr.rstrip s) cur = PyStr.split_aux s cur.
Proof.
  induction s as [|c s IH]; intros cur; [reflexivity|].
  cbn [PyStr.rstrip]. destruct (PyStr.rstrip s) as [|c' r] eqn:Er.
  - destruct (PyStr.is_space c) eqn:E.
    + cbn [PyStr.split_aux]. rewrite E, <- IH. reflexivity.
    + cbn [PyStr.split_aux]. rewrite E, <- IH. reflexivity.
  - cbn [PyStr.split_aux]. destruct (PyStr.is_space c); now rewrite <- IH.
Qed.

(** [s.strip().split()] is [s.split()]. *)
Lemma split_strip s : PyStr.split (PyStr.strip s) = PyStr.split s.
Proof.
  unfold PyStr.strip, PyStr.split. rewrite split_aux_rstrip. apply split_lstrip.
Qed.

Lemma split_blank s : all_chars PyStr.is_space s = true -> PyStr.split s = [].
Proof.
  unfold PyStr.split. induction s as [|c s IH]; [reflexivity|].
  simpl all_chars. intros H. apply andb_true_iff in H as [Hc Hs].
  cbn [PyStr.split_aux]. rewrite Hc. now apply IH.
Qed.

(** X7. The command of a trial of a lab built by [__init__] is the
    white-space separated words of the experiment command as it was
    given (stripping it first changes nothing), then [--dps], the
    precision, [--terms], the terms, then the extra arguments, which are
    passed on as they are.  Every word of the experiment command is
    non-empty and free of white space.  A blank experiment command
    contributes no word: the command then starts with [--dps]. *)
Theorem build_cmd_tokens (cmd : string) (hash : option string) (out : string)
    (cfg : RunConfig) :
  let lab := new_lab cmd hash out in
  _build_cmd lab cfg
  = PyStr.split cmd
    ++ ["--dps"; PyStr.of_int (dps cfg); "--terms"; PyStr.of_int (terms cfg)]
    ++ extra_args cfg
  /\ Forall is_word (PyStr.split cmd)
  /\ (all_chars PyStr.is_space cmd = true ->
      _build_cmd lab cfg
      = "--dps" :: PyStr.of_int (dps cfg) :: "--terms"
        :: PyStr.of_int (terms cfg) :: extra_args cfg).
Proof.
  intros lab.
  assert (E : _build_cmd lab cfg
              = PyStr.split cmd
                ++ ["--dps"; PyStr.of_int (dps cfg); "--terms";
                    PyStr.of_int (terms cfg)] ++ extra_args cfg).
  { unfold _build_cmd, lab. cbn [experiment_cmd new_lab].
    now rewrite split_strip, <- app_assoc. }
  split; [exact E | split].
  - apply split_aux_words. reflexivity.
  - intros Hb. rewrite E, (split_blank _ Hb). reflexivity.
Qed.

(** [build_cmd_tokens] on a blank experiment command. *)
Lemma build_cmd_tokens_witness :
  _build_cmd (new_lab "  " None "report.json") (Build_RunConfig 80 5000 ["--tol"; "1e-18"])
  = ["--dps"; "80"; "--terms"; "5000"; "--tol"; "1e-18"].
Proof.
  apply (proj2 (proj2 (build_cmd_tokens "  " None "report.json"
                         (Build_RunConfig 80 5000 ["--tol"; "1e-18"])))).
  reflexivity.
Defined.

(** ** One trial *)

(** X8. A trial that returns stores a prefix of the output of its child
    (stdout, a newline, stderr): its first [max_stdout_chars] characters,
    or all of it when it is shorter; with a negative [max_stdout_chars]
    the output without its last [- max_stdout_chars] characters.  The
    relative error is read from the whole output, not from the stored
    prefix; the duration is the difference of the two clock readings the
    trial makes. *)
Theorem stored_output_is_prefix cfg self w rr st1 :
  _run_once cfg (self, w) = (Return rr, st1) ->
  exists p rest,
    w_proc w (List.length (w_launched w)) (_build_cmd self cfg) = Exits p
    /\ output p = (stdout_trunc rr ++ rest)%string
    /\ Z.of_nat (String.length (stdout_trunc rr))
       = (if max_stdout_chars self <? 0
          then Z.max 0 (Z.of_nat (String.length (output p)) + max_stdout_chars self)
          else Z.min (max_stdout_chars self)
                     (Z.of_nat (String.length (output p))))
    /\ rel_err rr = _parse_float RE_RELERR (output p)
    /\ time_s rr = sub (w_clock w (S (w_ticks w))) (w_clock w (w_ticks w))
    /\ w_ticks (snd st1) = S (S (w_ticks w)).
Proof.
  intros H.
  destruct (run_once_record _ _ _ _ _ H)
    as (p & Hp & _ & _ & Ht & Hs & Hr & _ & _ & _ & _ & Hk & _).
  destruct (slice_to_prefix (output p) (max_stdout_chars self)) as (rest & E).
  exists p, rest. rewrite Hs. conjs; auto.
  destruct (Z.ltb_spec (max_stdout_chars self) 0).
  - now apply slice_to_negative.
  - now apply slice_to_length.
Qed.

(** [stored_output_is_prefix] on a child that prints one line. *)
Lemma stored_output_is_prefix_witness :
  exists rr,
    fst (_run_once (Build_RunConfig 80 5000 [])
           (fresh_lab, mock_world "rel_err = 1e-5" 0)) = Return rr
    /\ String.length (stdout_trunc rr) = 15%nat.
Proof.
  destruct (_run_once (Build_RunConfig 80 5000 [])
              (fresh_lab, mock_world "rel_err = 1e-5" 0)) as [o st1] eqn:E.
  assert (F : fst (_run_once (Build_RunConfig 80 5000 [])
                     (fresh_lab, mock_world "rel_err = 1e-5" 0)) = o)
    by (rewrite E; reflexivity).
  destruct o as [rr | e |]; [|vm_compute in F; discriminate F|vm_compute in F; discriminate F].
  exists rr. split; [reflexivity|].
  destruct (stored_output_is_prefix _ fresh_lab _ rr st1 E)
    as (p & rest & Hp & _ & Hlen & _).
  cbn in Hp. injection Hp as <-.
  apply Nat2Z.inj. rewrite Hlen. reflexivity.
Defined.



(** X10. A trial raises in three cases only.  The precision or the
    terms have more than 4300 decimal digits: [str] raises ValueError in
    [_build_cmd], before [subprocess.run] is reached, and no child is
    launched.  Otherwise the command is built and launched, and either
    the child could not be run, and the exception is the one of
    [subprocess.run]; or the child ran and the precision or the terms are
    too large for a float, and the exception is OverflowError.  In all
    three cases nothing is appended to the log. *)
Theorem trial_raise_causes cfg self w e st1 :
  _run_once cfg (self, w) = (Raise e, st1) ->
  fst st1 = self
  /\ ((e = ValueError
       /\ (str_accepts (dps cfg) = false \/ str_accepts (terms cfg) = false)
       /\ w_launched (snd st1) = w_launched w)
      \/ (str_accepts (dps cfg) = true /\ str_accepts (terms cfg) = true
          /\ w_launched (snd st1) = _build_cmd self cfg :: w_launched w
          /\ (w_proc w (List.length (w_launched w)) (_build_cmd self cfg)
              = Fails e
              \/ (e = OverflowError
                  /\ (PyFloat.of_int (dps cfg) = None
                      \/ PyFloat.of_int (terms cfg) = None)
                  /\ exists p,
                       w_proc w (List.length (w_launched w))
                         (_build_cmd self cfg) = Exits p)))).
Proof.
  intros H. split; [exact (proj1 (run_once_raise _ _ _ _ _ H))|].
  revert H.
  unfold _run_once, bind, get_self, time_time, subprocess_run, lift,
    append_run, ret, call_build_cmd.
  cbn -[output classify cost_proxy _parse_float str_accepts].
  destruct (str_accepts (dps cfg)) eqn:Hd;
    [destruct (str_accepts (terms cfg)) eqn:Ht|];
    cbn -[output classify cost_proxy _parse_float str_accepts].
  - destruct (w_proc w (List.length (w_launched w)) (_build_cmd self cfg))
      as [e' | p |] eqn:Hp; cbn -[output classify cost_proxy _parse_float].
    + intros H. injection H as <- <-. right. conjs; auto.
    + destruct (cost_proxy _ (dps cfg) (terms cfg)) as [c | e' |] eqn:Hc;
        cbn -[output classify cost_proxy _parse_float];
        [discriminate| |discriminate].
      intros H. injection H as <- <-. right. conjs; auto. right.
      unfold cost_proxy in Hc.
      destruct (PyFloat.of_int (dps cfg)); [|injection Hc as <-; eauto].
      destruct (PyFloat.of_int (terms cfg)); [discriminate|].
      injection Hc as <-; eauto.
    + discriminate.
  - intros H. injection H as <- <-. left. conjs; auto.
  - intros H. injection H as <- <-. left. conjs; auto.
Qed.

(** [trial_raise_causes] on a precision of [2^1024], which [str] accepts
    and a float does not hold, and on one of [10^4300], which [str]
    refuses: the first trial launches the child and raises OverflowError,
    the second raises ValueError with nothing launched. *)
Lemma trial_raise_causes_witness :
  (fst (_run_once (Build_RunConfig (2 ^ 1024) 5000 [])
          (fresh_lab, mock_world "rel_err = 1e-13" 0)) = Raise OverflowError
   /\ fst (snd (_run_once (Build_RunConfig (2 ^ 1024) 5000 [])
                  (fresh_lab, mock_world "rel_err = 1e-13" 0))) = fresh_lab
   /\ List.length
        (w_launched (snd (snd (_run_once (Build_RunConfig (2 ^ 1024) 5000 [])
                                 (fresh_lab, mock_world "rel_err = 1e-13" 0)))))
      = 1%nat)
  /\ (fst (_run_once (Build_RunConfig str_limit 5000 [])
             (fresh_lab, mock_world "rel_err = 1e-13" 0)) = Raise ValueError
      /\ w_launched (snd (snd (_run_once (Build_RunConfig str_limit 5000 [])
                                 (fresh_lab, mock_world "rel_err = 1e-13" 0))))
         = []).
Proof.
  split.
  - destruct (_run_once (Build_RunConfig (2 ^ 1024) 5000 [])
                (fresh_lab, mock_world "rel_err = 1e-13" 0)) as [o st1] eqn:E.
    assert (F : fst (_run_once (Build_RunConfig (2 ^ 1024) 5000 [])
                       (fresh_lab, mock_world "rel_err = 1e-13" 0)) = o)
      by (rewrite E; reflexivity).
    destruct o as [rr | e |];
      [vm_compute in F; discriminate F| |vm_compute in F; discriminate F].
    destruct (trial_raise_causes _ _ _ _ _ E)
      as (Hs & [(_ & [Hd | Ht] & _) | (_ & _ & Hl & [Hf | (He & _)])]).
    + vm_compute in Hd. discriminate Hd.
    + vm_compute in Ht. discriminate Ht.
    + cbn in Hf. discriminate Hf.
    + subst e. conjs; [reflexivity | exact Hs |].
      cbn [snd]. rewrite Hl. reflexivity.
  - destruct (_run_once (Build_RunConfig str_limit 5000 [])
                (fresh_lab, mock_world "rel_err = 1e-13" 0)) as [o st1] eqn:E.
    assert (F : fst (_run_once (Build_RunConfig str_limit 5000 [])
                       (fresh_lab, mock_world "rel_err = 1e-13" 0)) = o)
      by (rewrite E; reflexivity).
    destruct o as [rr | e |];
      [vm_compute in F; discriminate F| |vm_compute in F; discriminate F].
    destruct (trial_raise_causes _ _ _ _ _ E)
      as (Hs & [(He & _ & Hl) | (Hd & _)]).
    + subst e. split; [reflexivity | exact Hl].
    + vm_compute in Hd. discriminate Hd.
Defined.

(** ** The loop *)

(** An invariant of the configuration, kept by every pass, holds for the
    runs the loop appends. *)
Lemma loop_invariant max_dps max_terms stop_on extra
    (P : Z -> Z -> OuroborosLab -> Prop) (Q : RunResult -> Prop) :
  (forall d t st o st' new,
     P d t (fst st) ->
     iteration_outcome max_dps max_terms stop_on extra d t st o st' new ->
     Forall Q new /\ forall d' t', o = Return (Next d' t') -> P d' t' (fst st')) ->
  forall steps d t st,
    P d t (fst st) ->
    exists new,
      _runs (fst (snd (loop max_dps max_terms stop_on extra steps d t st)))
      = _runs (fst st) ++ new
      /\ Forall Q new.
Proof.
  intros Hstep. induction steps as [|steps IH]; intros d t st HP.
  - exists []. simpl. now rewrite app_nil_r.
  - destruct (iteration_cases max_dps max_terms stop_on extra d t st)
      as [new1 Hout].
    pose proof (outcome_shape _ _ _ _ _ _ _ _ _ _ Hout) as (Hs1 & _).
    destruct (Hstep _ _ _ _ _ _ HP Hout) as (HQ & Hnext).
    simpl loop. unfold bind.
    destruct (iteration max_dps max_terms stop_on extra d t st)
      as [[[s | d' t'] | e |] st1]; cbn [fst snd] in *.
    + exists new1. unfold ret. cbn [fst snd]. now rewrite Hs1.
    + destruct (IH d' t' st1 (Hnext d' t' eq_refl)) as (new2 & Hs2 & HQ2).
      exists (new1 ++ new2). split.
      * rewrite Hs2, Hs1. simpl. now rewrite app_assoc.
      * apply Forall_app. auto.
    + exists new1. cbn [fst snd]. now rewrite Hs1.
    + exists new1. cbn [fst snd]. now rewrite Hs1.
Qed.

Lemma ascending_weaken d t d2 t2 l :
  d <= d2 -> t <= t2 -> ascending d2 t2 l -> ascending d t l.
Proof. destruct l as [|r l]; simpl; [auto|]. intros ? ? (? & ? & ?). repeat split; auto; lia. Qed.

Lemma ascending_app d t l1 d2 t2 l2 :
  ascending d t l1 ->
  Forall (fun r => dps (config r) <= d2 /\ terms (config r) <= t2) l1 ->
  d <= d2 -> t <= t2 -> ascending d2 t2 l2 -> ascending d t (l1 ++ l2).
Proof.
  revert d t. induction l1 as [|r l1 IH]; intros d t H1 Hall Hd Ht H2; simpl.
  - eapply ascending_weaken; eassumption.
  - destruct H1 as (A & B & C). inversion Hall as [|? ? [Hr1 Hr2] Hall']; subst.
    repeat split; auto.
Qed.

Lemma ascending_pairs d t l :
  ascending d t l ->
  forall i j ri rj,
    (i <= j)%nat -> nth_error l i = Some ri -> nth_error l j = Some rj ->
    dps (config ri) <= dps (config rj) /\ terms (config ri) <= terms (config rj).
Proof.
  revert d t. induction l as [|r l IH]; intros d t H i j ri rj Hij Hi Hj.
  - destruct i; discriminate.
  - destruct H as (A & B & C). destruct i as [|i], j as [|j]; simpl in *.
    + injection Hi as <-. injection Hj as <-. lia.
    + injection Hi as <-.
      clear IH Hij A B d t. revert j Hj C. generalize (dps (config r)) (terms (config r)).
      induction l as [|x l IHl]; intros d t j Hj C; [destruct j; discriminate|].
      destruct C as (A & B & C). destruct j as [|j]; simpl in Hj.
      * injection Hj as <-. lia.
      * destruct (IHl _ _ j Hj C). lia.
    + lia.
    + eapply IH; [exact C | | exact Hi | exact Hj]. lia.
Qed.

Lemma decide_next self max_dps max_terms r1 r2 d t2 d' t' :
  0 <= precision_bump self -> 1 <= terms_growth self ->
  d <= max_dps -> 0 <= t2 <= max_terms ->
  stagnation_switch self max_dps max_terms
    (fst (cola_vs_precision self max_dps r1 r2 d t2))
    (snd (cola_vs_precision self max_dps r1 r2 d t2)) = Next d' t' ->
  d <= d' <= max_dps /\ t2 <= t' <= max_terms.
Proof.
  intros Hb Hg Hd Ht. rewrite cola_vs_precision_terms.
  assert (Hc : d <= fst (cola_vs_precision self max_dps r1 r2 d t2) <= max_dps).
  { unfold cola_vs_precision, bump_dps.
    destruct (_improvement_ratio (rel_err r1) (rel_err r2)) as [q|];
      [destruct (geb q (cola_ratio_threshold self))|]; cbn [fst];
      try lia; destruct (Z.ltb_spec d max_dps); lia. }
  revert Hc. generalize (fst (cola_vs_precision self max_dps r1 r2 d t2)).
  intros c Hc. unfold stagnation_switch, bump_dps, grow_terms.
  destruct (_stagnating self).
  - destruct (Z.ltb_spec c max_dps).
    + intros E. injection E as <- <-. lia.
    + destruct (Z.ltb_spec t2 max_terms); [|discriminate].
      intros E. injection E as <- <-. nia.
  - intros E. injection E as <- <-. lia.
Qed.

Lemma outcome_ascends max_dps max_terms stop_on extra d t st o st' new :
  climbing max_dps max_terms d t (fst st) ->
  iteration_outcome max_dps max_terms stop_on extra d t st o st' new ->
  ascending d t new
  /\ Forall (fun r => dps (config r) = d /\ terms (config r) <= max_terms) new
  /\ forall d' t',
       o = Return (Next d' t') ->
       climbing max_dps max_terms d' t' (fst st')
       /\ d <= d'
       /\ Forall (fun r => terms (config r) <= t') new.
Proof.
  intros (Hb & Hg & Hd & Ht) Hout. destruct st as [self w]. cbn [fst] in *.
  pose proof (outcome_shape _ _ _ _ _ _ _ _ _ _ Hout) as (Hs & Hshape).
  cbn [fst] in *.
  assert (Hgrow : t <= grow_terms self max_terms t <= max_terms)
    by (unfold grow_terms; nia).
  assert (Hbump : d <= bump_dps self max_dps d <= max_dps)
    by (unfold bump_dps; lia).
  assert (Hset : forall rs, precision_bump (set_runs self rs) = precision_bump self
                            /\ terms_growth (set_runs self rs) = terms_growth self)
    by (intros; split; reflexivity).
  split; [|split].
  - destruct Hshape as [[-> _] | [(r1 & -> & C1) | (r1 & r2 & -> & C1 & C2)]];
      simpl; rewrite ?C1, ?C2; simpl; repeat split; lia.
  - destruct Hshape as [[-> _] | [(r1 & -> & C1) | (r1 & r2 & -> & C1 & C2)]];
      repeat constructor; rewrite ?C1, ?C2; simpl; lia.
  - intros d' t' ->. unfold climbing. rewrite Hs.
    inversion Hout as [ | | r1 st1 H1 S1 Hbad | r1 st1 e1 H1 S1 E1 R1 G
                        | | | r1 st1 e1 r2 st2 H1 S1 E1 R1 G H2 S2 Hsw | | ];
      subst.
    + destruct (run_once_return _ _ _ _ _ H1) as (Hs1 & _ & _ & C1 & _).
      rewrite Hs1. change (bump_dps (set_runs self (_runs self ++ [r1])) max_dps d)
        with (bump_dps self max_dps d).
      conjs; try (simpl; lia). constructor; [rewrite C1; simpl; lia | constructor].
    + destruct (run_once_return _ _ _ _ _ H1) as (Hs1 & _ & _ & C1 & _).
      rewrite Hs1. change (bump_dps (set_runs self (_runs self ++ [r1])) max_dps d)
        with (bump_dps self max_dps d).
      conjs; try (simpl; lia). constructor; [rewrite C1; simpl; lia | constructor].
    + destruct (run_once_return _ _ _ _ _ H1) as (Hs1 & _ & _ & C1 & _).
      destruct st1 as [self1 w1]. cbn [fst] in *.
      destruct (run_once_return _ _ _ _ _ H2) as (Hs2 & _ & _ & C2 & _).
      rewrite Hs1 in *.
      change (grow_terms (set_runs self (_runs self ++ [r1])) max_terms t)
        with (grow_terms self max_terms t) in *.
      destruct (decide_next (fst st') max_dps max_terms r1 r2 d
                  (grow_terms self max_terms t) d' t') as (Hd' & Ht');
        try (rewrite Hs2; simpl; lia); try lia.
      { exact Hsw. }
      conjs; try (simpl; lia).
      constructor; [rewrite C1; simpl; lia|].
      constructor; [rewrite C2; simpl; lia | constructor].
Qed.

Lemma loop_ascends max_dps max_terms stop_on extra steps :
  forall d t st,
    climbing max_dps max_terms d t (fst st) ->
    exists new,
      _runs (fst (snd (loop max_dps max_terms stop_on extra steps d t st)))
      = _runs (fst st) ++ new
      /\ ascending d t new
      /\ Forall (fun r => dps (config r) <= max_dps
                          /\ terms (config r) <= max_terms) new.
Proof.
  induction steps as [|steps IH]; intros d t st HP.
  - exists []. simpl. rewrite app_nil_r. auto.
  - destruct (iteration_cases max_dps max_terms stop_on extra d t st)
      as [new1 Hout].
    pose proof (outcome_shape _ _ _ _ _ _ _ _ _ _ Hout) as (Hs1 & _).
    destruct (outcome_ascends _ _ _ _ _ _ _ _ _ _ HP Hout) as (Ha1 & Hb1 & Hnext).
    assert (Hb1' : Forall (fun r => dps (config r) <= max_dps
                                    /\ terms (config r) <= max_terms) new1).
    { eapply Forall_impl; [|exact Hb1]. intros r [E Hr]. rewrite E.
      destruct HP as (_ & _ & Hd & _). lia. }
    simpl loop. unfold bind.
    destruct (iteration max_dps max_terms stop_on extra d t st)
      as [[[s | d' t'] | e |] st1]; cbn [fst snd] in *.
    + exists new1. unfold ret. cbn [fst snd]. now rewrite Hs1.
    + destruct (Hnext d' t' eq_refl) as (HP' & Hdd & Hlast).
      destruct (IH d' t' st1 HP') as (new2 & Hs2 & Ha2 & Hb2).
      exists (new1 ++ new2). split; [|split].
      * rewrite Hs2, Hs1. simpl. now rewrite app_assoc.
      * apply (ascending_app d t new1 d' t' new2); auto.
        -- rewrite Forall_forall in *. intros r Hr.
           destruct (Hb1 r Hr) as [E _]. specialize (Hlast r Hr). lia.
        -- destruct new1 as [|r0 new1'].
           ++ apply outcome_first_trial in Hout. simpl in Hout. lia.
           ++ destruct Ha1 as (_ & B & _).
              inversion Hlast; subst. lia.
      * apply Forall_app. auto.
    + exists new1. cbn [fst snd]. now rewrite Hs1.
    + exists new1. cbn [fst snd]. now rewrite Hs1.
Qed.

(** ** The stagnation detector *)

Lemma slice_from_map {A B} (f : A -> B) l i :
  map f (slice_from l i) = slice_from (map f l) i.
Proof. unfold slice_from. now rewrite length_map, skipn_map. Qed.

(** [_stagnating] as a function of the parsed errors, for every window. *)
Lemma stagnating_errors self :
  _stagnating self
  = if Z.of_nat (List.length (parsed_errors self)) <? stagnation_window self + 1
    then false
    else slow_pairs (add (literal "1.0") (stagnation_improve_min self))
           (slice_from (parsed_errors self) (- (stagnation_window self + 1))).
Proof.
  unfold _stagnating.
  pose proof (parsed_runs_errors self) as Hmap.
  assert (Hlen : List.length (parsed_runs self) = List.length (parsed_errors self)).
  { rewrite <- (length_map rel_err), Hmap. apply length_map. }
  rewrite Hlen.
  destruct (Z.of_nat (List.length (parsed_errors self)) <? stagnation_window self + 1);
    [reflexivity|].
  apply (stag_check_slow _ (slice_from (parsed_runs self)
                              (- (stagnation_window self + 1)))).
  now rewrite slice_from_map, Hmap, <- slice_from_map.
Qed.

(** X11. The verdict of [_stagnating] depends on the window, the minimal
    improvement and the sequence of the parsed relative errors only, for
    every window: two logs with the same parsed errors get the same
    verdict, wherever runs without a relative error stand between them
    and whatever the costs, exit codes and configurations are. *)
Theorem stagnating_reads_errors_only (self self' : OuroborosLab) :
  stagnation_window self' = stagnation_window self ->
  stagnation_improve_min self' = stagnation_improve_min self ->
  parsed_errors self' = parsed_errors self ->
  _stagnating self' = _stagnating self.
Proof.
  intros Hw Hm He. rewrite !stagnating_errors, Hw, Hm, He. reflexivity.
Qed.

(** [stagnating_reads_errors_only] on the four errors 5% apart, with an
    unparsed run before and after them. *)
Lemma stagnating_reads_errors_only_witness :
  _stagnating
    (set_runs fresh_lab
       (trial None (literal "9.0")
        :: map (fun s => trial (Some (literal s)) (literal "1.0")) four_fives
        ++ [trial None (literal "2.0")]))
  = _stagnating (lab_with_errors four_fives).
Proof.
  apply stagnating_reads_errors_only; reflexivity.
Defined.

(** X12. With a negative [stagnation_window] the length test of
    [_stagnating] never fires and the slice drops the first
    [- (window + 1)] parsed runs instead of keeping the last ones: the
    verdict is taken over all the errors after those, and an empty log is
    reported as stagnating. *)
Theorem stagnating_negative_window (self : OuroborosLab) :
  stagnation_window self < 0 ->
  _stagnating self
  = slow_pairs (add (literal "1.0") (stagnation_improve_min self))
      (skipn (Z.to_nat (- (stagnation_window self + 1))) (parsed_errors self))
  /\ (_runs self = [] -> _stagnating self = true).
Proof.
  intros Hw.
  assert (E : _stagnating self
              = slow_pairs (add (literal "1.0") (stagnation_improve_min self))
                  (skipn (Z.to_nat (- (stagnation_window self + 1)))
                         (parsed_errors self))).
  { rewrite stagnating_errors.
    destruct (Z.ltb_spec (Z.of_nat (List.length (parsed_errors self)))
                (stagnation_window self + 1)); [lia|].
    unfold slice_from.
    destruct (Z.ltb_spec (- (stagnation_window self + 1)) 0); [lia|].
    f_equal.
    destruct (Z.le_ge_cases (- (stagnation_window self + 1))
                (Z.of_nat (List.length (parsed_errors self)))) as [Hle | Hge].
    - now rewrite Z.min_l.
    - rewrite Z.min_r, Nat2Z.id by exact Hge.
      rewrite !skipn_all2; [reflexivity | lia | lia]. }
  split; [exact E|].
  intros Hr. rewrite E. unfold parsed_errors. rewrite Hr. simpl.
  now rewrite skipn_nil.
Qed.

(** [stagnating_negative_window] on an empty log and a window of -1. *)
Lemma stagnating_negative_window_witness :
  _stagnating
    {| experiment_cmd := "exp"; script_hash := None; out_json := "r.json";
       max_stdout_chars := 4000; stagnation_window := -1;
       stagnation_improve_min := literal "0.10";
       cola_ratio_threshold := literal "1.8";
       precision_bump := 40; terms_growth := 2; _runs := [] |}
  = true.
Proof.
  apply stagnating_negative_window; [simpl; lia | reflexivity].
Defined.

(** ** What a pass does to the precision and the terms *)

Lemma iteration_first_only max_dps max_terms stop_on extra d t self w r1 st1 :
  _run_once (Build_RunConfig d t extra) (self, w) = (Return r1, st1) ->
  stop_check stop_on (status r1) = false ->
  rel_err r1 = None \/ returncode r1 <> 0
  \/ Z.min max_terms (t * terms_growth self) = t ->
  iteration max_dps max_terms stop_on extra d t (self, w)
  = (Return (Next (Z.min max_dps (d + precision_bump self)) t), st1).
Proof.
  intros H1 S1 Hc.
  destruct (run_once_return _ _ _ _ _ H1) as (Hself & _).
  unfold iteration, bind, get_self, ret. rewrite H1, S1. step_iteration.
  replace (bump_dps (fst st1) max_dps d)
    with (Z.min max_dps (d + precision_bump self))
    by (rewrite Hself; reflexivity).
  replace (grow_terms (fst st1) max_terms t)
    with (Z.min max_terms (t * terms_growth self))
    by (rewrite Hself; reflexivity).
  destruct (rel_err r1); [|reflexivity].
  destruct (Z.eqb_spec (returncode r1) 0); [|reflexivity].
  step_iteration.
  destruct (Z.eqb_spec (Z.min max_terms (t * terms_growth self)) t);
    [reflexivity|].
  destruct Hc as [Hc | [Hc | Hc]]; [discriminate | contradiction | contradiction].
Qed.

(** X13. When the first trial of a pass does not meet the stop condition
    and the grown terms [min(max_terms, terms * terms_growth)] equal the
    terms, the pass ends after that trial: no second probe is run, the
    precision becomes [min(max_dps, dps + precision_bump)] and the terms
    stay.  For terms between 0 and the ceiling and a growth of at least 1
    this is the case exactly at the ceiling, at zero terms and with a
    growth of 1. *)
Theorem terms_ceiling_raises_precision max_dps max_terms stop_on extra d t
    self w r1 st1 :
  _run_once (Build_RunConfig d t extra) (self, w) = (Return r1, st1) ->
  stop_check stop_on (status r1) = false ->
  Z.min max_terms (t * terms_growth self) = t ->
  iteration max_dps max_terms stop_on extra d t (self, w)
  = (Return (Next (Z.min max_dps (d + precision_bump self)) t), st1)
  /\ _runs (fst st1) = _runs self ++ [r1]
  /\ w_launched (snd st1)
     = _build_cmd self (Build_RunConfig d t extra) :: w_launched w
  /\ (1 <= terms_growth self -> 0 <= t <= max_terms ->
      (Z.min max_terms (t * terms_growth self) = t
       <-> t = max_terms \/ t = 0 \/ terms_growth self = 1)).
Proof.
  intros H1 S1 Hc.
  destruct (run_once_return _ _ _ _ _ H1) as (Hself & _ & Hl & _).
  conjs.
  - eapply iteration_first_only; eauto.
  - now rewrite Hself.
  - exact Hl.
  - intros Hg Ht. split; intros; nia.
Qed.

(** [terms_ceiling_raises_precision] on a first trial at the ceiling of
    the terms. *)
Lemma terms_ceiling_raises_precision_witness :
  fst (iteration 220 100000 "PASS_STRICT" [] 80 100000
         (fresh_lab, mock_world "rel_err = 1e-5" 0))
  = Return (Next 120 100000).
Proof.
  destruct (_run_once (Build_RunConfig 80 100000 [])
              (fresh_lab, mock_world "rel_err = 1e-5" 0)) as [o st1] eqn:E.
  assert (F : fst (_run_once (Build_RunConfig 80 100000 [])
                     (fresh_lab, mock_world "rel_err = 1e-5" 0)) = o)
    by (rewrite E; reflexivity).
  destruct o as [r1 | e |]; [|vm_compute in F; discriminate F|vm_compute in F; discriminate F].
  assert (S1 : stop_check "PASS_STRICT" (status r1) = false).
  { vm_compute in F. injection F as <-. reflexivity. }
  destruct (terms_ceiling_raises_precision 220 100000 "PASS_STRICT" [] 80 100000
              fresh_lab _ r1 st1 E S1 eq_refl) as (Hi & _).
  rewrite Hi. reflexivity.
Defined.

(** X14. One pass through the loop body raises the precision by at most
    two steps and multiplies the terms by at most the square of the
    growth factor (the decision and the stagnation switch can each raise
    once): the next precision is the old one, the ceiling, or the old one
    plus one or two steps. *)
Theorem pass_raises_at_most_twice max_dps max_terms stop_on extra d t st
    d' t' st' :
  0 <= precision_bump (fst st) -> 1 <= terms_growth (fst st) -> 0 <= t ->
  iteration max_dps max_terms stop_on extra d t st
  = (Return (Next d' t'), st') ->
  d' <= d + 2 * precision_bump (fst st)
  /\ t' <= t * terms_growth (fst st) * terms_growth (fst st)
  /\ (d' = d \/ d' = max_dps
      \/ d' = d + precision_bump (fst st)
      \/ d' = d + 2 * precision_bump (fst st)).
Proof.
  intros Hb Hg Ht Hit.
  destruct (iteration_cases max_dps max_terms stop_on extra d t st)
    as [new Hout].
  rewrite Hit in Hout. cbn [fst snd] in Hout. clear Hit.
  destruct st as [self w]. cbn [fst] in *.
  pose proof (outcome_shape _ _ _ _ _ _ _ _ _ _ Hout) as (Hs & _).
  cbn [fst] in Hs.
  assert (Hu : 0 <= t * terms_growth self) by (apply Z.mul_nonneg_nonneg; lia).
  assert (Hm3 : t <= t * terms_growth self) by nia.
  assert (Hm4 : t * terms_growth self
                <= t * terms_growth self * terms_growth self)
    by (revert Hu; generalize (t * terms_growth self); intros; nia).
  inversion Hout as [ | | r1 st1 H1 S1 Hbad | r1 st1 e1 H1 S1 E1 R1 G
                      | | | r1 st1 e1 r2 st2 H1 S1 E1 R1 G H2 S2 Hsw | | ];
    subst;
    destruct (run_once_return _ _ _ _ _ H1) as (Hs1 & _).
  - rewrite Hs1. unfold bump_dps. cbn [precision_bump set_runs].
    conjs; lia.
  - rewrite Hs1. unfold bump_dps. cbn [precision_bump set_runs].
    conjs; lia.
  - revert Hsw. rewrite Hs, Hs1. unfold stagnation_switch.
    rewrite cola_vs_precision_terms.
    unfold cola_vs_precision, bump_dps, grow_terms.
    cbn [precision_bump terms_growth set_runs cola_ratio_threshold].
    set (b := precision_bump self) in *. set (g := terms_growth self) in *.
    assert (Hm : Z.min max_terms (t * g) <= t * g) by lia.
    assert (Hm1 : Z.min max_terms (t * g) * g <= t * g * g)
      by (apply Z.mul_le_mono_nonneg_r; lia).
    destruct (_improvement_ratio (rel_err r1) (rel_err r2)) as [q|];
      [destruct (geb q (cola_ratio_threshold self))|]; cbn [fst];
      destruct (_stagnating _);
      repeat match goal with
             | |- context [?x <? ?y] => destruct (Z.ltb_spec x y)
             end;
      intros E; try discriminate; injection E as <- <-;
      (conjs; lia).
Qed.

(** [pass_raises_at_most_twice] on the first pass against a child that
    always prints [rel_err = 1e-5]. *)
Lemma pass_raises_at_most_twice_witness :
  exists d' t',
    fst (iteration 220 100000 "PASS_STRICT" [] 80 5000
           (fresh_lab, mock_world ("rel_err = 1e-5" ++ nl) 0))
    = Return (Next d' t')
    /\ d' <= 80 + 2 * 40 /\ t' <= 5000 * 2 * 2.
Proof.
  assert (F : fst (iteration 220 100000 "PASS_STRICT" [] 80 5000
                     (fresh_lab, mock_world ("rel_err = 1e-5" ++ nl) 0))
              = Return (Next 120 10000)) by (vm_compute; reflexivity).
  destruct (iteration 220 100000 "PASS_STRICT" [] 80 5000
              (fresh_lab, mock_world ("rel_err = 1e-5" ++ nl) 0))
    as [o st'] eqn:E.
  cbn [fst] in F. subst o. exists 120, 10000. split; [reflexivity|].
  assert (Hb : 0 <= precision_bump
                     (fst (fresh_lab, mock_world ("rel_err = 1e-5" ++ nl) 0)))
    by (vm_compute; discriminate).
  assert (Hg : 1 <= terms_growth
                     (fst (fresh_lab, mock_world ("rel_err = 1e-5" ++ nl) 0)))
    by (vm_compute; discriminate).
  assert (Ht : 0 <= 5000) by lia.
  destruct (pass_raises_at_most_twice _ _ _ _ _ _ _ _ _ _ Hb Hg Ht E)
    as (Hd & Ht' & _).
  split; [exact Hd | exact Ht'].
Defined.

(** ** Whole runs *)

(** The report of a run that returns and the state it leaves. *)
Lemma run_state a self w report st' :
  run a (self, w) = (Return report, st') ->
  fst st' = set_runs self (runs report)
  /\ report = build_report (fst st') (snd (snd (run_loop a (self, w))))
  /\ fst st' = fst (snd (run_loop a (self, w)))
  /\ snd st' = with_file (snd (snd (run_loop a (self, w)))) (out_json self) report
  /\ same_host w (snd (snd (run_loop a (self, w))))
  /\ exists s, fst (run_loop a (self, w)) = Return s.
Proof.
  rewrite run_unfold.
  destruct (loop_spec (max_dps a) (max_terms a) (stop_on a) (forwarded_args a)
              (Z.to_nat (max_steps a)) (start_dps a) (start_terms a) (self, w))
    as (new & Hs & Hh & _).
  fold (run_loop a (self, w)) in Hs, Hh.
  destruct (run_loop a (self, w)) as [[s | e |] [self' w']];
    [|discriminate|discriminate].
  cbn [fst snd] in *.
  destruct (w_writable w' (out_json self')); [|discriminate].
  intros H. injection H as <- <-. cbn [fst snd].
  conjs; eauto.
  - rewrite Hs. reflexivity.
  - rewrite Hs. reflexivity.
Qed.

(** X15. The loop is left by the [break] of the stagnation branch only
    when the log is stagnating at that moment and the last trial ran
    with at least [max_terms] terms; for a window that is not negative
    the log then holds at least [stagnation_window + 1] runs with a
    relative error. *)
Theorem give_up_only_when_stagnating (a : RunArgs) (self : OuroborosLab)
    (w : World) :
  fst (run_loop a (self, w)) = Return STOPPED_CANNOT_GROW ->
  _stagnating (fst (snd (run_loop a (self, w)))) = true
  /\ (exists old r,
        _runs (fst (snd (run_loop a (self, w)))) = old ++ [r]
        /\ max_terms a <= terms (config r))
  /\ (0 <= stagnation_window self ->
      stagnation_window self + 1
      <= Z.of_nat (List.length
                     (parsed_errors (fst (snd (run_loop a (self, w))))))).
Proof.
  intros H. unfold run_loop in *.
  destruct (loop_counts (max_dps a) (max_terms a) (stop_on a) (forwarded_args a)
              (Z.to_nat (max_steps a)) (start_dps a) (start_terms a) (self, w))
    as (new & Hr & _ & _ & Hc).
  destruct (Hc H) as (Hst & l & x & -> & Hx).
  destruct (loop_spec (max_dps a) (max_terms a) (stop_on a) (forwarded_args a)
              (Z.to_nat (max_steps a)) (start_dps a) (start_terms a) (self, w))
    as (new' & Hs & _).
  conjs.
  - exact Hst.
  - exists (_runs self ++ l), x. cbn [fst] in Hr. rewrite Hr, app_assoc. auto.
  - intros Hw. apply stagnating_spec in Hst; [|rewrite Hs; exact Hw].
    rewrite Hs in Hst at 1. exact (proj1 Hst).
Qed.

(** [give_up_only_when_stagnating] on the run with the default arguments
    against a child that always prints [rel_err = 1e-5]. *)
Lemma give_up_only_when_stagnating_witness :
  _stagnating
    (fst (snd (run_loop (with_max_steps default_args 5)
                 (fresh_lab, mock_world ("rel_err = 1e-5" ++ nl) 0)))) = true.
Proof.
  apply give_up_only_when_stagnating. vm_compute. reflexivity.
Defined.

(** X16. When the loop ends by the exhaustion of [range(max_steps)], it
    has appended between [max_steps] and [2 * max_steps] runs, none of
    which meets the stop condition. *)
Theorem budget_exhausted_trial_count (a : RunArgs) (self : OuroborosLab)
    (w : World) :
  fst (run_loop a (self, w)) = Return STOPPED_BUDGET ->
  exists new,
    _runs (fst (snd (run_loop a (self, w)))) = _runs self ++ new
    /\ (Z.to_nat (max_steps a) <= List.length new <= 2 * Z.to_nat (max_steps a))%nat
    /\ Forall (no_stop (stop_on a)) new.
Proof.
  intros H. unfold run_loop in *.
  destruct (loop_counts (max_dps a) (max_terms a) (stop_on a) (forwarded_args a)
              (Z.to_nat (max_steps a)) (start_dps a) (start_terms a) (self, w))
    as (new & Hr & _ & Hb & _).
  destruct (loop_spec (max_dps a) (max_terms a) (stop_on a) (forwarded_args a)
              (Z.to_nat (max_steps a)) (start_dps a) (start_terms a) (self, w))
    as (new' & Hs & _ & Hlen & _ & _ & Hno).
  cbn [fst] in *.
  assert (new' = new).
  { rewrite Hs in Hr. simpl in Hr. now apply app_inv_head in Hr. }
  subst new'. exists new. conjs; auto.
  apply Hno. rewrite H. discriminate.
Qed.

(** [budget_exhausted_trial_count] on three passes against a child that
    prints no result. *)
Lemma budget_exhausted_trial_count_witness :
  exists new,
    _runs (fst (snd (run_loop (with_max_steps default_args 3)
                       (fresh_lab, mock_world "no result" 0)))) = new
    /\ (3 <= List.length new <= 6)%nat.
Proof.
  destruct (budget_exhausted_trial_count (with_max_steps default_args 3)
              fresh_lab (mock_world "no result" 0))
    as (new & Hr & Hlen & _).
  - vm_compute. reflexivity.
  - exists new. split; [exact Hr | exact Hlen].
Defined.

Lemma ascending_lower d t l :
  ascending d t l ->
  Forall (fun r => d <= dps (config r) /\ t <= terms (config r)) l.
Proof.
  revert d t. induction l as [|r l IH]; intros d t H; constructor.
  - destruct H as (A & B & _). auto.
  - destruct H as (A & B & C). eapply Forall_impl; [|apply (IH _ _ C)].
    simpl. intros x [? ?]. lia.
Qed.

Lemma steady_climbing self a :
  steady self a ->
  climbing (max_dps a) (max_terms a) (start_dps a) (start_terms a) self.
Proof. unfold steady, climbing. tauto. Qed.

(** X17. With a precision step that is not negative, a growth factor of
    at least 1, start values that are not above the ceilings and start
    terms that are not negative, every trial of a run has a precision
    between [start_dps] and [max_dps] and terms between [start_terms] and
    [max_terms]. *)
Theorem trials_within_bounds (a : RunArgs) (self : OuroborosLab) (w : World) :
  steady self a ->
  exists new,
    _runs (fst (snd (run_loop a (self, w)))) = _runs self ++ new
    /\ Forall (fun r => start_dps a <= dps (config r) <= max_dps a
                        /\ start_terms a <= terms (config r) <= max_terms a)
              new.
Proof.
  intros Hs. unfold run_loop.
  destruct (loop_ascends (max_dps a) (max_terms a) (stop_on a) (forwarded_args a)
              (Z.to_nat (max_steps a)) (start_dps a) (start_terms a) (self, w)
              (steady_climbing _ _ Hs)) as (new & Hr & Ha & Hb).
  exists new. split; [exact Hr|].
  apply ascending_lower in Ha. rewrite Forall_forall in *.
  intros r Hin. specialize (Ha r Hin). specialize (Hb r Hin). lia.
Qed.

Lemma steady_defaults n cmd hash out :
  steady (new_lab cmd hash out) (with_max_steps default_args n).
Proof. unfold steady. simpl. lia. Qed.

(** [trials_within_bounds] on the run with the default arguments against
    a child that always prints [rel_err = 1e-5]. *)
Lemma trials_within_bounds_witness :
  Forall (fun r => 80 <= dps (config r) <= 220
                   /\ 5000 <= terms (config r) <= 100000)
    (_runs (fst (snd (run_loop (with_max_steps default_args 5)
                        (fresh_lab, mock_world ("rel_err = 1e-5" ++ nl) 0))))).
Proof.
  destruct (trials_within_bounds (with_max_steps default_args 5) fresh_lab
              (mock_world ("rel_err = 1e-5" ++ nl) 0)
              (steady_defaults 5 _ _ _)) as (new & Hr & Hb).
  rewrite Hr. exact Hb.
Defined.

(** X18. With a precision step that is not negative, a growth factor of
    at least 1, start values that are not above the ceilings and start
    terms that are not negative, the search never goes back: along the
    runs that a run appends to the log, neither the precision nor the
    terms ever decrease. *)
Theorem search_never_goes_back (a : RunArgs) (self : OuroborosLab) (w : World) :
  steady self a ->
  exists new,
    _runs (fst (snd (run_loop a (self, w)))) = _runs self ++ new
    /\ forall i j ri rj,
         (i <= j)%nat -> nth_error new i = Some ri -> nth_error new j = Some rj ->
         dps (config ri) <= dps (config rj)
         /\ terms (config ri) <= terms (config rj).
Proof.
  intros Hs. unfold run_loop.
  destruct (loop_ascends (max_dps a) (max_terms a) (stop_on a) (forwarded_args a)
              (Z.to_nat (max_steps a)) (start_dps a) (start_terms a) (self, w)
              (steady_climbing _ _ Hs)) as (new & Hr & Ha & _).
  exists new. split; [exact Hr|]. eapply ascending_pairs; exact Ha.
Qed.

(** [search_never_goes_back] on the first and the last of the eight
    trials against a child that always prints [rel_err = 1e-5]. *)
Lemma search_never_goes_back_witness :
  exists ri rj,
    nth_error (_runs (fst (snd (run_loop (with_max_steps default_args 5)
                 (fresh_lab, mock_world ("rel_err = 1e-5" ++ nl) 0))))) 0 = Some ri
    /\ nth_error (_runs (fst (snd (run_loop (with_max_steps default_args 5)
                 (fresh_lab, mock_world ("rel_err = 1e-5" ++ nl) 0))))) 7 = Some rj
    /\ dps (config ri) <= dps (config rj)
    /\ terms (config ri) <= terms (config rj).
Proof.
  destruct (search_never_goes_back (with_max_steps default_args 5) fresh_lab
              (mock_world ("rel_err = 1e-5" ++ nl) 0)
              (steady_defaults 5 _ _ _)) as (new & Hr & Hb).
  rewrite Hr. change (_runs fresh_lab ++ new) with new.
  assert (Hlen : List.length new = 8%nat).
  { change new with (_runs fresh_lab ++ new). rewrite <- Hr.
    vm_compute. reflexivity. }
  destruct (nth_error new 0) as [ri|] eqn:E0;
    [|apply nth_error_None in E0; lia].
  destruct (nth_error new 7) as [rj|] eqn:E7;
    [|apply nth_error_None in E7; lia].
  exists ri, rj. split; [reflexivity|]. split; [reflexivity|].
  apply (Hb 0%nat 7%nat); [lia | exact E0 | exact E7].
Defined.

(** X19. With a positive step budget the first trial of a run is made at
    [start_dps], [start_terms] and the forwarded arguments, whatever the
    ceilings are: the ceilings bound the raised values only, not the
    start values.  When the loop ends without an exception at least one
    run was appended. *)
Theorem first_trial_at_start (a : RunArgs) (self : OuroborosLab) (w : World) :
  0 < max_steps a ->
  exists new,
    _runs (fst (snd (run_loop a (self, w)))) = _runs self ++ new
    /\ (forall r rest,
          new = r :: rest ->
          config r = Build_RunConfig (start_dps a) (start_terms a)
                       (forwarded_args a))
    /\ (forall s, fst (run_loop a (self, w)) = Return s -> new <> []).
Proof.
  intros Hsteps. unfold run_loop.
  destruct (Z.to_nat (max_steps a)) as [|steps] eqn:E; [lia|].
  destruct (iteration_cases (max_dps a) (max_terms a) (stop_on a)
              (forwarded_args a) (start_dps a) (start_terms a) (self, w))
    as [new1 Hout].
  pose proof (outcome_shape _ _ _ _ _ _ _ _ _ _ Hout) as (Hs1 & Hshape).
  assert (Hfirst : forall r rest, new1 = r :: rest ->
            config r = Build_RunConfig (start_dps a) (start_terms a)
                         (forwarded_args a)).
  { intros r rest Hn.
    destruct Hshape as [[-> _] | [(r1 & -> & C) | (r1 & r2 & -> & C & _)]];
      [discriminate | |]; injection Hn as <- _; exact C. }
  simpl loop. unfold bind.
  destruct (iteration (max_dps a) (max_terms a) (stop_on a) (forwarded_args a)
              (start_dps a) (start_terms a) (self, w))
    as [[[s | d' t'] | e |] st1]; cbn [fst snd] in *.
  - exists new1. unfold ret. cbn [fst snd]. rewrite Hs1. conjs; auto.
    intros s' _ ->. apply outcome_first_trial in Hout. simpl in Hout. lia.
  - destruct (loop_counts (max_dps a) (max_terms a) (stop_on a)
                (forwarded_args a) steps d' t' st1) as (new2 & Hr2 & _).
    exists (new1 ++ new2). conjs.
    + rewrite Hr2, Hs1. simpl. now rewrite app_assoc.
    + intros r rest Hn. destruct new1 as [|r0 new1'].
      * apply outcome_first_trial in Hout. simpl in Hout. lia.
      * injection Hn as <- _. eapply Hfirst. reflexivity.
    + intros s _ Hn. apply app_eq_nil in Hn as [-> _].
      apply outcome_first_trial in Hout. simpl in Hout. lia.
  - exists new1. cbn [fst snd]. rewrite Hs1. conjs; auto. discriminate.
  - exists new1. cbn [fst snd]. rewrite Hs1. conjs; auto. discriminate.
Qed.

(** [first_trial_at_start] on start values above both ceilings. *)
Lemma first_trial_at_start_witness :
  exists r rest,
    _runs (fst (snd (run_loop above_ceilings
                       (fresh_lab, mock_world "rel_err = 1e-5" 0)))) = r :: rest
    /\ dps (config r) = 500 /\ terms (config r) = 200000.
Proof.
  destruct (first_trial_at_start above_ceilings fresh_lab
              (mock_world "rel_err = 1e-5" 0) eq_refl) as (new & Hr & Hc & Hn).
  change (_runs fresh_lab ++ new) with new in Hr.
  assert (Hret : fst (run_loop above_ceilings
                        (fresh_lab, mock_world "rel_err = 1e-5" 0))
                 = Return STOPPED_BUDGET) by (vm_compute; reflexivity).
  destruct new as [|r rest]; [exfalso; exact (Hn _ Hret eq_refl)|].
  exists r, rest. split; [exact Hr|].
  rewrite (Hc r rest eq_refl). split; reflexivity.
Defined.

(** X20. Every trial of a run carries the same extra arguments: the
    given list when it is not empty, and [--tol] with the tolerance label
    otherwise, an empty list being treated as an absent one.  The
    forwarded list is never empty, and the tolerance label is used only
    when no list is given. *)
Theorem forwarded_arguments (a : RunArgs) (self : OuroborosLab) (w : World) :
  exists new,
    _runs (fst (snd (run_loop a (self, w)))) = _runs self ++ new
    /\ Forall (fun r => extra_args (config r) = forwarded_args a) new
    /\ forwarded_args a <> []
    /\ (forall l, run_extra_args a = Some l -> l <> [] -> forwarded_args a = l)
    /\ (run_extra_args a = None \/ run_extra_args a = Some [] ->
        forwarded_args a = ["--tol"; tol_label a]).
Proof.
  destruct (loop_invariant (max_dps a) (max_terms a) (stop_on a)
              (forwarded_args a) (fun _ _ _ => True)
              (fun r => extra_args (config r) = forwarded_args a))
    with (steps := Z.to_nat (max_steps a)) (d := start_dps a)
         (t := start_terms a) (st := (self, w)) as (new & Hr & HQ).
  - intros d t st o st' new _ Hout. split; [|auto].
    destruct (outcome_shape _ _ _ _ _ _ _ _ _ _ Hout)
      as (_ & [[-> _] | [(r1 & -> & C) | (r1 & r2 & -> & C1 & C2)]]);
      repeat constructor; rewrite ?C, ?C1, ?C2; reflexivity.
  - exact I.
  - exists new. unfold run_loop. conjs; auto.
    + unfold forwarded_args. destruct (run_extra_args a) as [[|x l]|]; discriminate.
    + intros l E Hl. unfold forwarded_args. rewrite E.
      destruct l; [contradiction | reflexivity].
    + intros [E | E]; unfold forwarded_args; rewrite E; reflexivity.
Qed.

(** [forwarded_arguments] on an empty list of extra arguments. *)
Lemma forwarded_arguments_witness :
  forwarded_args
    {| start_dps := 80; start_terms := 5000; max_dps := 220;
       max_terms := 100000; tol_label := "1e-30"; stop_on := "PASS_STRICT";
       max_steps := 30; run_extra_args := Some [] |}
  = ["--tol"; "1e-30"].
Proof.
  destruct (forwarded_arguments
              {| start_dps := 80; start_terms := 5000; max_dps := 220;
                 max_terms := 100000; tol_label := "1e-30";
                 stop_on := "PASS_STRICT"; max_steps := 30;
                 run_extra_args := Some [] |}
              fresh_lab (mock_world "rel_err = 1e-13" 0))
    as (new & _ & _ & _ & _ & H).
  apply H. right. reflexivity.
Defined.

(** X21. With a [stop_on] that is neither PASS_STRICT nor PASS_GUERRILLA
    no status meets the stop condition: the loop is never left by the
    [break] of a stop check, not even after a strict pass. *)
Theorem unknown_stop_on_never_stops (a : RunArgs) (self : OuroborosLab)
    (w : World) :
  stop_on a <> "PASS_STRICT" -> stop_on a <> "PASS_GUERRILLA" ->
  fst (run_loop a (self, w)) <> Return STOPPED_PASS
  /\ forall status, stop_check (stop_on a) status = false.
Proof.
  intros H1 H2.
  assert (Hno : forall status, stop_check (stop_on a) status = false).
  { intros status. unfold stop_check.
    destruct (String.eqb_spec (stop_on a) "PASS_STRICT"); [contradiction|].
    destruct (String.eqb_spec (stop_on a) "PASS_GUERRILLA"); [contradiction|].
    reflexivity. }
  split; [|exact Hno]. intros H.
  destruct (run_loop_spec a self w) as (new & _ & Hp & _).
  destruct (Hp H) as (l1 & x & _ & Hx). rewrite Hno in Hx. discriminate.
Qed.

(** [unknown_stop_on_never_stops] on a misspelt [stop_on] against a
    child that always reports a strict pass. *)
Lemma unknown_stop_on_never_stops_witness :
  fst (run_loop (with_stop_on (with_max_steps default_args 2) "pass_strict")
         (fresh_lab, mock_world "rel_err = 1e-13" 0))
  <> Return STOPPED_PASS.
Proof.
  apply unknown_stop_on_never_stops; cbn [stop_on with_stop_on]; discriminate.
Defined.

(** X22. With a step budget of zero or less the loop body is never
    entered: no child is launched, the log and the host are as they were,
    and [run] writes and returns the report of the log as it stands, or
    raises OSError when the report file cannot be opened. *)
Theorem zero_budget_report (a : RunArgs) (self : OuroborosLab) (w : World) :
  max_steps a <= 0 ->
  run_loop a (self, w) = (Return STOPPED_BUDGET, (self, w))
  /\ run a (self, w)
     = if w_writable w (out_json self)
       then (Return (build_report self w),
             (self, with_file w (out_json self) (build_report self w)))
       else (Raise OSError, (self, w)).
Proof.
  intros H.
  assert (E : run_loop a (self, w) = (Return STOPPED_BUDGET, (self, w))).
  { unfold run_loop. replace (Z.to_nat (max_steps a)) with 0%nat by lia.
    reflexivity. }
  split; [exact E|]. rewrite run_unfold, E. reflexivity.
Qed.

(** [zero_budget_report] on a fresh lab and a budget of -3. *)
Lemma zero_budget_report_witness :
  exists report,
    fst (run (with_max_steps default_args (-3))
           (fresh_lab, mock_world "rel_err = 1e-13" 0)) = Return report
    /\ runs report = []
    /\ w_launched (snd (snd (run (with_max_steps default_args (-3))
                               (fresh_lab, mock_world "rel_err = 1e-13" 0))))
       = [].
Proof.
  destruct (zero_budget_report (with_max_steps default_args (-3)) fresh_lab
              (mock_world "rel_err = 1e-13" 0)) as (_ & E).
  - cbn [max_steps with_max_steps]. lia.
  - rewrite E.
    change (w_writable (mock_world "rel_err = 1e-13" 0) (out_json fresh_lab))
      with true.
    cbv iota. cbn [fst snd]. eexists. conjs; reflexivity.
Defined.

(** X23. A report file that cannot be opened is found out only after the
    search: the loop runs as it would otherwise, with all its trials
    launched and logged in the object, and [run] then raises OSError
    instead of returning the report; a loop that raises or hangs ends
    [run] the same way. *)
Theorem unwritable_report_fails_late (a : RunArgs) (self : OuroborosLab)
    (w : World) :
  w_writable w (out_json self) = false ->
  run a (self, w)
  = match run_loop a (self, w) with
    | (Return _, st') => (Raise OSError, st')
    | (Raise e, st') => (Raise e, st')
    | (Hang, st') => (Hang, st')
    end.
Proof.
  intros Hw. rewrite run_unfold.
  destruct (loop_spec (max_dps a) (max_terms a) (stop_on a) (forwarded_args a)
              (Z.to_nat (max_steps a)) (start_dps a) (start_terms a) (self, w))
    as (new & Hs & Hh & _).
  fold (run_loop a (self, w)) in Hs, Hh.
  destruct (run_loop a (self, w)) as [[s | e |] [self' w']];
    [|reflexivity|reflexivity].
  cbn [fst snd] in *. destruct Hh as (_ & _ & Hwr & _).
  rewrite Hwr, Hs. cbn [out_json set_runs]. now rewrite Hw.
Qed.

(** [unwritable_report_fails_late] on two passes of two trials each. *)
Lemma unwritable_report_fails_late_witness :
  fst (run (with_max_steps default_args 2)
         (fresh_lab,
          {| w_proc := w_proc (mock_world "rel_err = 1e-5" 0);
             w_clock := w_clock (mock_world "rel_err = 1e-5" 0);
             w_writable := fun _ => false;
             w_env := []; w_launched := []; w_ticks := 0; w_files := [] |}))
  = Raise OSError
  /\ List.length
       (_runs (fst (snd
          (run (with_max_steps default_args 2)
             (fresh_lab,
              {| w_proc := w_proc (mock_world "rel_err = 1e-5" 0);
                 w_clock := w_clock (mock_world "rel_err = 1e-5" 0);
                 w_writable := fun _ => false;
                 w_env := []; w_launched := []; w_ticks := 0;
                 w_files := [] |})))))
     = 4%nat.
Proof.
  rewrite unwritable_report_fails_late by reflexivity.
  split; vm_compute; reflexivity.
Defined.

Lemma loop_unparsed a steps :
  forall d st,
    well_formed (fst st) a -> never_parses (snd st) ->
    in_range a d (start_terms a) ->
    exists new st',
      loop (max_dps a) (max_terms a) (stop_on a) (forwarded_args a)
           steps d (start_terms a) st = (Return STOPPED_BUDGET, st')
      /\ _runs (fst st') = _runs (fst st) ++ new
      /\ List.length new = steps
      /\ forall k r,
           nth_error new k = Some r ->
           config r
           = Build_RunConfig
               (Nat.iter k (fun x => Z.min (max_dps a) (x + precision_bump (fst st))) d)
               (start_terms a) (forwarded_args a)
           /\ rel_err r = None /\ status r = "FAIL".
Proof.
  induction steps as [|steps IH]; intros d [self w] Hwf Hnp Hin; cbn [fst snd] in *.
  - exists [], (self, w). simpl. rewrite app_nil_r. conjs; auto.
    intros [|k] r; discriminate.
  - destruct (Hnp (List.length (w_launched w))
                (_build_cmd self (Build_RunConfig d (start_terms a)
                                    (forwarded_args a)))) as (p & Hp & Hnone).
    destruct (in_range_exact _ _ _ _ Hwf Hin) as [Hd Ht].
    destruct (run_once_succeeds (Build_RunConfig d (start_terms a) (forwarded_args a))
                self w p Hp Hd Ht) as (rr & st1 & H1).
    destruct (run_once_return _ _ _ _ _ H1)
      as (Hs1 & Hh & _ & Hc & Hst & p' & Hp' & Hr & _).
    rewrite Hp in Hp'. injection Hp' as <-. rewrite Hnone in Hr.
    assert (Hfail : status rr = "FAIL") by (rewrite Hst, Hr; reflexivity).
    assert (S1 : stop_check (stop_on a) (status rr) = false)
      by (rewrite Hfail; apply stop_check_fail).
    pose proof (iteration_first_only (max_dps a) (max_terms a) (stop_on a)
                  (forwarded_args a) d (start_terms a) self w rr st1 H1 S1
                  (or_introl Hr)) as Hit.
    destruct (IH (Z.min (max_dps a) (d + precision_bump self)) st1)
      as (new2 & st' & Hl & Hr2 & Hlen & Hall).
    + rewrite Hs1. exact Hwf.
    + intros k cmd. destruct Hh as (Hproc & _). rewrite Hproc. apply Hnp.
    + apply (in_range_bump self a d (start_terms a) Hwf Hin).
    + exists (rr :: new2), st'. conjs.
      * simpl loop. unfold bind. rewrite Hit. exact Hl.
      * rewrite Hr2, Hs1. simpl. now rewrite <- app_assoc.
      * simpl. now rewrite Hlen.
      * intros [|k] r Hk; simpl in Hk.
        -- injection Hk as <-. auto.
        -- destruct (Hall k r Hk) as (C & R & S). conjs; auto.
           rewrite C, Hs1. rewrite Nat.iter_succ_r. reflexivity.
Qed.

Lemma iter_bump (m b s : Z) (k : nat) :
  0 <= b ->
  Nat.iter (S k) (fun x => Z.min m (x + b)) s
  = Z.min m (s + Z.of_nat (S k) * b).
Proof.
  intros Hb. induction k as [|k IH].
  - cbn [Nat.iter nat_rect]. f_equal. lia.
  - rewrite Nat.iter_succ, IH.
    replace (Z.of_nat (S (S k)) * b) with (Z.of_nat (S k) * b + b) by lia.
    generalize (Z.of_nat (S k) * b). intros x. lia.
Qed.

(** X24. Against a host none of whose children prints a readable
    relative error, and with well-formed arguments, the loop makes
    exactly one trial per step and ends by the exhaustion of the budget:
    trial number [k] (from 0) runs at precision [start_dps] for [k = 0]
    and [min(max_dps, start_dps + k * precision_bump)] after that, always
    at [start_terms], has no relative error and is classified FAIL; no
    second probe is ever made. *)
Theorem unparseable_child_run (a : RunArgs) (self : OuroborosLab) (w : World) :
  well_formed self a -> never_parses w ->
  exists new,
    fst (run_loop a (self, w)) = Return STOPPED_BUDGET
    /\ _runs (fst (snd (run_loop a (self, w)))) = _runs self ++ new
    /\ List.length new = Z.to_nat (max_steps a)
    /\ forall k r,
         nth_error new k = Some r ->
         dps (config r)
         = (if Nat.eqb k 0 then start_dps a
            else Z.min (max_dps a)
                   (start_dps a + Z.of_nat k * precision_bump self))
         /\ terms (config r) = start_terms a
         /\ extra_args (config r) = forwarded_args a
         /\ rel_err r = None /\ status r = "FAIL".
Proof.
  intros Hwf Hnp.
  destruct (loop_unparsed a (Z.to_nat (max_steps a)) (start_dps a) (self, w)
              Hwf Hnp) as (new & st' & Hl & Hr & Hlen & Hall).
  - apply in_range_start. destruct Hwf as (_ & _ & _ & _ & Hst & _). lia.
  - exists new. unfold run_loop. rewrite Hl. conjs; auto.
    intros k r Hk. destruct (Hall k r Hk) as (C & R & S). rewrite C.
    cbn [dps terms extra_args fst]. conjs; auto.
    destruct k as [|k]; [reflexivity|].
    cbn [Nat.eqb]. apply iter_bump. exact (proj1 Hwf).
Qed.

(** [unparseable_child_run] on four steps against a child that prints a
    traceback and exits with code 1. *)
Lemma unparseable_child_run_witness :
  List.length
    (_runs (fst (snd (run_loop (with_max_steps default_args 4)
                        (fresh_lab, mock_world "Traceback" 1)))))
  = 4%nat.
Proof.
  destruct (unparseable_child_run (with_max_steps default_args 4) fresh_lab
              (mock_world "Traceback" 1)) as (new & _ & Hr & Hlen & _).
  - apply well_formed_defaults.
  - intros k cmd. eexists. split; reflexivity.
  - rewrite Hr. exact Hlen.
Defined.

(** X25. The log is never reset: when [run] is called again on the same
    object, the report of the second call lists the runs of the first
    report followed by the new ones, the report file holds the second
    report, and a passing run of the first call keeps the best-guerrilla
    selection of the second report from being absent. *)
Theorem second_run_accumulates (a1 a2 : RunArgs) (self : OuroborosLab)
    (w : World) report1 st1 report2 st2 :
  run a1 (self, w) = (Return report1, st1) ->
  run a2 st1 = (Return report2, st2) ->
  (exists new, runs report2 = runs report1 ++ new)
  /\ read_file (w_files (snd st2)) (out_json self) = Some report2
  /\ (forall r, In r (runs report1) -> is_pass r = true ->
        best_guerrilla report2 <> None).
Proof.
  intros H1 H2.
  destruct (run_state _ _ _ _ _ H1) as (Hs1 & _).
  destruct st1 as [self1 w1]. cbn [fst] in Hs1.
  destruct (run_state _ _ _ _ _ H2) as (Hs2 & Hrep & Hst & Hw2 & _).
  destruct (run_loop_spec a2 self1 w1) as (new & Hr & _).
  assert (Hruns : runs report2 = runs report1 ++ new).
  { rewrite Hrep. cbn [runs build_report]. rewrite Hst, Hr, Hs1. reflexivity. }
  conjs.
  - eauto.
  - rewrite Hw2. cbn [w_files with_file read_file]. rewrite Hs1.
    cbn [out_json set_runs]. now rewrite String.eqb_refl.
  - intros r Hin Hp Hnone.
    pose proof (best_by_cheapest_first (fst st2) is_pass) as Hb.
    rewrite Hrep in Hnone. cbn [best_guerrilla build_report] in Hnone.
    rewrite Hnone in Hb. cbn [cheapest_first] in Hb.
    rewrite (Hb r) in Hp; [discriminate|].
    replace (_runs (fst st2)) with (runs report2)
      by (rewrite Hrep; reflexivity).
    rewrite Hruns. apply in_or_app. now left.
Qed.

(** [second_run_accumulates] on two runs of one step each. *)
Lemma second_run_accumulates_witness :
  exists report1 report2,
    fst (run (with_max_steps default_args 1)
           (fresh_lab, mock_world "rel_err = 1e-13" 0)) = Return report1
    /\ fst (run (with_max_steps default_args 1)
              (snd (run (with_max_steps default_args 1)
                      (fresh_lab, mock_world "rel_err = 1e-13" 0))))
       = Return report2
    /\ exists new, runs report2 = runs report1 ++ new.
Proof.
  destruct (run (with_max_steps default_args 1)
              (fresh_lab, mock_world "rel_err = 1e-13" 0)) as [o1 st1] eqn:E1.
  assert (F1 : fst (run (with_max_steps default_args 1)
                      (fresh_lab, mock_world "rel_err = 1e-13" 0)) = o1)
    by (rewrite E1; reflexivity).
  assert (G1 : snd (run (with_max_steps default_args 1)
                      (fresh_lab, mock_world "rel_err = 1e-13" 0)) = st1)
    by (rewrite E1; reflexivity).
  destruct o1 as [report1 | e |]; [|vm_compute in F1; discriminate F1|vm_compute in F1; discriminate F1].
  cbn [snd].
  destruct (run (with_max_steps default_args 1) st1) as [o2 st2] eqn:E2.
  assert (F2 : fst (run (with_max_steps default_args 1) st1) = o2)
    by (rewrite E2; reflexivity).
  destruct o2 as [report2 | e |];
    [|rewrite <- G1 in F2; vm_compute in F2; discriminate F2
     |rewrite <- G1 in F2; vm_compute in F2; discriminate F2].
  exists report1, report2. split; [reflexivity|]. split; [reflexivity|].
  exact (proj1 (second_run_accumulates _ _ _ _ _ _ _ _ E1 E2)).
Defined.

Lemma outcome_launches max_dps max_terms stop_on extra d t st f st' new :
  iteration_outcome max_dps max_terms stop_on extra d t st (Return f) st' new ->
  w_launched (snd st')
  = rev (map (fun r => _build_cmd (fst st) (config r)) new) ++ w_launched (snd st).
Proof.
  intros Hout. destruct st as [self w]. cbn [fst snd].
  inversion Hout as [ | r1 st1 H1 S1 | r1 st1 H1 S1 Hbad | r1 st1 e1 H1 S1 E1 R1 G
                      | | r1 st1 e1 r2 st2 H1 S1 E1 R1 G H2 S2
                      | r1 st1 e1 r2 st2 H1 S1 E1 R1 G H2 S2 Hsw | | ];
    subst;
    destruct (run_once_return _ _ _ _ _ H1) as (Hs1 & _ & Hl1 & C1 & _);
    try (destruct st1 as [self1 w1];
         destruct (run_once_return _ _ _ _ _ H2) as (Hs2 & _ & Hl2 & C2 & _));
    cbn [fst snd map rev app] in *; rewrite ?C1, ?C2; try exact Hl1.
  - rewrite Hl2, Hl1, Hs1. reflexivity.
  - rewrite Hl2, Hl1, Hs1. reflexivity.
Qed.

Lemma loop_launches max_dps max_terms stop_on extra steps :
  forall d t st s st',
    loop max_dps max_terms stop_on extra steps d t st = (Return s, st') ->
    exists new,
      _runs (fst st') = _runs (fst st) ++ new
      /\ w_launched (snd st')
         = rev (map (fun r => _build_cmd (fst st) (config r)) new)
           ++ w_launched (snd st).
Proof.
  induction steps as [|steps IH]; intros d t st s st' H.
  - injection H as _ <-. exists []. simpl. now rewrite app_nil_r.
  - destruct (iteration_cases max_dps max_terms stop_on extra d t st)
      as [new1 Hout].
    pose proof (outcome_shape _ _ _ _ _ _ _ _ _ _ Hout) as (Hs1 & _).
    simpl loop in H. unfold bind in H.
    destruct (iteration max_dps max_terms stop_on extra d t st)
      as [[[s1 | d' t'] | e |] st1]; cbn [fst snd] in *;
      [| |discriminate|discriminate].
    + injection H as _ <-. exists new1. split; [now rewrite Hs1|].
      apply (outcome_launches _ _ _ _ _ _ _ _ _ _ Hout).
    + destruct (IH _ _ _ _ _ H) as (new2 & Hr2 & Hl2).
      exists (new1 ++ new2). split.
      * rewrite Hr2, Hs1. simpl. now rewrite app_assoc.
      * rewrite Hl2, (outcome_launches _ _ _ _ _ _ _ _ _ _ Hout).
        rewrite map_app, rev_app_distr, <- app_assoc, Hs1. reflexivity.
Qed.

(** X26. When [run] returns, the children it launched are exactly the
    runs it appended to the log, in the same order, each with the command
    built from the configuration of its run: no child is launched without
    being logged. *)
Theorem launches_match_log (a : RunArgs) (self : OuroborosLab) (w : World)
    report st' :
  run a (self, w) = (Return report, st') ->
  exists new,
    runs report = _runs self ++ new
    /\ w_launched (snd st')
       = rev (map (fun r => _build_cmd self (config r)) new) ++ w_launched w
    /\ List.length (w_launched (snd st'))
       = (List.length (w_launched w) + List.length new)%nat.
Proof.
  intros H.
  destruct (run_state _ _ _ _ _ H) as (_ & Hrep & Hst & Hw & _ & s & Hl).
  unfold run_loop in *.
  destruct (loop (max_dps a) (max_terms a) (stop_on a) (forwarded_args a)
              (Z.to_nat (max_steps a)) (start_dps a) (start_terms a) (self, w))
    as [o stl] eqn:El.
  cbn [fst snd] in *. subst o.
  destruct (loop_launches _ _ _ _ _ _ _ _ _ _ El) as (new & Hr & Hlaunch).
  cbn [fst snd] in *.
  exists new. conjs.
  - rewrite Hrep. cbn [runs build_report]. now rewrite Hst.
  - rewrite Hw. cbn [w_launched with_file]. exact Hlaunch.
  - rewrite Hw. cbn [w_launched with_file]. rewrite Hlaunch.
    rewrite length_app, length_rev, length_map. lia.
Qed.

(** [launches_match_log] on the run with the default arguments against
    a child that always prints [rel_err = 1e-5]. *)
Lemma launches_match_log_witness :
  exists report,
    fst (run (with_max_steps default_args 5)
           (fresh_lab, mock_world ("rel_err = 1e-5" ++ nl) 0)) = Return report
    /\ List.length
         (w_launched (snd (snd (run (with_max_steps default_args 5)
                 (fresh_lab, mock_world ("rel_err = 1e-5" ++ nl) 0)))))
       = List.length (runs report).
Proof.
  destruct (run (with_max_steps default_args 5)
              (fresh_lab, mock_world ("rel_err = 1e-5" ++ nl) 0))
    as [o st'] eqn:E.
  assert (F : fst (run (with_max_steps default_args 5)
                     (fresh_lab, mock_world ("rel_err = 1e-5" ++ nl) 0)) = o)
    by (rewrite E; reflexivity).
  destruct o as [report | e |]; [|vm_compute in F; discriminate F|vm_compute in F; discriminate F].
  exists report. split; [reflexivity|]. cbn [snd].
  destruct (launches_match_log _ _ _ _ _ E) as (new & Hr & _ & Hlen).
  rewrite Hlen, Hr. reflexivity.
Defined.

Lemma status_strict_error r :
  status r = fst (classify (rel_err r)) -> is_strict r = true ->
  exists e, rel_err r = Some e /\ ltb e PASS_STRICT = true.
Proof.
  unfold is_strict. intros -> H.
  destruct (rel_err r) as [e|]; [|discriminate].
  exists e. split; [reflexivity|]. rewrite classify_some_status in H.
  destruct (ltb e PASS_STRICT); [reflexivity|].
  destruct (ltb e PASS_GUERR); [discriminate|].
  destruct (ltb e WARN_TOL); discriminate.
Qed.

Lemma status_pass_error r :
  status r = fst (classify (rel_err r)) -> is_pass r = true ->
  exists e, rel_err r = Some e /\ ltb e PASS_GUERR = true.
Proof.
  unfold is_pass. intros -> H.
  destruct (rel_err r) as [e|]; [|discriminate].
  exists e. split; [reflexivity|]. rewrite classify_some_status in H.
  destruct (ltb e PASS_STRICT) eqn:E1.
  - apply (ltb_trans _ _ _ E1). reflexivity.
  - destruct (ltb e PASS_GUERR); [reflexivity|].
    destruct (ltb e WARN_TOL); discriminate.
Qed.

(** X27. In the report of a run that started from an empty log the status
    of every run is the class of its relative error, and the selections
    are what they say: the best-strict run is a run of the report with a
    relative error that was read and is below 1e-12, the best-guerrilla
    run one with a relative error below 1e-9. *)
Theorem best_selection_is_below_threshold (a : RunArgs) (self : OuroborosLab)
    (w : World) report st' :
  _runs self = [] ->
  run a (self, w) = (Return report, st') ->
  Forall (fun r => status r = fst (classify (rel_err r))) (runs report)
  /\ (forall s, best report = Some s ->
        In s (runs report)
        /\ exists e, rel_err s = Some e /\ ltb e PASS_STRICT = true)
  /\ (forall g, best_guerrilla report = Some g ->
        In g (runs report)
        /\ exists e, rel_err g = Some e /\ ltb e PASS_GUERR = true).
Proof.
  intros Hfresh H.
  destruct (run_spec a self w) as (new & _ & _ & Hchild & _ & _ & Hrep).
  rewrite H in Hrep. cbn [fst snd] in Hrep.
  destruct Hrep as (Hb & Hruns & _).
  rewrite Hfresh in Hruns. cbn [app] in Hruns.
  assert (Hall : Forall (fun r => status r = fst (classify (rel_err r)))
                        (runs report)).
  { rewrite Hruns. eapply Forall_impl; [|exact Hchild].
    intros r [Hs _]. exact Hs. }
  assert (Hlog : _runs (fst st') = runs report) by (rewrite Hb; reflexivity).
  split; [exact Hall|]. rewrite Forall_forall in Hall. split.
  - intros s Hs.
    pose proof (best_by_cheapest_first (fst st') is_strict) as Hc.
    rewrite Hb in Hs. cbn [best build_report] in Hs. rewrite Hs in Hc.
    destruct Hc as (before & after & Hl & Hq & _).
    assert (Hin : In s (runs report)).
    { rewrite <- Hlog, Hl. apply in_or_app. right. now left. }
    split; [exact Hin|]. apply status_strict_error; auto.
  - intros g Hg.
    pose proof (best_by_cheapest_first (fst st') is_pass) as Hc.
    rewrite Hb in Hg. cbn [best_guerrilla build_report] in Hg. rewrite Hg in Hc.
    destruct Hc as (before & after & Hl & Hq & _).
    assert (Hin : In g (runs report)).
    { rewrite <- Hlog, Hl. apply in_or_app. right. now left. }
    split; [exact Hin|]. apply status_pass_error; auto.
Qed.

(** [best_selection_is_below_threshold] on a child that always reports a
    relative error of 1e-13. *)
Lemma best_selection_is_below_threshold_witness :
  exists report s e,
    fst (run (with_max_steps default_args 2)
           (fresh_lab, mock_world "rel_err = 1e-13" 0)) = Return report
    /\ best report = Some s
    /\ rel_err s = Some e /\ ltb e PASS_STRICT = true.
Proof.
  destruct (run (with_max_steps default_args 2)
              (fresh_lab, mock_world "rel_err = 1e-13" 0)) as [o st'] eqn:E.
  assert (F : fst (run (with_max_steps default_args 2)
                     (fresh_lab, mock_world "rel_err = 1e-13" 0)) = o)
    by (rewrite E; reflexivity).
  destruct o as [report | x |]; [|vm_compute in F; discriminate F|vm_compute in F; discriminate F].
  destruct (best report) as [s|] eqn:Hs.
  2:{ vm_compute in F. injection F as <-. discriminate Hs. }
  destruct (best_selection_is_below_threshold _ fresh_lab _ _ _ eq_refl E)
    as (_ & Hbest & _).
  destruct (Hbest s Hs) as (_ & e & He & Hlt).
  exists report, s, e. conjs; auto.
Defined.

(** ** The command line *)

Lemma is_strict_pass r : is_strict r = true -> is_pass r = true.
Proof. unfold is_strict, is_pass. intros ->. reflexivity. Qed.

(** X28. The run that the summary of [main] prints,
    [report.best_guerrilla or report.best], is always the best-guerrilla
    selection, the alternative never being used: it is absent, and the
    summary says that no pass was found, exactly when no run of the log
    is a pass; when there is a best-strict selection there is a printed
    run as well, a pass than which the best-strict run is not cheaper.
    The printed run can be a PASS_GUERRILLA run although the log holds a
    strict pass, when the former is cheaper. *)
Theorem summary_is_best_guerrilla (self : OuroborosLab) (w : World) :
  let report := build_report self w in
  summary_choice report = best_guerrilla report
  /\ (summary_choice report = None
      <-> forall r, In r (runs report) -> is_pass r = false)
  /\ (forall s, best report = Some s ->
        exists g, summary_choice report = Some g
                  /\ is_pass g = true
                  /\ ltb (cost s) (cost g) = false)
  /\ (let report' := build_report (set_runs self cheap_guerrilla_log) w in
      exists s g, best report' = Some s /\ summary_choice report' = Some g
                  /\ status s = "PASS_STRICT" /\ status g = "PASS_GUERRILLA").
Proof.
  intros report.
  pose proof (best_by_cheapest_first self is_pass) as Hg.
  pose proof (best_by_cheapest_first self is_strict) as Hs.
  assert (E : summary_choice report = best_guerrilla report).
  { unfold summary_choice, report. cbn [best_guerrilla best build_report].
    destruct (_best_by self is_pass) as [g|] eqn:Eg; [reflexivity|].
    apply best_by_none. apply Forall_forall. intros r Hin.
    cbn [cheapest_first] in Hg. specialize (Hg r Hin).
    destruct (is_strict r) eqn:Er; [|reflexivity].
    apply is_strict_pass in Er. congruence. }
  conjs.
  - exact E.
  - rewrite E. unfold report. cbn [best_guerrilla runs build_report]. split.
    + intros Hn. rewrite Hn in Hg. exact Hg.
    + intros Hall. apply best_by_none. now apply Forall_forall.
  - intros s Hbest. rewrite E. unfold report in *.
    cbn [best_guerrilla best build_report] in *. rewrite Hbest in Hs.
    destruct Hs as (before & after & Hlog & Hq & _).
    assert (Hin : In s (_runs self))
      by (rewrite Hlog; apply in_or_app; right; now left).
    apply is_strict_pass in Hq.
    destruct (_best_by self is_pass) as [g|].
    + destruct Hg as (_ & _ & _ & Hg2 & Hmin & _).
      exists g. conjs; auto. exact (proj1 (Hmin s Hin Hq)).
    + cbn [cheapest_first] in Hg. rewrite (Hg s Hin) in Hq. discriminate.
  - eexists. eexists. vm_compute. conjs; reflexivity.
Qed.

Lemma loop_forwards max_dps max_terms stop_on extra steps d t st :
  exists new,
    _runs (fst (snd (loop max_dps max_terms stop_on extra steps d t st)))
    = _runs (fst st) ++ new
    /\ Forall (fun r => extra_args (config r) = extra) new.
Proof.
  apply (loop_invariant max_dps max_terms stop_on extra (fun _ _ _ => True)
           (fun r => extra_args (config r) = extra)); [|exact I].
  intros d0 t0 st0 o st' new _ Hout. split; [|auto].
  destruct (outcome_shape _ _ _ _ _ _ _ _ _ _ Hout)
    as (_ & [[-> _] | [(r1 & -> & C) | (r1 & r2 & -> & C1 & C2)]]);
    repeat constructor; rewrite ?C, ?C1, ?C2; reflexivity.
Qed.

(** X29. [main] starts from an empty log, records no script hash when
    [--hash-script] is empty, and always hands a non-empty list of extra
    arguments to [run]: the command of every trial is the words of
    [--cmd], then [--dps], the precision, [--terms], the terms, [--tol],
    the tolerance, then the arguments of [--extra]. *)
Theorem main_forwards_tol (digest : string -> option string) (c : CliArgs)
    (w : World) :
  let lab := main_lab digest c in
  _runs lab = []
  /\ (cli_hash_script c = "" -> script_hash lab = None)
  /\ Forall
       (fun r =>
          _build_cmd lab (config r)
          = PyStr.split (cli_cmd c)
            ++ ["--dps"; PyStr.of_int (dps (config r));
                "--terms"; PyStr.of_int (terms (config r));
                "--tol"; cli_tol c]
            ++ cli_extra c)
       (_runs (fst (snd (run_loop (main_run_args c) (lab, w))))).
Proof.
  intros lab. conjs.
  - reflexivity.
  - intros E. unfold lab, main_lab. rewrite E. reflexivity.
  - destruct (loop_forwards (cli_max_dps c) (cli_max_terms c) (cli_stop_on c)
                ("--tol" :: cli_tol c :: cli_extra c)
                (Z.to_nat (cli_steps c)) (cli_start_dps c) (cli_start_terms c)
                (lab, w)) as (new & Hr & Hall).
    unfold run_loop. cbn [max_dps max_terms stop_on forwarded_args max_steps
                            start_dps start_terms main_run_args run_extra_args app].
    rewrite Hr. cbn [fst _runs lab main_lab new_lab app].
    eapply Forall_impl; [|exact Hall]. intros r Hx. cbv beta in Hx.
    unfold _build_cmd. rewrite Hx. cbn [experiment_cmd lab main_lab new_lab].
    rewrite split_strip, <- !app_assoc. reflexivity.
Qed.
